(** * mcpkit: the generation pipeline, embedded and verified

    A shallow embedding of the parts of mcpkit that its specification
    talks about: the URL normalizer ([utils/url.ts]), the model selector
    ([getModel]), the response cleanup and schema validation of the action
    discoverer ([discoverActions], [DiscoveredActionsResponseSchema]), the
    authentication analyzer ([analyzeAuthenticationState]) and the
    authentication orchestrator ([authenticateToWebsite]).

    Conventions.
    - A JavaScript string is a [string]: a sequence of code units, here
      the code units U+0000..U+00FF (an [ascii] is one code unit).  White
      space and letter case are the ECMAScript ones restricted to that
      range.
    - A call that may throw returns a [result]; [Throw e] is the thrown
      value.
    - Code that talks to the browser, the model, the vault or the operator
      is a tree of calls ([proc]); a run of it is the list of calls made
      together with what each call answered. *)

From Stdlib Require Import String Ascii List Bool Arith NArith Lia DecimalString.
Import ListNotations.
#[local] Set Warnings "-register-all".
Local Open Scope list_scope.
Local Open Scope string_scope.

Set Implicit Arguments.

(** ** JavaScript strings *)

Module JSString.

(** [WhiteSpace] and [LineTerminator] code units below U+0100: TAB, LF, VT,
  FF, CR, SPACE and NO-BREAK SPACE.  This is the set that both
  [String.prototype.trim] and the regular expression class [\s] use. *)
Definition isWhiteSpace (c : ascii) : bool :=
let n := nat_of_ascii c in
((9 <=? n)%nat && (n <=? 13)%nat) || (n =? 32)%nat || (n =? 160)%nat.

(** [s.trimStart()] *)
Fixpoint trimStart (s : string) : string :=
match s with
| String c r => if isWhiteSpace c then trimStart r else s
| EmptyString => EmptyString
end.

(** [s.trimEnd()] *)
Fixpoint trimEnd (s : string) : string :=
match s with
| String c r =>
    match trimEnd r with
    | EmptyString => if isWhiteSpace c then EmptyString else String c EmptyString
    | r' => String c r'
    end
| EmptyString => EmptyString
end.

(** [s.trim()] *)
Definition trim (s : string) : string := trimEnd (trimStart s).

(** [s.startsWith(p)] *)
Fixpoint startsWith (s p : string) {struct p} : bool :=
match p, s with
| EmptyString, _ => true
| String a p', String b s' => Ascii.eqb a b && startsWith s' p'
| String _ _, EmptyString => false
end.

(** The code unit [c] in lower case: A-Z, and the upper-case letters of
  the Latin-1 supplement (U+00C0..U+00DE without the multiplication
  sign U+00D7). *)
Definition lowerChar (c : ascii) : ascii :=
let n := nat_of_ascii c in
if ((65 <=? n)%nat && (n <=? 90)%nat)
   || ((192 <=? n)%nat && (n <=? 222)%nat && negb (n =? 215)%nat)
then ascii_of_nat (n + 32) else c.

(** [s.toLowerCase()] *)
Fixpoint toLowerCase (s : string) : string :=
match s with
| String c r => String (lowerChar c) (toLowerCase r)
| EmptyString => EmptyString
end.

(** [s.slice(n)] for [0 <= n] *)
Fixpoint slice (n : nat) (s : string) : string :=
match n, s with
| O, _ => s
| S n', String _ r => slice n' r
| S _, EmptyString => EmptyString
end.

(** [s.replace(p, "")] for a string pattern [p]: the first occurrence of
  [p] is removed, and [s] is returned when there is none. *)
Fixpoint removeFirst (p s : string) : string :=
if startsWith s p then slice (String.length p) s
else match s with
     | String c r => String c (removeFirst p r)
     | EmptyString => EmptyString
     end.

Fixpoint all (f : ascii -> bool) (s : string) : bool :=
match s with
| String c r => f c && all f r
| EmptyString => true
end.

(** The double quote, which a string literal here cannot hold. *)
Definition dquote : string := String (ascii_of_nat 34) EmptyString.

End JSString.
Import JSString.

(** ** Thrown values *)

(** What a callee that is not part of the embedded code (the browser
    engine, the model, the session API, [JSON.parse], zod) throws: an
    [Error] instance with its [message], or some other value, given by
    [String(value)]. *)
Inductive thrown : Type :=
| ErrorObject (message : string)
| OtherValue (text : string).

(** What a [throw] carries.  [Error m] is [new Error(m)] built by the code
    embedded here; [FromCallee v] is a value that a callee threw and that
    propagates. *)
Inductive exn : Type :=
| Error (message : string)
| FromCallee (v : thrown).

(** [error instanceof Error] *)
Definition instanceofError (e : exn) : bool :=
  match e with
  | Error _ | FromCallee (ErrorObject _) => true
  | FromCallee (OtherValue _) => false
  end.

(** [error instanceof Error ? error.message : String(error)] *)
Definition message_of (e : exn) : string :=
  match e with
  | Error m | FromCallee (ErrorObject m) => m
  | FromCallee (OtherValue t) => t
  end.

Inductive result (A : Type) : Type :=
| Ok (a : A)
| Throw (e : exn).
Arguments Ok {A} a.
Arguments Throw {A} e.

(** ** URL normalizer: [utils/url.ts] *)

Section UrlNormalizer.

(** The platform's [URL] class.  [new_URL s] is [new URL(s)], [None]
    when the constructor throws; [href] is the serialization (also what
    [toString()] returns) and [protocol] the scheme with its colon. *)
Variable URL : Type.
Variable new_URL : string -> option URL.
Variable href : URL -> string.
Variable protocol : URL -> string.

Definition toString (u : URL) : string := href u.

Definition InvalidUrlFormat : exn := Error "Invalid URL format".
Definition InvalidUrlFormatHint : exn :=
  Error "Invalid URL format. Please provide a valid URL (e.g., https://example.com, www.example.com, or example.com)".

Definition normalizeUrl (input : string) : result URL :=
  let url := trim input in
  if startsWith url "http://" || startsWith url "https://" then
    match new_URL url with
    | Some u => Ok u
    | None => Throw InvalidUrlFormat
    end
  else
    let url := "https://" ++ url in
    match new_URL url with
    | Some u => Ok u
    | None => Throw InvalidUrlFormatHint
    end.

Definition isValidUrlInput (input : string) : bool :=
  match normalizeUrl input with
  | Ok _ => true
  | Throw _ => false
  end.

End UrlNormalizer.

(** A small implementation of the [URL] interface above, for evaluating
    [normalizeUrl] on concrete inputs.  It accepts [http://] and
    [https://] followed by a non-empty run of visible ASCII characters
    and serializes a URL as it was written; the platform's parser accepts
    more and rewrites more. *)
Module RefURL.

Record t : Type := { secure : bool; rest : string }.

Definition visible (c : ascii) : bool :=
  let n := nat_of_ascii c in (33 <=? n)%nat && (n <=? 126)%nat.

Definition make (secure : bool) (rest : string) : option t :=
  match rest with
  | EmptyString => None
  | _ => if all visible rest then Some {| secure := secure; rest := rest |}
         else None
  end.

Definition parse (s : string) : option t :=
  if startsWith s "https://" then make true (slice 8 s)
  else if startsWith s "http://" then make false (slice 7 s)
  else None.

Definition protocol (u : t) : string :=
  if secure u then "https:" else "http:".

Definition href (u : t) : string := protocol u ++ "//" ++ rest u.

End RefURL.

(** ** Model selection: [getModel] *)

(** What [loadEnv()] returns. *)
Record Env : Type := { MODEL_PROVIDER : string; MODEL_API_KEY : string }.

Inductive ProviderFactory : Type :=
| createOpenAI | createAnthropic | createGoogleGenerativeAI | createXai.

(** [factory({ apiKey })(modelName)] *)
Record LanguageModel : Type :=
  { factory : ProviderFactory; apiKey : string; modelName : string }.

(** The module-level state that [getModel] reads and writes, and the
    lines it has written to [console.error]. *)
Record ModelState : Type :=
  { cachedModel : option LanguageModel; stderr : list string }.

Definition UnsupportedModelProvider (provider : string) : exn :=
  Error ("Unsupported model provider: " ++ provider
         ++ ". Must start with openai/, anthropic/, google/, or xai/").

Definition selectModel (f : ProviderFactory) (pre : string) (env : Env)
    (st : ModelState) : result LanguageModel * ModelState :=
  let modelName := removeFirst pre (MODEL_PROVIDER env) in
  let m := {| factory := f; apiKey := MODEL_API_KEY env; modelName := modelName |} in
  (Ok m, {| cachedModel := Some m; stderr := stderr st |}).

(** [getModel()], in a process whose [loadEnv()] returns [env]. *)
Definition getModel (env : Env) (st : ModelState)
    : result LanguageModel * ModelState :=
  match cachedModel st with
  | Some m => (Ok m, st)
  | None =>
      let st := {| cachedModel := cachedModel st;
                   stderr := List.app (stderr st) ["Using model: " ++ MODEL_PROVIDER env] |} in
      if startsWith (MODEL_PROVIDER env) "openai/" then
        selectModel createOpenAI "openai/" env st
      else if startsWith (MODEL_PROVIDER env) "anthropic/" then
        selectModel createAnthropic "anthropic/" env st
      else if startsWith (MODEL_PROVIDER env) "google/" then
        selectModel createGoogleGenerativeAI "google/" env st
      else if startsWith (MODEL_PROVIDER env) "xai/" then
        selectModel createXai "xai/" env st
      else (Throw (UnsupportedModelProvider (MODEL_PROVIDER env)), st)
  end.

(** ** The regular expressions of the source

    Each function is one regular-expression call of the source, written
    out.  None of the expressions has the [g] flag, so [replace] rewrites
    the leftmost match only; [\s] is [isWhiteSpace]; with the [i] flag a
    letter of the pattern matches itself in either case. *)

Module RegExp.

(** [Canonicalize] of a code unit under the [i] flag (upper-casing). *)
Definition canonicalize (c : ascii) : ascii :=
  let n := nat_of_ascii c in
  if ((97 <=? n)%nat && (n <=? 122)%nat)
     || ((224 <=? n)%nat && (n <=? 254)%nat && negb (n =? 247)%nat)
  then ascii_of_nat (n - 32) else c.

(** The literal [p] matches at the start of [s], ignoring case. *)
Fixpoint startsWithIgnoreCase (s p : string) {struct p} : bool :=
  match p, s with
  | EmptyString, _ => true
  | String a p', String b s' =>
      Ascii.eqb (canonicalize a) (canonicalize b) && startsWithIgnoreCase s' p'
  | String _ _, EmptyString => false
  end.

(** [s.replace(/^```json\s*/i, "")] *)
Definition replace_fence_json (s : string) : string :=
  if startsWithIgnoreCase s "```json" then trimStart (slice 7 s) else s.

(** [s.replace(/^```\s*/, "")] *)
Definition replace_fence_open (s : string) : string :=
  if startsWith s "```" then trimStart (slice 3 s) else s.

(** [s.replace(/\s*```$/, "")]: the match starts at the leftmost
    position from which only white space and then the closing fence
    remain up to the end of [s]. *)
Fixpoint replace_fence_close (s : string) : string :=
  if (trimStart s =? "```")%string then EmptyString
  else match s with
       | String c r => String c (replace_fence_close r)
       | EmptyString => EmptyString
       end.

Definition loginKeywords : list string :=
  ["login"; "signin"; "auth"; "sign-in"; "account"].

(** [/login|signin|auth|sign-in|account/i.test(s)] *)
Fixpoint test_loginKeywords (s : string) : bool :=
  existsb (startsWithIgnoreCase s) loginKeywords
  || match s with
     | String _ r => test_loginKeywords r
     | EmptyString => false
     end.

End RegExp.

(** ** JSON values and [JSON.parse] *)

(** A parsed JSON value.  A number is kept as its source text; an object
    keeps its properties in the order in which they were first set. *)
Inductive JSON : Type :=
| JNull
| JBool (b : bool)
| JNumber (text : string)
| JString (s : string)
| JArray (elements : list JSON)
| JObject (properties : list (string * JSON)).

Module JSONParse.

Definition isJsonWs (c : ascii) : bool :=
  let n := nat_of_ascii c in
  (n =? 32)%nat || (n =? 9)%nat || (n =? 10)%nat || (n =? 13)%nat.

Fixpoint skipWs (s : string) : string :=
  match s with
  | String c r => if isJsonWs c then skipWs r else s
  | EmptyString => EmptyString
  end.

Definition isDigit (c : ascii) : bool :=
  let n := nat_of_ascii c in (48 <=? n)%nat && (n <=? 57)%nat.

Definition hexValue (c : ascii) : option nat :=
  let n := nat_of_ascii c in
  if isDigit c then Some (n - 48)
  else if (97 <=? n)%nat && (n <=? 102)%nat then Some (n - 87)
  else if (65 <=? n)%nat && (n <=? 70)%nat then Some (n - 55)
  else None.

(** [obj[k] = v] on the properties read so far: a repeated key keeps its
    place and takes the later value. *)
Fixpoint setProperty (ps : list (string * JSON)) (k : string) (v : JSON)
    : list (string * JSON) :=
  match ps with
  | [] => [(k, v)]
  | (k', v') :: ps' =>
      if (k' =? k)%string then (k', v) :: ps' else (k', v') :: setProperty ps' k v
  end.

Definition buildObject (members : list (string * JSON)) : JSON :=
  JObject (fold_left (fun ps kv => setProperty ps (fst kv) (snd kv)) members []).

Definition consChar {A} (c : ascii) (o : option (string * A)) : option (string * A) :=
  match o with
  | Some (s, r) => Some (String c s, r)
  | None => None
  end.

(** Where the string scanner is: in plain text, after a backslash, or
    inside [\uXXXX] with [need] digits to go and [acc] read so far. *)
Inductive strState : Type :=
| Plain
| Escaped
| Unicode (need : nat) (acc : nat).

Definition simpleEscape (c : ascii) : option ascii :=
  let n := nat_of_ascii c in
  if (n =? 34)%nat || (n =? 92)%nat || (n =? 47)%nat then Some c
  else if (n =? 98)%nat then Some (ascii_of_nat 8)
  else if (n =? 102)%nat then Some (ascii_of_nat 12)
  else if (n =? 110)%nat then Some (ascii_of_nat 10)
  else if (n =? 114)%nat then Some (ascii_of_nat 13)
  else if (n =? 116)%nat then Some (ascii_of_nat 9)
  else None.

(** The characters of a string literal after its opening quote, up to
    and including the closing quote.  An escape [\uXXXX] above U+00FF
    names a code unit outside the strings modelled here and is
    refused. *)
Fixpoint parseChars (st : strState) (s : string) : option (string * string) :=
  match s with
  | EmptyString => None
  | String c r =>
      match st with
      | Plain =>
          if (nat_of_ascii c =? 34)%nat then Some (EmptyString, r)
          else if (nat_of_ascii c =? 92)%nat then parseChars Escaped r
          else if (nat_of_ascii c <? 32)%nat then None
          else consChar c (parseChars Plain r)
      | Escaped =>
          match simpleEscape c with
          | Some d => consChar d (parseChars Plain r)
          | None =>
              if (nat_of_ascii c =? 117)%nat then parseChars (Unicode 4 0) r
              else None
          end
      | Unicode need acc =>
          match hexValue c with
          | None => None
          | Some h =>
              let acc' := 16 * acc + h in
              match need with
              | 1 => if (acc' <? 256)%nat
                     then consChar (ascii_of_nat acc') (parseChars Plain r)
                     else None
              | S need' => parseChars (Unicode need' acc') r
              | O => None
              end
          end
      end
  end.

(** The longest run of digits at the start of [s], and what follows. *)
Fixpoint takeDigits (s : string) : string * string :=
  match s with
  | String c r =>
      if isDigit c then let (ds, r') := takeDigits r in (String c ds, r')
      else (EmptyString, s)
  | EmptyString => (EmptyString, EmptyString)
  end.

(** At least one digit. *)
Definition someDigits (s : string) : option (string * string) :=
  match takeDigits s with
  | (EmptyString, _) => None
  | p => Some p
  end.

Definition parseInt (s : string) : option (string * string) :=
  match s with
  | String c r =>
      if (nat_of_ascii c =? 48)%nat then Some ("0", r)
      else if isDigit c then let (ds, r') := takeDigits r in Some (String c ds, r')
      else None
  | EmptyString => None
  end.

Definition parseFrac (s : string) : option (string * string) :=
  match s with
  | String c r =>
      if (nat_of_ascii c =? 46)%nat then consChar c (someDigits r)
      else Some (EmptyString, s)
  | EmptyString => Some (EmptyString, s)
  end.

Definition parseExp (s : string) : option (string * string) :=
  match s with
  | String c r =>
      if (nat_of_ascii c =? 101)%nat || (nat_of_ascii c =? 69)%nat then
        match r with
        | String g r' =>
            if (nat_of_ascii g =? 43)%nat || (nat_of_ascii g =? 45)%nat
            then consChar c (consChar g (someDigits r'))
            else consChar c (someDigits r)
        | EmptyString => None
        end
      else Some (EmptyString, s)
  | EmptyString => Some (EmptyString, s)
  end.

(** [-? int frac? exp?] *)
Definition parseNumber (s : string) : option (string * string) :=
  let (sign, s0) :=
    match s with
    | String c r => if (nat_of_ascii c =? 45)%nat then ("-", r) else (EmptyString, s)
    | EmptyString => (EmptyString, s)
    end in
  match parseInt s0 with
  | None => None
  | Some (i, s1) =>
      match parseFrac s1 with
      | None => None
      | Some (f, s2) =>
          match parseExp s2 with
          | None => None
          | Some (e, s3) => Some (sign ++ i ++ f ++ e, s3)
          end
      end
  end.

(** A value at the start of [s], and what follows it.  [parseElements]
    reads the elements of an array from the first one up to and
    including the closing bracket, [parseMembers] the members of an
    object up to and including the closing brace. *)
Fixpoint parseValue (fuel : nat) (s : string) : option (JSON * string) :=
  match fuel with
  | O => None
  | S fuel =>
      match s with
      | EmptyString => None
      | String c r =>
          if (nat_of_ascii c =? 123)%nat then
            match skipWs r with
            | String d r' =>
                if (nat_of_ascii d =? 125)%nat then Some (JObject [], r')
                else match parseMembers fuel (skipWs r) with
                     | Some (ms, r'') => Some (buildObject ms, r'')
                     | None => None
                     end
            | EmptyString => None
            end
          else if (nat_of_ascii c =? 91)%nat then
            match skipWs r with
            | String d r' =>
                if (nat_of_ascii d =? 93)%nat then Some (JArray [], r')
                else match parseElements fuel (skipWs r) with
                     | Some (vs, r'') => Some (JArray vs, r'')
                     | None => None
                     end
            | EmptyString => None
            end
          else if (nat_of_ascii c =? 34)%nat then
            match parseChars Plain r with
            | Some (str, r') => Some (JString str, r')
            | None => None
            end
          else if startsWith s "true" then Some (JBool true, slice 4 s)
          else if startsWith s "false" then Some (JBool false, slice 5 s)
          else if startsWith s "null" then Some (JNull, slice 4 s)
          else match parseNumber s with
               | Some (n, r') => Some (JNumber n, r')
               | None => None
               end
      end
  end
with parseElements (fuel : nat) (s : string) : option (list JSON * string) :=
  match fuel with
  | O => None
  | S fuel =>
      match parseValue fuel s with
      | None => None
      | Some (v, r) =>
          match skipWs r with
          | String d r' =>
              if (nat_of_ascii d =? 44)%nat then
                match parseElements fuel (skipWs r') with
                | Some (vs, r'') => Some (v :: vs, r'')
                | None => None
                end
              else if (nat_of_ascii d =? 93)%nat then Some ([v], r')
              else None
          | EmptyString => None
          end
      end
  end
with parseMembers (fuel : nat) (s : string)
    : option (list (string * JSON) * string) :=
  match fuel with
  | O => None
  | S fuel =>
      match s with
      | String q r =>
          if (nat_of_ascii q =? 34)%nat then
            match parseChars Plain r with
            | None => None
            | Some (k, r1) =>
                match skipWs r1 with
                | String colon r2 =>
                    if (nat_of_ascii colon =? 58)%nat then
                      match parseValue fuel (skipWs r2) with
                      | None => None
                      | Some (v, r3) =>
                          match skipWs r3 with
                          | String d r4 =>
                              if (nat_of_ascii d =? 44)%nat then
                                match parseMembers fuel (skipWs r4) with
                                | Some (ms, r5) => Some ((k, v) :: ms, r5)
                                | None => None
                                end
                              else if (nat_of_ascii d =? 125)%nat
                                   then Some ([(k, v)], r4)
                                   else None
                          | EmptyString => None
                          end
                      end
                    else None
                | EmptyString => None
                end
            end
          else None
      | EmptyString => None
      end
  end.

End JSONParse.

(** [JSON.parse(text)]; [None] when it throws [SyntaxError]. *)
Definition JSON_parse (text : string) : option JSON :=
  match JSONParse.parseValue (2 * String.length text + 2) (JSONParse.skipWs text) with
  | Some (v, r) =>
      match JSONParse.skipWs r with
      | EmptyString => Some v
      | String _ _ => None
      end
  | None => None
  end.

(** ** Schemas: [schemas/index.ts] *)

Inductive ParameterType : Type := type_string | type_number | type_boolean.

(** An element of [parameters]. *)
Record ActionParameter : Type :=
  { param_name : string;
    param_type : ParameterType;
    param_description : string;
    param_required : option bool }.

(** [z.infer<typeof DiscoveredActionSchema>] *)
Record DiscoveredAction : Type :=
  { name : string;
    description : string;
    steps : list string;
    parameters : option (list ActionParameter);
    extractionSchema : option (list (string * JSON)) }.

Inductive Strategy : Type := autofill | manual | passwordless | unknown.

Record Mfa : Type := { mfa_required : bool; mfa_description : option string }.

(** [z.infer<typeof AuthAnalysisSchema>] *)
Record AuthAnalysis : Type :=
  { requiresAuth : bool;
    loginButton : option string;
    summary : option string;
    canAutofill : option bool;
    recommendedStrategy : option Strategy;
    auth_steps : option (list string);
    blockers : option (list string);
    mfa : option Mfa }.

(** *** zod

    The part of zod that the two schemas use.  A schema is a function of
    the path reached so far and of the datum found there ([None] is
    [undefined], which is what a missing property reads as); it returns
    the parsed value or the issues, in the order in which zod reports
    them.  An object schema drops the properties it does not declare. *)
Module Zod.

Inductive ParsedType : Type :=
| t_undefined | t_null | t_boolean | t_number | t_string | t_array | t_object.

Inductive PathElement : Type :=
| Key (k : string)
| Index (i : nat).

Inductive IssueCode : Type :=
| invalid_type (expected : string) (received : ParsedType)
| invalid_enum_value (received : string).

Record Issue : Type := { code : IssueCode; path : list PathElement }.

Inductive ParseReturn (T : Type) : Type :=
| Valid (value : T)
| Invalid (issues : list Issue).
Arguments Valid {T} value.
Arguments Invalid {T} issues.

Definition Schema (T : Type) : Type :=
  list PathElement -> option JSON -> ParseReturn T.

Definition getParsedType (data : option JSON) : ParsedType :=
  match data with
  | None => t_undefined
  | Some JNull => t_null
  | Some (JBool _) => t_boolean
  | Some (JNumber _) => t_number
  | Some (JString _) => t_string
  | Some (JArray _) => t_array
  | Some (JObject _) => t_object
  end.

Definition wrongType {T} (expected : string) : Schema T :=
  fun path data =>
    Invalid [{| code := invalid_type expected (getParsedType data); path := path |}].

(** Both sides are parsed, and the issues of both are kept. *)
Definition ap {A B} (f : ParseReturn (A -> B)) (a : ParseReturn A) : ParseReturn B :=
  match f, a with
  | Valid f, Valid a => Valid (f a)
  | Valid _, Invalid i => Invalid i
  | Invalid i, Valid _ => Invalid i
  | Invalid i, Invalid j => Invalid (List.app i j)
  end.

Definition map {A B} (f : A -> B) (a : ParseReturn A) : ParseReturn B :=
  ap (Valid f) a.

(** [data[k]] on a parsed JSON object *)
Fixpoint get (k : string) (ps : list (string * JSON)) : option JSON :=
  match ps with
  | [] => None
  | (k', v) :: ps' => if (k' =? k)%string then Some v else get k ps'
  end.

(** The schema [s] at property [k] of an object with properties [ps]. *)
Definition at_key {T} (s : Schema T) (k : string) (path : list PathElement)
    (ps : list (string * JSON)) : ParseReturn T :=
  s (List.app path [Key k]) (get k ps).

(** [z.string()] *)
Definition z_string : Schema string :=
  fun path data =>
    match data with
    | Some (JString s) => Valid s
    | _ => wrongType "string" path data
    end.

(** [z.boolean()] *)
Definition z_boolean : Schema bool :=
  fun path data =>
    match data with
    | Some (JBool b) => Valid b
    | _ => wrongType "boolean" path data
    end.

(** [z.any()] *)
Definition z_any : Schema (option JSON) := fun _ data => Valid data.

(** [s.optional()] *)
Definition optional {T} (s : Schema T) : Schema (option T) :=
  fun path data =>
    match data with
    | None => Valid None
    | Some _ => map Some (s path data)
    end.

Fixpoint elements {T} (s : Schema T) (path : list PathElement) (i : nat)
    (l : list JSON) : ParseReturn (list T) :=
  match l with
  | [] => Valid []
  | x :: l' =>
      ap (map cons (s (List.app path [Index i]) (Some x))) (elements s path (S i) l')
  end.

(** [z.array(s)] *)
Definition array {T} (s : Schema T) : Schema (list T) :=
  fun path data =>
    match data with
    | Some (JArray l) => elements s path 0 l
    | _ => wrongType "array" path data
    end.

(** [z.record(z.any())]: any object, its properties kept as they are. *)
Definition record_any : Schema (list (string * JSON)) :=
  fun path data =>
    match data with
    | Some (JObject ps) => Valid ps
    | _ => wrongType "object" path data
    end.

(** [z.enum(["string", "number", "boolean"])] *)
Definition enum_type : Schema ParameterType :=
  fun path data =>
    match data with
    | Some (JString s) =>
        if (s =? "string")%string then Valid type_string
        else if (s =? "number")%string then Valid type_number
        else if (s =? "boolean")%string then Valid type_boolean
        else Invalid [{| code := invalid_enum_value s; path := path |}]
    | _ => wrongType "'string' | 'number' | 'boolean'" path data
    end.

End Zod.
Import Zod.

(** The object schema of one element of [parameters]. *)
Definition ParameterSchema : Schema ActionParameter :=
  fun path data =>
    match data with
    | Some (JObject ps) =>
        ap (ap (ap (map Build_ActionParameter
          (at_key z_string "name" path ps))
          (at_key enum_type "type" path ps))
          (at_key z_string "description" path ps))
          (at_key (optional z_boolean) "required" path ps)
    | _ => wrongType "object" path data
    end.

Definition DiscoveredActionSchema : Schema DiscoveredAction :=
  fun path data =>
    match data with
    | Some (JObject ps) =>
        ap (ap (ap (ap (map Build_DiscoveredAction
          (at_key z_string "name" path ps))
          (at_key z_string "description" path ps))
          (at_key (array z_string) "steps" path ps))
          (at_key (optional (array ParameterSchema)) "parameters" path ps))
          (at_key (optional record_any) "extractionSchema" path ps)
    | _ => wrongType "object" path data
    end.

(** [{ actions: DiscoveredAction[] }] is kept as its one field. *)
Definition DiscoveredActionsResponseSchema : Schema (list DiscoveredAction) :=
  fun path data =>
    match data with
    | Some (JObject ps) => at_key (array DiscoveredActionSchema) "actions" path ps
    | _ => wrongType "object" path data
    end.

(** [schema.parse(data)] *)
Definition parse {T} (s : Schema T) (data : JSON) : ParseReturn T :=
  s [] (Some data).

(** ** Calls to the outside, and runs *)

(** Handles to objects that live outside: a browser page, an agent. *)
Inductive Page : Type := page_handle (id : nat).
Inductive Agent : Type := agent_handle (id : nat).

(** A stored login. *)
Record Credentials : Type := { username : string; password : string }.

(** What [agent.execute] resolves to: something that is not an object, or
    a result object with its [message] property, if it has one. *)
Inductive AgentResult : Type :=
| NotAnObject
| ResultObject (message : option string).

(** What a call that may throw answers. *)
Inductive outcome (X : Type) : Type :=
| Returned (x : X)
| Threw (v : thrown).
Arguments Returned {X} x.
Arguments Threw {X} v.

(** The calls that the embedded code makes to its collaborators, each with
    the type of its answer.  A call answering an [outcome] may throw (or
    reject).  The others are taken not to throw: the console, reads of
    [process.env], [process.platform] and of the session identifier, the
    line from standard input, [exec], [context.setActivePage] and
    [page.url()].

    [lookupCredentialsIn1Password] and [logAuthenticationAnalysis] are
    functions of this repository whose source is not at hand; they are
    calls like the others.  The lookup answers credentials or their
    absence (the specification has it never raise) and the logger only
    prints. *)
Inductive call : Type -> Type :=
| console_log (line : string) : call unit
| console_log_credentials (c : option Credentials) : call unit
| console_error (line : string) : call unit
| process_env (var : string) : call (option string)
| process_platform : call string
| stdin_once_data : call string
| child_process_exec (command : string) : call unit
| stagehand_agent (modelName : string) (apiKey : option string) : call (outcome Agent)
| agent_execute (a : Agent) (maxSteps : nat) : call (outcome AgentResult)
| stagehand_extract : call (outcome AuthAnalysis)
| stagehand_act (instruction : string) : call (outcome unit)
| stagehand_browserbaseSessionId : call (option string)
| context_awaitActivePage (timeout : N) : call (outcome Page)
| context_setActivePage (p : Page) : call unit
| page_goto (p : Page) (url : string) : call (outcome unit)
| page_url (p : Page) : call string
| page_waitForLoadState (p : Page) (timeout : N) : call (outcome unit)
| sessions_debug (sessionId : string) : call (outcome string)
| lookupCredentialsIn1Password (domain : string) : call (option Credentials)
| logAuthenticationAnalysis (analysis : AuthAnalysis) (domain : string) : call unit.

(** One call of a run together with its answer. *)
Inductive obs : Type :=
| o_console_log (line : string)
| o_console_log_credentials (c : option Credentials)
| o_console_error (line : string)
| o_process_env (var : string) (value : option string)
| o_process_platform (value : string)
| o_stdin_once_data (data : string)
| o_child_process_exec (command : string)
| o_stagehand_agent (modelName : string) (apiKey : option string) (a : outcome Agent)
| o_agent_execute (a : Agent) (maxSteps : nat) (r : outcome AgentResult)
| o_stagehand_extract (r : outcome AuthAnalysis)
| o_stagehand_act (instruction : string) (r : outcome unit)
| o_stagehand_browserbaseSessionId (value : option string)
| o_context_awaitActivePage (timeout : N) (r : outcome Page)
| o_context_setActivePage (p : Page)
| o_page_goto (p : Page) (url : string) (r : outcome unit)
| o_page_url (p : Page) (value : string)
| o_page_waitForLoadState (p : Page) (timeout : N) (r : outcome unit)
| o_sessions_debug (sessionId : string) (r : outcome string)
| o_lookupCredentialsIn1Password (domain : string) (c : option Credentials)
| o_logAuthenticationAnalysis (analysis : AuthAnalysis) (domain : string).

Definition observe {X} (c : call X) : X -> obs :=
  match c in call X return X -> obs with
  | console_log l => fun _ => o_console_log l
  | console_log_credentials v => fun _ => o_console_log_credentials v
  | console_error l => fun _ => o_console_error l
  | process_env v => fun x => o_process_env v x
  | process_platform => fun x => o_process_platform x
  | stdin_once_data => fun x => o_stdin_once_data x
  | child_process_exec cmd => fun _ => o_child_process_exec cmd
  | stagehand_agent m k => fun x => o_stagehand_agent m k x
  | agent_execute a n => fun x => o_agent_execute a n x
  | stagehand_extract => fun x => o_stagehand_extract x
  | stagehand_act i => fun x => o_stagehand_act i x
  | stagehand_browserbaseSessionId => fun x => o_stagehand_browserbaseSessionId x
  | context_awaitActivePage n => fun x => o_context_awaitActivePage n x
  | context_setActivePage p => fun _ => o_context_setActivePage p
  | page_goto p u => fun x => o_page_goto p u x
  | page_url p => fun x => o_page_url p x
  | page_waitForLoadState p n => fun x => o_page_waitForLoadState p n x
  | sessions_debug i => fun x => o_sessions_debug i x
  | lookupCredentialsIn1Password d => fun x => o_lookupCredentialsIn1Password d x
  | logAuthenticationAnalysis a d => fun _ => o_logAuthenticationAnalysis a d
  end.

Definition option_eq_dec {A} (dec : forall x y : A, {x = y} + {x <> y})
    (x y : option A) : {x = y} + {x <> y}.
Proof. decide equality. Defined.

Definition Page_eq_dec (x y : Page) : {x = y} + {x <> y}.
Proof. decide equality; apply Nat.eq_dec. Defined.

Definition Agent_eq_dec (x y : Agent) : {x = y} + {x <> y}.
Proof. decide equality; apply Nat.eq_dec. Defined.

Definition Credentials_eq_dec (x y : Credentials) : {x = y} + {x <> y}.
Proof. decide equality; apply string_dec. Defined.

Definition Strategy_eq_dec (x y : Strategy) : {x = y} + {x <> y}.
Proof. decide equality. Defined.

Definition Mfa_eq_dec (x y : Mfa) : {x = y} + {x <> y}.
Proof.
  decide equality; [apply (option_eq_dec string_dec) | apply Bool.bool_dec].
Defined.

Definition AuthAnalysis_eq_dec (x y : AuthAnalysis) : {x = y} + {x <> y}.
Proof.
  decide equality;
    first [ apply Bool.bool_dec
          | apply (option_eq_dec string_dec)
          | apply (option_eq_dec Bool.bool_dec)
          | apply (option_eq_dec Strategy_eq_dec)
          | apply (option_eq_dec (list_eq_dec string_dec))
          | apply (option_eq_dec Mfa_eq_dec) ].
Defined.

(** [x] when the recorded argument [b] is the argument [a] of the call. *)
Definition same {A X} (dec : forall x y : A, {x = y} + {x <> y}) (a b : A)
    (x : option X) : option X :=
  if dec a b then x else None.

(** The answer that the observation [o] records for the call [c], if it
    is an observation of that call. *)
Definition answer {X} (c : call X) (o : obs) : option X :=
  match c in call X return option X with
  | console_log l =>
      match o with o_console_log l' => same string_dec l l' (Some tt) | _ => None end
  | console_log_credentials v =>
      match o with
      | o_console_log_credentials v' =>
          same (option_eq_dec Credentials_eq_dec) v v' (Some tt)
      | _ => None
      end
  | console_error l =>
      match o with o_console_error l' => same string_dec l l' (Some tt) | _ => None end
  | process_env v =>
      match o with o_process_env v' x => same string_dec v v' (Some x) | _ => None end
  | process_platform =>
      match o with o_process_platform x => Some x | _ => None end
  | stdin_once_data =>
      match o with o_stdin_once_data x => Some x | _ => None end
  | child_process_exec cmd =>
      match o with
      | o_child_process_exec cmd' => same string_dec cmd cmd' (Some tt)
      | _ => None
      end
  | stagehand_agent m k =>
      match o with
      | o_stagehand_agent m' k' x =>
          same string_dec m m' (same (option_eq_dec string_dec) k k' (Some x))
      | _ => None
      end
  | agent_execute a n =>
      match o with
      | o_agent_execute a' n' x => same Agent_eq_dec a a' (same Nat.eq_dec n n' (Some x))
      | _ => None
      end
  | stagehand_extract =>
      match o with o_stagehand_extract x => Some x | _ => None end
  | stagehand_act i =>
      match o with o_stagehand_act i' x => same string_dec i i' (Some x) | _ => None end
  | stagehand_browserbaseSessionId =>
      match o with o_stagehand_browserbaseSessionId x => Some x | _ => None end
  | context_awaitActivePage n =>
      match o with
      | o_context_awaitActivePage n' x => same N.eq_dec n n' (Some x)
      | _ => None
      end
  | context_setActivePage p =>
      match o with
      | o_context_setActivePage p' => same Page_eq_dec p p' (Some tt)
      | _ => None
      end
  | page_goto p u =>
      match o with
      | o_page_goto p' u' x => same Page_eq_dec p p' (same string_dec u u' (Some x))
      | _ => None
      end
  | page_url p =>
      match o with o_page_url p' x => same Page_eq_dec p p' (Some x) | _ => None end
  | page_waitForLoadState p n =>
      match o with
      | o_page_waitForLoadState p' n' x =>
          same Page_eq_dec p p' (same N.eq_dec n n' (Some x))
      | _ => None
      end
  | sessions_debug i =>
      match o with o_sessions_debug i' x => same string_dec i i' (Some x) | _ => None end
  | lookupCredentialsIn1Password d =>
      match o with
      | o_lookupCredentialsIn1Password d' x => same string_dec d d' (Some x)
      | _ => None
      end
  | logAuthenticationAnalysis a d =>
      match o with
      | o_logAuthenticationAnalysis a' d' =>
          same AuthAnalysis_eq_dec a a' (same string_dec d d' (Some tt))
      | _ => None
      end
  end.

(** A piece of code that makes calls: it has finished with a value, or it
    makes a call and goes on from the answer. *)
Inductive proc (R : Type) : Type :=
| Ret (r : R)
| Vis (X : Type) (c : call X) (k : X -> proc R).
Arguments Ret {R} r.
Arguments Vis {R X} c k.

(** Running [p] against the recorded calls [t]: the value that [p]
    finishes with when it makes exactly the calls of [t], in order, and
    receives the recorded answers. *)
Fixpoint replay {R} (p : proc R) (t : list obs) : option R :=
  match p, t with
  | Ret r, [] => Some r
  | Ret _, _ :: _ => None
  | Vis c k, o :: t' =>
      match answer c o with
      | Some x => replay (k x) t'
      | None => None
      end
  | Vis _ _, [] => None
  end.

(** [t] is a run of [p] that finishes with [r]. *)
Definition runs {R} (p : proc R) (t : list obs) (r : R) : Prop :=
  replay p t = Some r.

Fixpoint pbind {A B} (p : proc A) (f : A -> proc B) : proc B :=
  match p with
  | Ret a => f a
  | Vis c k => Vis c (fun x => pbind (k x) f)
  end.

(** Code that may throw. *)
Definition M (A : Type) : Type := proc (result A).

Definition ret {A} (a : A) : M A := Ret (Ok a).
Definition throw {A} (e : exn) : M A := Ret (Throw e).

Definition bind {A B} (m : M A) (f : A -> M B) : M B :=
  pbind m (fun r => match r with Ok a => f a | Throw e => Ret (Throw e) end).

(** [try { m } catch (error) { handler error }] *)
Definition try_catch {A} (m : M A) (handler : exn -> M A) : M A :=
  pbind m (fun r => match r with Ok a => Ret (Ok a) | Throw e => handler e end).

(** A call that cannot throw. *)
Definition perform {X} (c : call X) : M X := Vis c (fun x => Ret (Ok x)).

(** [await] of a call that may throw or reject. *)
Definition await {X} (c : call (outcome X)) : M X :=
  Vis c (fun a => match a with
                  | Returned x => Ret (Ok x)
                  | Threw v => Ret (Throw (FromCallee v))
                  end).

(** [m.catch(() => {})] *)
Definition catch_ignore (m : M unit) : M unit := try_catch m (fun _ => ret tt).

Declare Scope proc_scope.
Delimit Scope proc_scope with proc.
Notation "x <- m ;; k" := (bind m (fun x => k))
  (at level 61, m at next level, right associativity) : proc_scope.
Notation "m ;; k" := (bind m (fun _ => k))
  (at level 61, right associativity) : proc_scope.
Local Open Scope proc_scope.

(** Console lines are given by their wording; the pictographs and blank
    lines that decorate them in the source are left out, and an object
    passed to the console is shown by its message. *)

(** ** Authentication analyzer: [analyzeAuthenticationState]

    [stagehand_extract] is the one structured-extraction request, with the
    fixed instruction and [AuthAnalysisSchema]; it throws when the request
    fails or when the answer does not pass the schema. *)

Definition heuristicSummary (error : exn) : string :=
  if instanceofError error
  then "Heuristic result after extract error: " ++ message_of error
  else "Heuristic result after extract error.".

Definition analyzeAuthenticationState (page : Page) : M AuthAnalysis :=
  perform (context_setActivePage page) ;;
  try_catch
    (result <- await stagehand_extract ;;
     ret result)
    (fun error =>
       url <- perform (page_url page) ;;
       let requiresAuth := RegExp.test_loginKeywords url in
       ret {| requiresAuth := requiresAuth;
              loginButton := None;
              summary := Some (heuristicSummary error);
              canAutofill := None;
              recommendedStrategy := None;
              auth_steps := None;
              blockers := None;
              mfa := None |}).

(** ** Helpers: [authentication/helpers.ts] *)

Definition waitForUserInput : M string := perform stdin_once_data.

Definition getDebugUrl : M string :=
  sessionId <- perform stagehand_browserbaseSessionId ;;
  match sessionId with
  | Some id =>
      if (id =? "")%string then throw (Error "No active Browserbase session")
      else ret ("https://browserbase.com/sessions/" ++ id)
  | None => throw (Error "No active Browserbase session")
  end.

(** [sessionId] is what the caller read from the session property, and is
    passed on as it is. *)
Definition openDebuggerUrl (sessionId : option string) : M unit :=
  perform (process_env "BROWSERBASE_API_KEY") ;;
  debuggerFullscreenUrl <-
    await (sessions_debug (match sessionId with Some id => id | None => "undefined" end)) ;;
  platform <- perform process_platform ;;
  let command :=
    if (platform =? "win32")%string then "start"
    else if (platform =? "darwin")%string then "open"
    else "xdg-open" in
  perform (child_process_exec (command ++ " " ++ debuggerFullscreenUrl)).

(** ** Authentication orchestrator: [authenticateToWebsite] *)

Definition AuthenticationIncomplete : exn :=
  Error "Authentication still required after manual verification. Please sign in and re-run the command.".

(** [if (analysis.loginButton) { ... }]: the click on the login control,
    and the analysis that the code goes on with. *)
Definition clickLoginButton (activePage : Page) (analysis : AuthAnalysis)
    : M AuthAnalysis :=
  match loginButton analysis with
  | Some button =>
      if (button =? "")%string then ret analysis
      else
        perform (console_log ("Clicking login button: " ++ dquote ++ button ++ dquote)) ;;
        try_catch
          (await (stagehand_act button) ;;
           catch_ignore (await (page_waitForLoadState activePage 5000%N)) ;;
           (* Re-analyze after clicking the button *)
           analyzeAuthenticationState activePage)
          (fun error =>
             perform (console_log ("Failed to click login button: " ++ message_of error)) ;;
             ret analysis)
  | None => ret analysis
  end.

(** [if (credentials && analysis.canAutofill) { ... }]: [true] when the
    function returns from inside the block. *)
Definition attemptAutofill (activePage : Page) (credentials : option Credentials)
    (analysis : AuthAnalysis) : M bool :=
  match credentials, canAutofill analysis with
  | Some c, Some true =>
      perform (console_log "Attempting automatic login with 1Password credentials...") ;;
      try_catch
        (await (stagehand_act
                  ("Type " ++ dquote ++ username c ++ dquote ++ " into the username or email field")) ;;
         await (stagehand_act
                  ("Type " ++ dquote ++ password c ++ dquote ++ " into the password field")) ;;
         await (stagehand_act "Click the login or sign in button") ;;
         catch_ignore (await (page_waitForLoadState activePage 10000%N)) ;;
         analysis <- analyzeAuthenticationState activePage ;;
         if negb (requiresAuth analysis) then
           perform (console_log "Automatic login successful!") ;;
           ret true
         else
           perform (console_log
             "Automatic login may have failed, falling back to manual authentication") ;;
           ret false)
        (fun error =>
           perform (console_log ("Automatic login failed: " ++ message_of error)) ;;
           perform (console_log "Falling back to manual authentication...") ;;
           ret false)
  | _, _ => ret false
  end.

(** What follows the operator's line. *)
Definition afterUserInput (activePage : Page) (url userInput : string) : M unit :=
  if (trim (toLowerCase userInput) =? "skip")%string then
    perform (console_log "Skipping authentication, returning to original page...") ;;
    await (page_goto activePage url)
  else
    analysis <- analyzeAuthenticationState activePage ;;
    if requiresAuth analysis then throw AuthenticationIncomplete
    else perform (console_log "Authentication confirmed.").

(** The manual step, from the announcement of the session viewer on. *)
Definition manualLogin (activePage : Page) (url : string) : M unit :=
  perform (console_log "Opening browser session for authentication...") ;;
  debugUrl <- getDebugUrl ;;
  perform (console_log ("Debug URL: " ++ debugUrl)) ;;
  perform (console_log
    "Please log in to the website in the browser window that just opened.") ;;
  sessionId <- perform stagehand_browserbaseSessionId ;;
  openDebuggerUrl sessionId ;;
  perform (console_log
    "Once you're logged in, press Enter to continue (or type 'skip' to skip authentication)...") ;;
  userInput <- waitForUserInput ;;
  afterUserInput activePage url userInput.

(** The paths after the click on the login control: automatic login,
    then the manual step. *)
Definition fallbackPaths (activePage : Page) (url : string)
    (credentials : option Credentials) (analysis : AuthAnalysis) : M unit :=
  returned <- attemptAutofill activePage credentials analysis ;;
  if returned : bool then ret tt else manualLogin activePage url.

(** What follows an initial analysis that asks for a login. *)
Definition login (activePage : Page) (url domain : string) (analysis : AuthAnalysis)
    : M unit :=
  perform (logAuthenticationAnalysis analysis domain) ;;
  credentials <- perform (lookupCredentialsIn1Password domain) ;;
  perform (console_log_credentials credentials) ;;
  analysis <- clickLoginButton activePage analysis ;;
  fallbackPaths activePage url credentials analysis.

Definition authenticateToWebsite (url domain : string) : M unit :=
  activePage <-
    try_catch (await (context_awaitActivePage 10000%N))
      (fun _ => throw (Error "Unable to locate an active browser page for authentication.")) ;;
  await (page_goto activePage url) ;;
  analysis <- analyzeAuthenticationState activePage ;;
  if negb (requiresAuth analysis) then
    perform (console_log "No authentication required.")
  else
    login activePage url domain analysis.

(** ** Action discoverer: [discoverActions] *)

(** The cleanup of the agent's message before [JSON.parse]. *)
Definition cleanResponse (responseMessage : string) : string :=
  let jsonString := trim responseMessage in
  let jsonString :=
    RegExp.replace_fence_open (RegExp.replace_fence_json jsonString) in
  let jsonString := RegExp.replace_fence_close jsonString in
  trim jsonString.

Definition string_of_nat (n : nat) : string :=
  NilEmpty.string_of_uint (Nat.to_uint n).

Section Discoverer.

(** The text of the [message] of the errors that [JSON.parse] and zod
    throw: a [SyntaxError] for a text, a [ZodError] for its issues. *)
Variable syntaxErrorMessage : string -> string.
Variable zodErrorMessage : list Issue -> string.

(** [JSON.parse] and then [DiscoveredActionsResponseSchema.parse]. *)
Definition parseAndValidate (jsonString : string) : M (list DiscoveredAction) :=
  match JSON_parse jsonString with
  | None => throw (FromCallee (ErrorObject (syntaxErrorMessage jsonString)))
  | Some parsed =>
      match parse DiscoveredActionsResponseSchema parsed with
      | Invalid issues => throw (FromCallee (ErrorObject (zodErrorMessage issues)))
      | Valid actions => ret actions
      end
  end.

(** [validated.actions.forEach((action, i) => console.log(...))] *)
Fixpoint logActions (i : nat) (actions : list DiscoveredAction) : M unit :=
  match actions with
  | [] => ret tt
  | action :: rest =>
      perform (console_log ("  " ++ string_of_nat (i + 1) ++ ". " ++ name action
                            ++ " - " ++ description action)) ;;
      logActions (S i) rest
  end.

(** The part of the [try] block that follows the agent's answer. *)
Definition handleResult (result : AgentResult) : M (list DiscoveredAction) :=
  match result with
  | NotAnObject => throw (Error "Agent execution returned invalid result")
  | ResultObject None =>
      throw (Error "Agent execution returned result without message property")
  | ResultObject (Some responseMessage) =>
      if (responseMessage =? "")%string then
        throw (Error "Agent execution returned result without message property")
      else
        perform (console_log ("Raw agent response: " ++ responseMessage)) ;;
        actions <- parseAndValidate (cleanResponse responseMessage) ;;
        perform (console_log ("Successfully discovered "
                              ++ string_of_nat (List.length actions) ++ " actions:")) ;;
        logActions 0 actions ;;
        ret actions
  end.

(** [process.env.GEMINI_API_KEY ?? process.env.GOOGLE_GENERATIVE_AI_API_KEY] *)
Definition geminiApiKey : M (option string) :=
  key <- perform (process_env "GEMINI_API_KEY") ;;
  match key with
  | Some _ => ret key
  | None => perform (process_env "GOOGLE_GENERATIVE_AI_API_KEY")
  end.

Definition discoverActions (domain : string) : M (list DiscoveredAction) :=
  perform (console_log ("Discovering actions on " ++ domain ++ "...")) ;;
  try_catch
    (perform (console_log "Initializing AI agent for website exploration...") ;;
     apiKey <- geminiApiKey ;;
     agent <- await (stagehand_agent "google/gemini-2.5-flash" apiKey) ;;
     perform (console_log "Agent exploring website (this may take a minute)...") ;;
     result <- await (agent_execute agent 20) ;;
     handleResult result)
    (fun error =>
       perform (console_error ("Error during agent execution: " ++ message_of error)) ;;
       (if instanceofError error then
          perform (console_error ("   Error message: " ++ message_of error)) ;;
          perform (console_error "   Stack trace:")
        else ret tt) ;;
       throw (Error ("Failed to discover actions: " ++ message_of error))).

End Discoverer.

(** ** Startup *)

(** Modelled from the spec: the start of a command, which calls
    [getModel] and whose source is not at hand.  The specification has
    the provider configuration read from process-wide configuration at
    startup, and [UnsupportedModelProvider] fatal at configuration time,
    before any browser or session work begins.  So the configuration is
    resolved first, by [getModel] as it is in the source, and the browser
    and session work, [work], which is any code over the calls of the
    pipeline, starts with the model; an error of [getModel] ends the
    command. *)
Definition startup {A : Type} (env : Env) (st : ModelState)
    (work : LanguageModel -> M A) : M A * ModelState :=
  let selected := getModel env st in
  (match fst selected with
   | Ok model => work model
   | Throw e => throw e
   end, snd selected).

(** ** The command line, the session manager and the generated server

    These parts of the repository have other collaborators than the
    generation pipeline above: the operating system, the commands behind
    the command line, the session API and the browser as the generated
    server uses it.  Their code is embedded over its own calls. *)

Module Node.

(** Handles to objects that live outside: a [Stagehand] instance, and a
    candidate action as [observe] returns it. *)
Inductive Stagehand : Type := stagehand_handle (id : nat).
Inductive Action : Type := action_handle (id : nat).

(** The argument of [new Stagehand(...)], without its constant fields
    ([env], [proxies], [region]).  [context] is the identifier under
    [browserSettings.context], which is persisted. *)
Record StagehandConfig : Type :=
  { verbose : option nat;
    projectId : option string;
    context : option string;
    cacheDir : option string;
    modelName : string;
    apiKey : option string }.

(** The calls, each with the type of its answer.  As before, a call
    answering an [outcome] may throw or reject and the others are taken
    not to.  [process_exit] ends the process: the code goes no further.
    [showVersion], which reads and prints the version of the package,
    and [createNewContext], which asks the session API for a context,
    are taken as calls. *)
Inductive op : Type -> Type :=
| console_log (line : string) : op unit
| console_error (line : string) : op unit
| process_env (var : string) : op (option string)
| process_exit (code : nat) : op unit
| prompts_url : op (outcome (option string))
| createMCPServer (href : string) (skipAuth : bool) : op (outcome unit)
| manageContexts (subcommand domain : option string) : op (outcome unit)
| setupSecrets : op (outcome unit)
| showSecrets : op (outcome unit)
| showVersion : op (outcome unit)
| getOrCreateContext (domain : string) : op (outcome (option string))
| new_Stagehand (config : StagehandConfig) : op (outcome Stagehand)
| stagehand_init (s : Stagehand) : op (outcome unit)
| fs_readFile_context (domain : string) : op (outcome string)
| createNewContext : op (outcome (option string))
| stagehand_observe (instruction : string) : op (outcome (option (list Action)))
| stagehand_act (a : Action) : op (outcome unit).

(** One call of a run together with its answer. *)
Inductive event : Type :=
| e_console_log (line : string)
| e_console_error (line : string)
| e_process_env (var : string) (value : option string)
| e_process_exit (code : nat)
| e_prompts_url (r : outcome (option string))
| e_createMCPServer (href : string) (skipAuth : bool) (r : outcome unit)
| e_manageContexts (subcommand domain : option string) (r : outcome unit)
| e_setupSecrets (r : outcome unit)
| e_showSecrets (r : outcome unit)
| e_showVersion (r : outcome unit)
| e_getOrCreateContext (domain : string) (r : outcome (option string))
| e_new_Stagehand (config : StagehandConfig) (r : outcome Stagehand)
| e_stagehand_init (s : Stagehand) (r : outcome unit)
| e_fs_readFile_context (domain : string) (r : outcome string)
| e_createNewContext (r : outcome (option string))
| e_stagehand_observe (instruction : string) (r : outcome (option (list Action)))
| e_stagehand_act (a : Action) (r : outcome unit).

Definition note {X} (c : op X) : X -> event :=
  match c in op X return X -> event with
  | console_log l => fun _ => e_console_log l
  | console_error l => fun _ => e_console_error l
  | process_env v => fun x => e_process_env v x
  | process_exit n => fun _ => e_process_exit n
  | prompts_url => fun x => e_prompts_url x
  | createMCPServer h s => fun x => e_createMCPServer h s x
  | manageContexts s d => fun x => e_manageContexts s d x
  | setupSecrets => fun x => e_setupSecrets x
  | showSecrets => fun x => e_showSecrets x
  | showVersion => fun x => e_showVersion x
  | getOrCreateContext d => fun x => e_getOrCreateContext d x
  | new_Stagehand c => fun x => e_new_Stagehand c x
  | stagehand_init s => fun x => e_stagehand_init s x
  | fs_readFile_context d => fun x => e_fs_readFile_context d x
  | createNewContext => fun x => e_createNewContext x
  | stagehand_observe i => fun x => e_stagehand_observe i x
  | stagehand_act a => fun x => e_stagehand_act a x
  end.

(** Code that makes calls. *)
Inductive prog (R : Type) : Type :=
| Done (r : R)
| Call (X : Type) (c : op X) (k : X -> prog R).
Arguments Done {R} r.
Arguments Call {R X} c k.

Fixpoint andThen {A B} (p : prog A) (f : A -> prog B) : prog B :=
  match p with
  | Done a => f a
  | Call c k => Call c (fun x => andThen (k x) f)
  end.

(** [t] is a run of [p] that finishes with [r]: the calls that [p] makes,
    in order, each with an answer of its type. *)
Fixpoint made {R} (p : prog R) (t : list event) (r : R) : Prop :=
  match p with
  | Done a => t = [] /\ r = a
  | Call c k => exists x t', t = note c x :: t' /\ made (k x) t' r
  end.

(** Running [p] in a world that answers the [n]-th call by [world n]. *)
Fixpoint play {R} (world : nat -> forall X, op X -> X) (n : nat) (p : prog R)
    : list event * R :=
  match p with
  | Done a => ([], a)
  | Call c k =>
      let x := world n _ c in
      let (t, r) := play world (S n) (k x) in
      (note c x :: t, r)
  end.

(** How a piece of code ends: normally, by a [throw], or with the
    process. *)
Inductive completion (A : Type) : Type :=
| Normal (a : A)
| Thrown (e : exn)
| Exited (code : nat).
Arguments Normal {A} a.
Arguments Thrown {A} e.
Arguments Exited {A} code.

(** Code that may throw or end the process, over the variables of its
    module, of type [S]. *)
Definition M (S A : Type) : Type := S -> prog (completion A * S).

Definition ret {S A} (a : A) : M S A := fun s => Done (Normal a, s).
Definition throw {S A} (e : exn) : M S A := fun s => Done (Thrown e, s).

Definition bind {S A B} (m : M S A) (f : A -> M S B) : M S B :=
  fun s =>
    andThen (m s)
      (fun r => match fst r with
                | Normal a => f a (snd r)
                | Thrown e => Done (Thrown e, snd r)
                | Exited n => Done (Exited n, snd r)
                end).

(** [try { m } catch (error) { handler error }] *)
Definition try_catch {S A} (m : M S A) (handler : exn -> M S A) : M S A :=
  fun s =>
    andThen (m s)
      (fun r => match fst r with
                | Thrown e => handler e (snd r)
                | c => Done (c, snd r)
                end).

Definition perform {S X} (c : op X) : M S X := fun s => Call c (fun x => Done (Normal x, s)).

Definition await {S X} (c : op (outcome X)) : M S X :=
  fun s =>
    Call c (fun a => match a with
                     | Returned x => Done (Normal x, s)
                     | Threw v => Done (Thrown (FromCallee v), s)
                     end).

(** [process.exit(code)] *)
Definition exit {S A} (code : nat) : M S A :=
  fun s => Call (process_exit code) (fun _ => Done (Exited code, s)).

(** Reading and writing the variables of the module. *)
Definition get {S} : M S S := fun s => Done (Normal s, s).
Definition put {S} (s' : S) : M S unit := fun _ => Done (Normal tt, s').

(** A function that may throw, called from code. *)
Definition lift {S A} (r : result A) : M S A :=
  match r with
  | Ok a => ret a
  | Throw e => throw e
  end.

(** [!x] is false: the string is there and is not empty. *)
Definition truthy (x : option string) : bool :=
  match x with
  | Some s => negb (s =? "")%string
  | None => false
  end.

Declare Scope node_scope.
Delimit Scope node_scope with node.
Notation "x <- m ;; k" := (bind m (fun x => k))
  (at level 61, m at next level, right associativity) : node_scope.
Notation "m ;; k" := (bind m (fun _ => k))
  (at level 61, right associativity) : node_scope.

End Node.

(** *** Session manager: [getStagehandInstance] *)

Module SessionManager.
Import Node.
Local Open Scope node_scope.

(** [options?.persistContext ?? true] *)
Definition persistContextOf (options : option (option bool)) : bool :=
  match options with
  | Some (Some b) => b
  | _ => true
  end.

(** The module variable is [stagehandInstance]. *)
Definition getStagehandInstance (domain modelApiKey modelName : string)
    (options : option (option bool)) : M (option Stagehand) Stagehand :=
  stagehandInstance <- get ;;
  match stagehandInstance with
  | Some instance => ret instance
  | None =>
      (if (modelApiKey =? "")%string
       then throw (Error "Missing API key. Set an API key in your environment.")
       else ret tt) ;;
      (if (modelName =? "")%string
       then throw (Error "Missing model name. Set a model name in your environment.")
       else ret tt) ;;
      browserbaseProjectId <- perform (process_env "BROWSERBASE_PROJECT_ID") ;;
      (if truthy browserbaseProjectId then ret tt
       else throw (Error "Missing BROWSERBASE_PROJECT_ID in environment variables")) ;;
      let persistContext := persistContextOf options in
      contextId <- (if persistContext then await (getOrCreateContext domain)
                    else ret None) ;;
      instance <- await (new_Stagehand
                           {| verbose := None;
                              projectId := browserbaseProjectId;
                              context := if truthy contextId then contextId else None;
                              cacheDir := Some ("mcp-stagehand-" ++ domain);
                              Node.modelName := modelName;
                              apiKey := Some modelApiKey |}) ;;
      put (Some instance) ;;
      await (stagehand_init instance) ;;
      ret instance
  end.

End SessionManager.

(** *** Command line: [cli.ts] *)

Module Cli.
Import Node.
Local Open Scope node_scope.

Fixpoint joinLines (lines : list string) : string :=
  match lines with
  | [] => ""
  | [l] => l
  | l :: rest => l ++ String (ascii_of_nat 10) (joinLines rest)
  end.

(** The text of [showHelp], line by line; the descriptions are those of
    [COMMANDS]. *)
Definition helpLines : list string :=
  ["";
   "mcpkit - Easy setup for MCPs with Browserbase";
   "";
   "Usage:";
   "  mcpkit [command] [options]";
   "";
   "Commands:";
   "  secrets                    Set up API keys (Browserbase, Gemini)";
   "  create [url]               Create an MCP server by analyzing a website";
   "                             URL formats: https://example.com, www.example.com, or example.com";
   "  contexts [subcommand]      Manage saved browser contexts (list, delete, show)";
   "                             Accepts domain or URL in any format";
   "  help                       Show this help message";
   "  version                    Show version information";
   "";
   "Examples:";
   "  mcpkit create https://example.com";
   "  mcpkit create www.example.com";
   "  mcpkit create example.com";
   "  mcpkit contexts create example.com";
   "  mcpkit contexts delete https://example.com";
   "";
   "For more information, visit: https://github.com/kevoconnell/mcpkit";
   ""].

Definition showHelp : M unit unit := perform (console_log (joinLines helpLines)).

Section Commands.

Variable URL : Type.
Variable new_URL : string -> option URL.
Variable href : URL -> string.

(** The prompt has the validator [isValidUrlInput]; [prompts_url] answers
    the [url] of the response, which is missing when the operator
    cancels. *)
Definition runCreate (url : option string) (skipAuth : bool) : M unit unit :=
  perform (console_log "MCP Server Generator") ;;
  url <-
    (if negb (truthy url) then
       response_url <- await prompts_url ;;
       (if negb (truthy response_url) then
          perform (console_log "URL is required") ;;
          exit 1
        else ret tt) ;;
       ret response_url
     else ret url) ;;
  (if negb (truthy url) then
     perform (console_log "URL is required") ;;
     exit 1
   else ret tt) ;;
  normalizedUrl <- lift (normalizeUrl new_URL (match url with Some u => u | None => "" end)) ;;
  await (createMCPServer (href normalizedUrl) skipAuth).

(** [x === s] for an argument [x] that may be missing. *)
Definition strictEquals (x : option string) (s : string) : bool :=
  match x with
  | Some x => (x =? s)%string
  | None => false
  end.

(** [args[0]?.toLowerCase() || "help"] *)
Definition commandOf (args : list string) : string :=
  match args with
  | a :: _ => if (toLowerCase a =? "")%string then "help" else toLowerCase a
  | [] => "help"
  end.

(** The [switch] of [main]. *)
Definition dispatch (command : string) (args : list string) : M unit unit :=
  if (command =? "secrets")%string then
    let secretsSubcommand := nth_error args 1 in
    if strictEquals secretsSubcommand "show" then await showSecrets
    else await setupSecrets
  else if (command =? "create")%string then
    let url := nth_error args 1 in
    let skipAuth := existsb (String.eqb "--skip-auth") args in
    runCreate url skipAuth
  else if (command =? "contexts")%string then
    let subcommand := nth_error args 1 in
    let domain := nth_error args 2 in
    await (manageContexts subcommand domain)
  else if (command =? "help")%string then showHelp
  else if (command =? "version")%string then await showVersion
  else
    perform (console_error ("Unknown command: " ++ command)) ;;
    perform (console_log ("Run " ++ dquote ++ "mcpkit help" ++ dquote
                          ++ " for usage information.")) ;;
    exit 1.

(** [main()], with [args] for [process.argv.slice(2)]. *)
Definition main (args : list string) : M unit unit :=
  try_catch
    (let command := commandOf args in
     (if (command =? "--help")%string || (command =? "-h")%string then
        showHelp ;; exit 0
      else ret tt) ;;
     (if (command =? "--version")%string || (command =? "-v")%string then
        await showVersion ;; exit 0
      else ret tt) ;;
     dispatch command args ;;
     exit 0)
    (fun error =>
       perform (console_error ("Error: " ++ message_of error)) ;;
       exit 1).

End Commands.

End Cli.

(** *** Generated server: the browser context and [performAction] *)

Module GeneratedServer.
Import Node.
Local Open Scope node_scope.

(** [getSavedContextId(domain)]; the file is
    [~/.mcpkit/contexts/<domain>.txt]. *)
Definition getSavedContextId {S} (domain : string) : M S (option string) :=
  try_catch
    (contextId <- await (fs_readFile_context domain) ;;
     ret (Some (trim contextId)))
    (fun error => ret None).

(** [`${id}`] for an identifier that may be missing. *)
Definition shown (id : option string) : string :=
  match id with
  | Some s => s
  | None => "undefined"
  end.

(** The two reads of [BROWSERBASE_CONTEXT_ID], in the condition and in
    the [return] that follows it, are one call. *)
Definition getOrCreateContextId {S} (domain : string) : M S (option string) :=
  fromEnv <- perform (process_env "BROWSERBASE_CONTEXT_ID") ;;
  if truthy fromEnv then ret fromEnv
  else
    savedContextId <- getSavedContextId domain ;;
    if truthy savedContextId then
      perform (console_error ("Using saved context from mcpkit: " ++ shown savedContextId)) ;;
      ret savedContextId
    else
      try_catch
        (newContextId <- await createNewContext ;;
         perform (console_error ("Created new browser context: " ++ shown newContextId)) ;;
         perform (console_error "Add this to your .env file to reuse this session:") ;;
         perform (console_error ("   BROWSERBASE_CONTEXT_ID=" ++ shown newContextId)) ;;
         ret newContextId)
        (fun error =>
           perform (console_error ("Failed to create browser context: " ++ message_of error)) ;;
           perform (console_error "   Continuing without persistent context.") ;;
           ret None).

Definition performAction {S} (instruction : string) : M S unit :=
  actions <- await (stagehand_observe instruction) ;;
  match actions with
  | Some (first :: _) => await (stagehand_act first)
  | _ =>
      throw (Error ("Could not find element for action: "
                    ++ dquote ++ instruction ++ dquote))
  end.

End GeneratedServer.


(** * Vocabulary of the statements *)

Unset Implicit Arguments.

(** A string that starts with one of the two schemes that [normalizeUrl]
    looks for. *)
Definition hasHttpScheme (s : string) : bool :=
  startsWith s "http://" || startsWith s "https://".

(** The prefixes that [getModel] knows, each with its factory. *)
Definition recognizedPrefixes : list (string * ProviderFactory) :=
  [("openai/", createOpenAI); ("anthropic/", createAnthropic);
   ("google/", createGoogleGenerativeAI); ("xai/", createXai)].

(** The model that the factory [f] builds for the provider string of
    [env], named by what follows the prefix [pre]. *)
Definition modelFor (pre : string) (f : ProviderFactory) (env : Env) : LanguageModel :=
  {| factory := f;
     apiKey := MODEL_API_KEY env;
     modelName := slice (String.length pre) (MODEL_PROVIDER env) |}.

(** The module state when the process starts, and after [n] calls of
    [getModel] in a process whose [loadEnv()] returns [env]. *)
Definition freshModelState : ModelState := {| cachedModel := None; stderr := [] |}.

Fixpoint afterCalls (env : Env) (n : nat) : ModelState :=
  match n with
  | O => freshModelState
  | S k => snd (getModel env (afterCalls env k))
  end.

Definition newline : string := String (ascii_of_nat 10) EmptyString.

(** The payload [s] between an opening fence with the language tag [tag]
    and a closing fence, each on a line of its own. *)
Definition fenced (tag s : string) : string :=
  "```" ++ tag ++ newline ++ s ++ newline ++ "```".

(** The tag [json], in any letter case. *)
Definition isJsonTag (tag : string) : bool :=
  (String.length tag =? 4)%nat && RegExp.startsWithIgnoreCase tag "json".

Definition isBacktick (c : ascii) : bool := Ascii.eqb c "`".

Fixpoint lastChar (s : string) : option ascii :=
  match s with
  | EmptyString => None
  | String c EmptyString => Some c
  | String _ r => lastChar r
  end.

(** What the cleanup needs of a payload: some text is left when the white
    space around it is removed, and that text neither starts nor ends with
    a backtick.  Every JSON text is such ([JSON_parse_payloadLike]). *)
Definition payloadLike (s : string) : bool :=
  match trim s with
  | EmptyString => false
  | String c r =>
      negb (isBacktick c)
      && match lastChar (String c r) with
         | Some d => negb (isBacktick d)
         | None => false
         end
  end.

(** Neither white space nor a backtick. *)
Definition solid (c : ascii) : bool := negb (isWhiteSpace c) && negb (isBacktick c).

Fixpoint any (f : ascii -> bool) (s : string) : bool :=
  match s with
  | String c r => f c || any f r
  | EmptyString => false
  end.

(** The text [b] ends with a solid character, unless it is empty. *)
Definition endsSolid (b : string) : Prop :=
  match lastChar b with
  | Some d => solid d = true
  | None => True
  end.

(** Reading [s] up to [rest] takes at least one character, and the last
    one taken is solid. *)
Definition eats (s rest : string) : Prop :=
  exists body d, s = body ++ rest /\ lastChar body = Some d /\ solid d = true.

Definition eats0 (s rest : string) : Prop := s = rest \/ eats s rest.

(** The agent's answer of the specification's example: an empty catalog. *)
Definition emptyCatalogText : string :=
  "{" ++ dquote ++ "actions" ++ dquote ++ ":[]}".

(** The validation fails and reports the issue [i]. *)
Definition failsWith {T : Type} (r : ParseReturn T) (i : Issue) : Prop :=
  exists issues, r = Invalid issues /\ In i issues.

(** An action object without [description]. *)
Definition missingDescription (action : JSON) : Prop :=
  exists ps, action = JObject ps /\ Zod.get "description" ps = None.

Definition descriptionRequired (path : list PathElement) : Issue :=
  {| code := invalid_type "string" t_undefined;
     path := (path ++ [Key "description"])%list |}.

(** What [await] makes of an answer. *)
Definition settle {X : Type} (a : outcome X) : result X :=
  match a with
  | Returned x => Ok x
  | Threw v => Throw (FromCallee v)
  end.

(** No call of [p] is observed as a [P]. *)
Fixpoint avoids (P : obs -> Prop) {R : Type} (p : proc R) : Prop :=
  match p with
  | Ret _ => True
  | Vis c k => forall x, ~ P (observe c x) /\ avoids P (k x)
  end.

(** The analysis that the heuristic builds from the error of the
    extraction and the address of the page. *)
Definition heuristicAnalysis (error : exn) (url : string) : AuthAnalysis :=
  {| requiresAuth := RegExp.test_loginKeywords url;
     loginButton := None;
     summary := Some (heuristicSummary error);
     canAutofill := None;
     recommendedStrategy := None;
     auth_steps := None;
     blockers := None;
     mfa := None |}.

Definition asciiLower (c : ascii) : ascii :=
  let n := nat_of_ascii c in
  if (65 <=? n)%nat && (n <=? 90)%nat then ascii_of_nat (n + 32) else c.

(** [s] with its letters A-Z in lower case. *)
Fixpoint asciiLowerCase (s : string) : string :=
  match s with
  | String c r => String (asciiLower c) (asciiLowerCase r)
  | EmptyString => EmptyString
  end.

(** Somewhere in [url] stands one of the login keywords, in any mix of
    upper and lower case. *)
Definition matchesLoginPattern (url : string) : Prop :=
  exists pre mid post k,
    In k RegExp.loginKeywords /\ url = pre ++ mid ++ post /\ asciiLowerCase mid = k.

(** Under the [i] flag the pattern character [a] matches exactly the
    characters whose lower case is [a]. *)
Definition plainPatternChar (a : ascii) : Prop :=
  forall c,
    Ascii.eqb (RegExp.canonicalize a) (RegExp.canonicalize c)
    = Ascii.eqb (asciiLower c) a.

Fixpoint allChars (P : ascii -> Prop) (s : string) : Prop :=
  match s with
  | String c r => P c /\ allChars P r
  | EmptyString => True
  end.

(** The line is [skip] in any mix of upper and lower case, with any white
    space around it. *)
Definition isSkipInput (userInput : string) : Prop :=
  exists w1 mid w2,
    userInput = w1 ++ mid ++ w2
    /\ all isWhiteSpace w1 = true /\ all isWhiteSpace w2 = true
    /\ asciiLowerCase mid = "skip".

Definition isAsciiChar (c : ascii) : bool := (nat_of_ascii c <? 128)%nat.

(** The observation is a line read from the operator. *)
Definition isOperatorInput (o : obs) : Prop := exists x, o = o_stdin_once_data x.

Definition isCredentialLookup (o : obs) : bool :=
  match o with
  | o_lookupCredentialsIn1Password _ _ => true
  | _ => false
  end.

(** The calls of the manual step: the session identifier and viewer, the
    command that opens it, the line read from the operator. *)
Definition isManualFallback (o : obs) : bool :=
  match o with
  | o_stdin_once_data _ | o_sessions_debug _ _
  | o_stagehand_browserbaseSessionId _ | o_child_process_exec _
  | o_process_platform _ => true
  | _ => false
  end.

(** The observation is the agent's answer to [agent.execute]. *)
Definition isExecution (o : obs) : Prop := exists a n r, o = o_agent_execute a n r.

Definition samplePage : Page := page_handle 0.
Definition sampleUrl : string := "https://example.com/".
Definition sampleDomain : string := "example.com".
Definition sampleButton : string := "Click the Sign In button".

(** An analysis that asks for a login and names the control to click. *)
Definition needsLogin : AuthAnalysis :=
  {| requiresAuth := true;
     loginButton := Some sampleButton;
     summary := None;
     canAutofill := Some false;
     recommendedStrategy := Some manual;
     auth_steps := None;
     blockers := None;
     mfa := None |}.

(** An analysis that asks for nothing. *)
Definition loggedIn : AuthAnalysis :=
  {| requiresAuth := false;
     loginButton := None;
     summary := None;
     canAutofill := None;
     recommendedStrategy := None;
     auth_steps := None;
     blockers := None;
     mfa := None |}.

(** The first analysis of a page that asks for a login. *)
Definition sampleFirstRun : list obs :=
  [o_context_setActivePage samplePage; o_stagehand_extract (Returned needsLogin)].

(** The click on the login control fails. *)
Definition sampleFailedClick : obs :=
  o_stagehand_act sampleButton (Threw (ErrorObject "element not found")).

(** From the failed click to the question to the operator: no credentials
    are stored, so the manual step follows at once. *)
Definition sampleManualStep : list obs :=
  [o_console_log "Failed to click login button: element not found";
   o_console_log "Opening browser session for authentication...";
   o_stagehand_browserbaseSessionId (Some "s1");
   o_console_log "Debug URL: https://browserbase.com/sessions/s1";
   o_console_log "Please log in to the website in the browser window that just opened.";
   o_stagehand_browserbaseSessionId (Some "s1");
   o_process_env "BROWSERBASE_API_KEY" (Some "key");
   o_sessions_debug "s1" (Returned "https://viewer.example/s1");
   o_process_platform "linux";
   o_child_process_exec "xdg-open https://viewer.example/s1";
   o_console_log
     "Once you're logged in, press Enter to continue (or type 'skip' to skip authentication)..."].

Definition sampleBeforeClick : list obs :=
  [o_logAuthenticationAnalysis needsLogin sampleDomain;
   o_lookupCredentialsIn1Password sampleDomain None;
   o_console_log_credentials None;
   o_console_log ("Clicking login button: " ++ dquote ++ sampleButton ++ dquote)].

Definition sampleOpening : list obs :=
  [o_context_awaitActivePage 10000 (Returned samplePage);
   o_page_goto samplePage sampleUrl (Returned tt)].

(** Everything up to the operator's line. *)
Definition sampleBeforeInput : list obs :=
  (sampleOpening ++ sampleFirstRun ++ sampleBeforeClick
   ++ sampleFailedClick :: sampleManualStep)%list.

Definition sampleSkipLine : string := "  SKIP" ++ newline.

Definition sampleAfterSkip : list obs :=
  [o_console_log "Skipping authentication, returning to original page...";
   o_page_goto samplePage sampleUrl (Returned tt)].

Definition sampleAfterEnter : list obs :=
  [o_context_setActivePage samplePage; o_stagehand_extract (Returned loggedIn);
   o_console_log "Authentication confirmed."].

Definition isExtraction (o : obs) : bool :=
  match o with
  | o_stagehand_extract _ => true
  | _ => false
  end.

(** [s] between double quotes. *)
Definition quoted (s : string) : string := dquote ++ s ++ dquote.

(** A response with one action that conforms and one without
    [description]. *)
Definition sampleResponse : string :=
  "{" ++ quoted "actions" ++ ":["
  ++ "{" ++ quoted "name" ++ ":" ++ quoted "search_site" ++ ","
  ++ quoted "description" ++ ":" ++ quoted "Search the site" ++ ","
  ++ quoted "steps" ++ ":[" ++ quoted "Type {query} into the search field" ++ "]},"
  ++ "{" ++ quoted "name" ++ ":" ++ quoted "open_item" ++ ","
  ++ quoted "steps" ++ ":[]}"
  ++ "]}".

Definition conformingAction : JSON :=
  JObject [("name", JString "search_site");
           ("description", JString "Search the site");
           ("steps", JArray [JString "Type {query} into the search field"])].

Definition actionWithoutDescription : JSON :=
  JObject [("name", JString "open_item"); ("steps", JArray [])].

Definition sampleCatalog : list (string * JSON) :=
  [("actions", JArray [conformingAction; actionWithoutDescription])].

Definition sampleDiscoveryRun : list obs :=
  [o_console_log "Discovering actions on example.com...";
   o_console_log "Initializing AI agent for website exploration...";
   o_process_env "GEMINI_API_KEY" (Some "key");
   o_stagehand_agent "google/gemini-2.5-flash" (Some "key") (Returned (agent_handle 0));
   o_console_log "Agent exploring website (this may take a minute)...";
   o_agent_execute (agent_handle 0) 20 (Returned (ResultObject (Some sampleResponse)));
   o_console_log ("Raw agent response: " ++ sampleResponse);
   o_console_error "Error during agent execution: ZodError";
   o_console_error "   Error message: ZodError";
   o_console_error "   Stack trace:"].

(** ** Vocabulary of the further properties *)

(** The error that [discoverActions] throws for the failure [e]. *)
Definition DiscoveryFailed (e : exn) : exn :=
  Error ("Failed to discover actions: " ++ message_of e).

(** What the [catch] block of [discoverActions] writes for [e]. *)
Definition failureReport (e : exn) : list obs :=
  o_console_error ("Error during agent execution: " ++ message_of e)
  :: (if instanceofError e
      then [o_console_error ("   Error message: " ++ message_of e);
            o_console_error "   Stack trace:"]
      else []).

(** The reads of the environment that give the agent its key: [gemini] is
    what [GEMINI_API_KEY] holds and [google] what
    [GOOGLE_GENERATIVE_AI_API_KEY] holds, read only when the first is
    not set. *)
Definition keyReads (gemini google : option string) : list obs :=
  o_process_env "GEMINI_API_KEY" gemini
  :: match gemini with
     | Some _ => []
     | None => [o_process_env "GOOGLE_GENERATIVE_AI_API_KEY" google]
     end.

Definition keyRead (gemini google : option string) : option string :=
  match gemini with
  | Some _ => gemini
  | None => google
  end.

(** The start of every run of [discoverActions], up to the creation of
    the agent. *)
Definition discoveryOpening (domain : string) (gemini google : option string)
    (created : outcome Agent) : list obs :=
  (o_console_log ("Discovering actions on " ++ domain ++ "...")
   :: o_console_log "Initializing AI agent for website exploration..."
   :: keyReads gemini google
   ++ [o_stagehand_agent "google/gemini-2.5-flash" (keyRead gemini google) created])%list.

(** The request to the agent and its answer. *)
Definition discoveryRequest (agent : Agent) (executed : outcome AgentResult) : list obs :=
  [o_console_log "Agent exploring website (this may take a minute)...";
   o_agent_execute agent 20 executed].

(** The lines that list the catalog, numbered from [i + 1]. *)
Fixpoint actionLines (i : nat) (actions : list DiscoveredAction) : list obs :=
  match actions with
  | [] => []
  | action :: rest =>
      o_console_log ("  " ++ string_of_nat (i + 1) ++ ". " ++ name action
                     ++ " - " ++ description action)
      :: actionLines (S i) rest
  end.

(** What the success of [discoverActions] writes for the message
    [responseMessage] and the catalog [actions]. *)
Definition successReport (responseMessage : string) (actions : list DiscoveredAction)
    : list obs :=
  o_console_log ("Raw agent response: " ++ responseMessage)
  :: o_console_log ("Successfully discovered "
                    ++ string_of_nat (List.length actions) ++ " actions:")
  :: actionLines 0 actions.

(** A character that a JSON value can start with: an opening brace or
    bracket, a double quote, a minus sign, a digit, or the first letter of
    [true], [false] or [null]. *)
Definition startsJsonValue (c : ascii) : bool :=
  let n := nat_of_ascii c in
  (n =? 123)%nat || (n =? 91)%nat || (n =? 34)%nat || (n =? 45)%nat
  || JSONParse.isDigit c
  || (n =? 116)%nat || (n =? 102)%nat || (n =? 110)%nat.

(** A run of [discoverActions] in which the agent answers with the empty
    catalog inside a fence. *)
Definition sampleEmptyDiscoveryRun : list obs :=
  (discoveryOpening sampleDomain None (Some "key") (Returned (agent_handle 0))
   ++ discoveryRequest (agent_handle 0)
        (Returned (ResultObject (Some (fenced "json" emptyCatalogText))))
   ++ successReport (fenced "json" emptyCatalogText) [])%list.

(** A run in which the agent answers with a sentence before the
    catalog. *)
Definition sampleProse : string := "Here is the catalog: " ++ emptyCatalogText.

Definition sampleProseRun : list obs :=
  (discoveryOpening sampleDomain (Some "") None (Returned (agent_handle 0))
   ++ discoveryRequest (agent_handle 0) (Returned (ResultObject (Some sampleProse)))
   ++ o_console_log ("Raw agent response: " ++ sampleProse)
   :: failureReport (FromCallee (ErrorObject "SyntaxError")))%list.


(** A run in which the agent answers with something that is not an
    object. *)
Definition sampleNoObjectRun : list obs :=
  (discoveryOpening sampleDomain (Some "key") None (Returned (agent_handle 0))
   ++ discoveryRequest (agent_handle 0) (Returned NotAnObject)
   ++ failureReport (Error "Agent execution returned invalid result"))%list.


(** The action [a] is what the JSON value [j] says: [j] is an object whose
    [name], [description] and [steps] are those of [a], whose
    [extractionSchema] is that of [a] when it has one, and which has
    [parameters] exactly when [a] has. *)
Definition describes (j : JSON) (a : DiscoveredAction) : Prop :=
  exists ps,
    j = JObject ps
    /\ Zod.get "name" ps = Some (JString (name a))
    /\ Zod.get "description" ps = Some (JString (description a))
    /\ Zod.get "steps" ps = Some (JArray (List.map JString (steps a)))
    /\ Zod.get "extractionSchema" ps = option_map JObject (extractionSchema a)
    /\ (Zod.get "parameters" ps = None <-> parameters a = None).

(** The issue that zod reports for the value [s] of the [type] of a
    parameter when it is none of [string], [number], [boolean]. *)
Definition unknownParameterType (s : string) (path : list PathElement) : Issue :=
  {| code := invalid_enum_value s; path := (path ++ [Key "type"])%list |}.


(** Kinds of observations. *)
Definition isBrowserAction (o : obs) : bool :=
  match o with
  | o_stagehand_act _ _ => true
  | _ => false
  end.

Definition isSessionRead (o : obs) : bool :=
  match o with
  | o_stagehand_browserbaseSessionId _ => true
  | _ => false
  end.

Definition isPrompt (o : obs) : bool :=
  match o with
  | o_stdin_once_data _ => true
  | _ => false
  end.

Definition isNavigation (o : obs) : bool :=
  match o with
  | o_page_goto _ _ _ => true
  | _ => false
  end.

(** The instructions that the orchestrator gives to the browser. *)
Definition typeUsername (c : Credentials) : string :=
  "Type " ++ dquote ++ username c ++ dquote ++ " into the username or email field".

Definition typePassword (c : Credentials) : string :=
  "Type " ++ dquote ++ password c ++ dquote ++ " into the password field".

Definition clickSignIn : string := "Click the login or sign in button".

(** The line that announces the click on the login control. *)
Definition announceClick (button : string) : obs :=
  o_console_log ("Clicking login button: " ++ dquote ++ button ++ dquote).

(** What the orchestrator writes when the automatic login throws. *)
Definition autofillFailed (v : thrown) : list obs :=
  [o_console_log ("Automatic login failed: " ++ message_of (FromCallee v));
   o_console_log "Falling back to manual authentication..."].

(** The line that closes the automatic login, by its last analysis. *)
Definition autofillVerdict (analysis : AuthAnalysis) : obs :=
  if requiresAuth analysis
  then o_console_log "Automatic login may have failed, falling back to manual authentication"
  else o_console_log "Automatic login successful!".

(** The command that opens the session viewer, by platform. *)
Definition opener (platform : string) : string :=
  if (platform =? "win32")%string then "start"
  else if (platform =? "darwin")%string then "open"
  else "xdg-open".


Definition announceAutofill : obs :=
  o_console_log "Attempting automatic login with 1Password credentials...".

Definition announceManual : obs :=
  o_console_log "Opening browser session for authentication...".


(** The start of the manual step when there is a session: from its
    announcement to the request for the address of the session viewer. *)
Definition manualOpening (id : string) (again key : option string)
    (viewer : outcome string) : list obs :=
  [announceManual;
   o_stagehand_browserbaseSessionId (Some id);
   o_console_log ("Debug URL: https://browserbase.com/sessions/" ++ id);
   o_console_log "Please log in to the website in the browser window that just opened.";
   o_stagehand_browserbaseSessionId again;
   o_process_env "BROWSERBASE_API_KEY" key;
   o_sessions_debug (match again with Some i => i | None => "undefined" end) viewer].

(** The opening of the session viewer and the prompt. *)
Definition manualPrompt (platform debuggerFullscreenUrl userInput : string) : list obs :=
  [o_process_platform platform;
   o_child_process_exec (opener platform ++ " " ++ debuggerFullscreenUrl);
   o_console_log
     "Once you're logged in, press Enter to continue (or type 'skip' to skip authentication)...";
   o_stdin_once_data userInput].


(** The line that reports the success of the automatic login. *)
Definition isSuccessLine (o : obs) : Prop :=
  o = o_console_log "Automatic login successful!".

Definition isManualCall (o : obs) : Prop := isManualFallback o = true.


(** The number of observations of a kind in a run. *)
Fixpoint count (f : obs -> bool) (t : list obs) : nat :=
  match t with
  | [] => 0
  | o :: t' => (if f o then 1 else 0) + count f t'
  end.

(** How many extractions, browser actions, prompts, navigations and
    credential lookups a run holds at most. *)
Definition within (extractions actions prompts navigations lookups : nat)
    (t : list obs) : Prop :=
  count isExtraction t <= extractions
  /\ count isBrowserAction t <= actions
  /\ count isPrompt t <= prompts
  /\ count isNavigation t <= navigations
  /\ count isCredentialLookup t <= lookups.


(** A whole run: the click on the login control fails, nothing is
    stored for the domain, and the operator skips the manual step. *)
Definition sampleSkippedRun : list obs :=
  (sampleBeforeInput ++ o_stdin_once_data sampleSkipLine :: sampleAfterSkip)%list.

(** An analysis that asks for a login and allows the automatic one. *)
Definition loginForm : AuthAnalysis :=
  {| requiresAuth := true;
     loginButton := None;
     summary := None;
     canAutofill := Some true;
     recommendedStrategy := Some autofill;
     auth_steps := None;
     blockers := None;
     mfa := None |}.

Definition sampleCredentials : Credentials :=
  {| username := "ada"; password := "s3cret" |}.

(** A run in which the automatic login succeeds. *)
Definition sampleAutomaticRun : list obs :=
  (sampleOpening
   ++ [o_context_setActivePage samplePage;
       o_stagehand_extract (Returned loginForm);
       o_logAuthenticationAnalysis loginForm sampleDomain;
       o_lookupCredentialsIn1Password sampleDomain (Some sampleCredentials);
       o_console_log_credentials (Some sampleCredentials);
       announceAutofill;
       o_stagehand_act (typeUsername sampleCredentials) (Returned tt);
       o_stagehand_act (typePassword sampleCredentials) (Returned tt);
       o_stagehand_act clickSignIn (Returned tt);
       o_page_waitForLoadState samplePage 10000 (Threw (ErrorObject "timeout"));
       o_context_setActivePage samplePage;
       o_stagehand_extract (Returned loggedIn);
       o_console_log "Automatic login successful!"])%list.

(** A run in which every extraction fails, on a page whose address holds
    a login keyword, and in which there is no session to show. *)
Definition sampleHeuristicRun : list obs :=
  (sampleOpening
   ++ [o_context_setActivePage samplePage;
       o_stagehand_extract (Threw (ErrorObject "no answer"));
       o_page_url samplePage "https://example.com/login";
       o_logAuthenticationAnalysis
         (heuristicAnalysis (FromCallee (ErrorObject "no answer"))
            "https://example.com/login")
         sampleDomain;
       o_lookupCredentialsIn1Password sampleDomain (Some sampleCredentials);
       o_console_log_credentials (Some sampleCredentials);
       announceManual;
       o_stagehand_browserbaseSessionId None])%list.


(** ** Vocabulary for the other code *)

(** The argument with which [getStagehandInstance] constructs its
    instance, from its arguments, the project identifier read from the
    environment and the identifier of the context to persist. *)
Definition stagehandConfig (domain modelApiKey modelName : string)
    (browserbaseProjectId contextId : option string) : Node.StagehandConfig :=
  {| Node.verbose := None;
     Node.projectId := browserbaseProjectId;
     Node.context := if Node.truthy contextId then contextId else None;
     Node.cacheDir := Some ("mcp-stagehand-" ++ domain);
     Node.modelName := modelName;
     Node.apiKey := Some modelApiKey |}.

(** What [await] makes of an answer, in the other code. *)
Definition settled {X : Type} (a : outcome X) : Node.completion X :=
  match a with
  | Returned x => Node.Normal x
  | Threw v => Node.Thrown (FromCallee v)
  end.

(** A world for trying the other code out, in which nothing is set up:
    the environment is empty, no context is saved, the operator cancels
    the prompt, the page shows no candidate, and every command
    succeeds. *)
Definition quietWorld (n : nat) (X : Type) (c : Node.op X) : X :=
  match c in Node.op X return X with
  | Node.console_log _ | Node.console_error _ | Node.process_exit _ => tt
  | Node.process_env _ => None
  | Node.prompts_url => Returned None
  | Node.createMCPServer _ _ | Node.manageContexts _ _ | Node.setupSecrets
  | Node.showSecrets | Node.showVersion => Returned tt
  | Node.getOrCreateContext _ => Returned None
  | Node.new_Stagehand _ => Returned (Node.stagehand_handle n)
  | Node.stagehand_init _ => Returned tt
  | Node.fs_readFile_context _ => Threw (ErrorObject "ENOENT")
  | Node.createNewContext => Returned None
  | Node.stagehand_observe _ => Returned None
  | Node.stagehand_act _ => Returned tt
  end.


(** What a call of a run threw, if it threw. *)
Definition thrownIn {X : Type} (r : outcome X) : option thrown :=
  match r with
  | Threw v => Some v
  | Returned _ => None
  end.

Definition thrownBy (e : Node.event) : option thrown :=
  match e with
  | Node.e_prompts_url r => thrownIn r
  | Node.e_createMCPServer _ _ r => thrownIn r
  | Node.e_manageContexts _ _ r => thrownIn r
  | Node.e_setupSecrets r => thrownIn r
  | Node.e_showSecrets r => thrownIn r
  | Node.e_showVersion r => thrownIn r
  | Node.e_getOrCreateContext _ r => thrownIn r
  | Node.e_new_Stagehand _ r => thrownIn r
  | Node.e_stagehand_init _ r => thrownIn r
  | Node.e_fs_readFile_context _ r => thrownIn r
  | Node.e_createNewContext r => thrownIn r
  | Node.e_stagehand_observe _ r => thrownIn r
  | Node.e_stagehand_act _ r => thrownIn r
  | Node.e_console_log _ | Node.e_console_error _ | Node.e_process_env _ _
  | Node.e_process_exit _ => None
  end.

(** The calls that run a command of the command line. *)
Definition isCommandCall (e : Node.event) : bool :=
  match e with
  | Node.e_createMCPServer _ _ _ | Node.e_manageContexts _ _ _ | Node.e_setupSecrets _
  | Node.e_showSecrets _ | Node.e_showVersion _ => true
  | _ => false
  end.

(** The words that [main] knows as its first argument, lower-cased. *)
Definition knownCommands : list string :=
  ["--help"; "-h"; "--version"; "-v"; "secrets"; "create"; "contexts"; "help"; "version"].

(** A world in which everything is set up: the environment holds a
    project, the context manager and the session API answer a context, a
    context is saved with white space around it, the operator types a
    host name, and the page shows two candidates. *)
Definition readyWorld (n : nat) (X : Type) (c : Node.op X) : X :=
  match c in Node.op X return X with
  | Node.console_log _ | Node.console_error _ | Node.process_exit _ => tt
  | Node.process_env v =>
      if (v =? "BROWSERBASE_PROJECT_ID")%string then Some "project-1" else None
  | Node.prompts_url => Returned (Some "example.com")
  | Node.createMCPServer _ _ | Node.manageContexts _ _ | Node.setupSecrets
  | Node.showSecrets | Node.showVersion => Returned tt
  | Node.getOrCreateContext d => Returned (Some ("context-of-" ++ d))
  | Node.new_Stagehand _ => Returned (Node.stagehand_handle n)
  | Node.stagehand_init _ => Returned tt
  | Node.fs_readFile_context d => Returned (" saved-" ++ d ++ newline)
  | Node.createNewContext => Returned (Some "context-2")
  | Node.stagehand_observe _ => Returned (Some [Node.action_handle n; Node.action_handle (S n)])
  | Node.stagehand_act _ => Returned tt
  end.

(** A world in which the outside fails: like [quietWorld], but the
    commands, the session API and the browser throw. *)
Definition brokenWorld (n : nat) (X : Type) (c : Node.op X) : X :=
  match c in Node.op X return X with
  | Node.console_log _ | Node.console_error _ | Node.process_exit _ => tt
  | Node.process_env v =>
      if (v =? "BROWSERBASE_PROJECT_ID")%string then Some "project-1" else None
  | Node.prompts_url => Returned (Some "exa mple")
  | Node.createMCPServer _ _ => Threw (ErrorObject "Could not start the browser")
  | Node.manageContexts _ _ => Threw (ErrorObject "No such context")
  | Node.setupSecrets => Threw (OtherValue "cancelled")
  | Node.showSecrets => Threw (OtherValue "cancelled")
  | Node.showVersion => Threw (ErrorObject "ENOENT")
  | Node.getOrCreateContext d => Returned None
  | Node.new_Stagehand _ => Returned (Node.stagehand_handle n)
  | Node.stagehand_init _ => Threw (ErrorObject "Session could not be created")
  | Node.fs_readFile_context d => Threw (ErrorObject "ENOENT")
  | Node.createNewContext => Threw (ErrorObject "socket hang up")
  | Node.stagehand_observe _ => Returned (Some [])
  | Node.stagehand_act _ => Threw (ErrorObject "Element is not visible")
  end.


(** Sample runs of the other code, played in the worlds above. *)
Definition sampleNoProject
    : list Node.event * (Node.completion Node.Stagehand * option Node.Stagehand) :=
  Node.play quietWorld 0
    (SessionManager.getStagehandInstance "example.com" "key" "google/gemini-2.5-flash"
       None None).

Definition sampleSession
    : list Node.event * (Node.completion Node.Stagehand * option Node.Stagehand) :=
  Node.play readyWorld 0
    (SessionManager.getStagehandInstance "example.com" "key" "google/gemini-2.5-flash"
       None None).

Definition sampleBrokenSession
    : list Node.event * (Node.completion Node.Stagehand * option Node.Stagehand) :=
  Node.play brokenWorld 0
    (SessionManager.getStagehandInstance "example.com" "key" "google/gemini-2.5-flash"
       (Some (Some false)) None).

Definition sampleSavedContext : list Node.event * (Node.completion (option string) * unit) :=
  Node.play readyWorld 0 (GeneratedServer.getOrCreateContextId "example.com" tt).

Definition sampleAction : list Node.event * (Node.completion unit * unit) :=
  Node.play readyWorld 0 (GeneratedServer.performAction "Click the search box" tt).

Definition sampleCreate : list Node.event * (Node.completion unit * unit) :=
  Node.play readyWorld 0
    (Cli.main RefURL.parse RefURL.href ["CREATE"; "example.com"; "--skip-auth"] tt).

Definition sampleFailedCreate : list Node.event * (Node.completion unit * unit) :=
  Node.play brokenWorld 0
    (Cli.main RefURL.parse RefURL.href ["create"; "example.com"] tt).

Definition sampleRefusedUrl : list Node.event * (Node.completion unit * unit) :=
  Node.play brokenWorld 0 (Cli.main RefURL.parse RefURL.href ["create"] tt).


(** ** Vocabulary of the orchestrator's corner cases *)

(** The line announces a click on the login control. *)
Definition isClickAnnouncement (o : obs) : bool :=
  match o with
  | o_console_log line => startsWith line "Clicking login button: "
  | _ => false
  end.

(** The end of a run in which the operator skips and the navigation back
    to the original address fails. *)
Definition sampleFailedReturn : list obs :=
  [o_console_log "Skipping authentication, returning to original page...";
   o_page_goto samplePage sampleUrl (Threw (ErrorObject "net::ERR_CONNECTION_RESET"))].

(** An analysis that names a login control and asks for no login. *)
Definition buttonWithoutLogin : AuthAnalysis :=
  {| requiresAuth := false;
     loginButton := Some sampleButton;
     summary := None;
     canAutofill := None;
     recommendedStrategy := None;
     auth_steps := None;
     blockers := None;
     mfa := None |}.

(** A whole run with that analysis. *)
Definition sampleNoLoginRun : list obs :=
  (sampleOpening
   ++ [o_context_setActivePage samplePage;
       o_stagehand_extract (Returned buttonWithoutLogin);
       o_console_log "No authentication required."])%list.


(** * Properties *)

(** ** The definitions at work *)

Example trim_example :
  trim ("  skip " ++ newline) = "skip".
Proof. reflexivity. Qed.

Example toLowerCase_example : toLowerCase "SkIp" = "skip".
Proof. reflexivity. Qed.

Example cleanResponse_example :
  cleanResponse (fenced "json" emptyCatalogText) = emptyCatalogText.
Proof. reflexivity. Qed.

Example cleanResponse_prose_example :
  cleanResponse ("Here is the JSON: " ++ emptyCatalogText)
  = "Here is the JSON: " ++ emptyCatalogText.
Proof. reflexivity. Qed.

Example JSON_parse_example :
  JSON_parse (" {" ++ quoted "a" ++ ": [1, -2.5e3, true, null, "
              ++ quoted "x\u0041" ++ "], " ++ quoted "a" ++ ": {}} ")
  = Some (JObject [("a", JObject [])]).
Proof. reflexivity. Qed.

Example JSON_parse_nested_example :
  JSON_parse ("{" ++ quoted "a" ++ ":[[" ++ quoted "b" ++ ",{"
              ++ quoted "c" ++ ":[0]}]]}")
  = Some (JObject [("a", JArray [JArray [JString "b";
                                         JObject [("c", JArray [JNumber "0"])]]])]).
Proof. reflexivity. Qed.

Example JSON_parse_trailing_comma_example : JSON_parse "[1,]" = None.
Proof. reflexivity. Qed.

Example test_loginKeywords_example :
  RegExp.test_loginKeywords "https://example.com/Sign-In?next=/" = true
  /\ RegExp.test_loginKeywords "https://example.com/docs" = false.
Proof. split; reflexivity. Qed.

Example normalizeUrl_example :
  normalizeUrl RefURL.parse " example.com "
  = Ok {| RefURL.secure := true; RefURL.rest := "example.com" |}
  /\ normalizeUrl RefURL.parse "http://example.com"
     = Ok {| RefURL.secure := false; RefURL.rest := "example.com" |}
  /\ normalizeUrl RefURL.parse "not a url" = Throw InvalidUrlFormatHint.
Proof. repeat split; reflexivity. Qed.

Example wrong_parameter_type_example :
  parse DiscoveredActionsResponseSchema
    (JObject [("actions",
               JArray [JObject [("name", JString "a");
                                ("description", JString "d");
                                ("steps", JArray []);
                                ("parameters",
                                 JArray [JObject [("name", JString "q");
                                                  ("type", JString "date");
                                                  ("description", JString "when")]])]])])
  = Invalid [{| code := invalid_enum_value "date";
                path := [Key "actions"; Index 0; Key "parameters"; Index 0; Key "type"] |}].
Proof. reflexivity. Qed.

(** ** Strings *)


Lemma startsWith_inv (p s : string) :
  startsWith s p = true -> exists r, s = p ++ r.
Proof.
  revert s; induction p as [|a p IH]; intros s H; simpl in *.
  - now exists s.
  - destruct s as [|b s]; [discriminate|].
    apply andb_true_iff in H as [Hab Hs].
    apply Ascii.eqb_eq in Hab; subst b.
    destruct (IH _ Hs) as [r ->]. now exists r.
Qed.

Lemma slice_app (p r : string) : slice (String.length p) (p ++ r) = r.
Proof. induction p; simpl; auto. Qed.

Lemma removeFirst_startsWith (p s : string) :
  startsWith s p = true -> removeFirst p s = slice (String.length p) s.
Proof. intros H. destruct s; simpl; now rewrite H. Qed.

Lemma trimStart_no_ws (s : string) :
  all (fun c => negb (isWhiteSpace c)) s = true -> trimStart s = s.
Proof.
  destruct s as [|c r]; simpl; [reflexivity|].
  intros H. apply andb_true_iff in H as [Hc _].
  now destruct (isWhiteSpace c).
Qed.

Lemma trimEnd_no_ws (s : string) :
  all (fun c => negb (isWhiteSpace c)) s = true -> trimEnd s = s.
Proof.
  induction s as [|c r IH]; simpl; [reflexivity|].
  intros H. apply andb_true_iff in H as [Hc Hr].
  rewrite (IH Hr). destruct r; [|reflexivity].
  now destruct (isWhiteSpace c).
Qed.

Lemma trim_no_ws (s : string) :
  all (fun c => negb (isWhiteSpace c)) s = true -> trim s = s.
Proof.
  intros H. unfold trim. now rewrite (trimStart_no_ws _ H), trimEnd_no_ws.
Qed.

Lemma all_app (f : ascii -> bool) (a b : string) :
  all f (a ++ b) = all f a && all f b.
Proof. induction a; simpl; [reflexivity|]. now rewrite IHa, andb_assoc. Qed.

Lemma all_impl (f g : ascii -> bool) (s : string) :
  (forall c, f c = true -> g c = true) -> all f s = true -> all g s = true.
Proof.
  intros Hfg. induction s; simpl; [reflexivity|].
  intros H. apply andb_true_iff in H as [H1 H2].
  now rewrite (Hfg _ H1), IHs.
Qed.

(** ** URL normalizer *)

Lemma normalizeUrl_inv (URL : Type) (new_URL : string -> option URL)
    (input : string) (u : URL) :
  normalizeUrl new_URL input = Ok u ->
  exists s, new_URL s = Some u /\ hasHttpScheme s = true
            /\ (startsWith (trim input) "http://" = false -> exists r, s = "https://" ++ r).
Proof.
  unfold normalizeUrl, hasHttpScheme. intros H.
  destruct (startsWith (trim input) "http://") eqn:E1; cbn [orb] in H.
  - exists (trim input). destruct (new_URL (trim input)); inversion H; subst.
    rewrite E1. split; [|split]; [reflexivity|reflexivity|discriminate].
  - destruct (startsWith (trim input) "https://") eqn:E2.
    + exists (trim input). destruct (new_URL (trim input)); inversion H; subst.
      rewrite E1, E2. split; [|split]; [reflexivity|reflexivity|].
      intros _. now apply startsWith_inv.
    + exists ("https://" ++ trim input).
      destruct (new_URL ("https://" ++ trim input)); inversion H; subst.
      split; [|split]; [reflexivity|reflexivity|].
      intros _. now exists (trim input).
Qed.

Section UrlNormalizerFacts.

Variable URL : Type.
Variable new_URL : string -> option URL.
Variable href : URL -> string.
Variable protocol : URL -> string.

(** What is assumed of the platform's [URL] class, for the URLs that it
    builds from a string with the scheme [http] or [https]: the
    serialization starts with the scheme again, has no white space
    around it, and parses back to the same URL; and a URL written with
    [https://] has the protocol [https:]. *)
Hypothesis href_scheme : forall s u,
  new_URL s = Some u -> hasHttpScheme s = true -> hasHttpScheme (href u) = true.
Hypothesis href_trimmed : forall s u,
  new_URL s = Some u -> hasHttpScheme s = true -> trim (href u) = href u.
Hypothesis href_roundtrip : forall s u,
  new_URL s = Some u -> hasHttpScheme s = true -> new_URL (href u) = Some u.
Hypothesis protocol_https : forall r u,
  new_URL ("https://" ++ r) = Some u -> protocol u = "https:".

(** C7.  URL normalization is idempotent: when [normalizeUrl] succeeds
    on [input] with the URL [u], it succeeds on the string form of [u]
    with the same URL. *)
Theorem normalizeUrl_idempotent (input : string) (u : URL) :
  normalizeUrl new_URL input = Ok u ->
  normalizeUrl new_URL (toString href u) = Ok u.
Proof.
  intros H. destruct (normalizeUrl_inv _ _ _ _ H) as (s & Hs & Hsch & _).
  unfold normalizeUrl, toString.
  rewrite (href_trimmed _ _ Hs Hsch).
  pose proof (href_scheme _ _ Hs Hsch) as Hh. unfold hasHttpScheme in Hh.
  rewrite Hh. now rewrite (href_roundtrip _ _ Hs Hsch).
Qed.


End UrlNormalizerFacts.

(** The reference implementation meets what is assumed of [URL]. *)
Lemma RefURL_make_inv (b : bool) (r : string) (u : RefURL.t) :
  RefURL.make b r = Some u ->
  u = {| RefURL.secure := b; RefURL.rest := r |}
  /\ r <> EmptyString /\ all RefURL.visible r = true.
Proof.
  unfold RefURL.make. destruct r as [|c r]; [discriminate|].
  destruct (all RefURL.visible (String c r)) eqn:E; [|discriminate].
  intros H; inversion H; subst. repeat split; auto. discriminate.
Qed.

Lemma RefURL_parse_inv (s : string) (u : RefURL.t) :
  RefURL.parse s = Some u ->
  RefURL.rest u <> EmptyString /\ all RefURL.visible (RefURL.rest u) = true
  /\ s = RefURL.href u.
Proof.
  unfold RefURL.parse, RefURL.href, RefURL.protocol.
  destruct (startsWith s "https://") eqn:E1.
  - intros H. destruct (startsWith_inv _ _ E1) as [r ->].
    change (slice 8 ("https://" ++ r)) with r in H.
    apply RefURL_make_inv in H as (-> & ? & ?). simpl. auto.
  - destruct (startsWith s "http://") eqn:E2; [|discriminate].
    intros H. destruct (startsWith_inv _ _ E2) as [r ->].
    change (slice 7 ("http://" ++ r)) with r in H.
    apply RefURL_make_inv in H as (-> & ? & ?). simpl. auto.
Qed.

Lemma RefURL_roundtrip (s : string) (u : RefURL.t) :
  RefURL.parse s = Some u -> RefURL.parse (RefURL.href u) = Some u.
Proof.
  intros H. destruct (RefURL_parse_inv _ _ H) as (_ & _ & <-). exact H.
Qed.

Lemma RefURL_href_scheme (s : string) (u : RefURL.t) :
  RefURL.parse s = Some u -> hasHttpScheme (RefURL.href u) = true.
Proof.
  intros _. unfold RefURL.href, RefURL.protocol, hasHttpScheme.
  destruct (RefURL.secure u); reflexivity.
Qed.

Lemma RefURL_href_trimmed (s : string) (u : RefURL.t) :
  RefURL.parse s = Some u -> trim (RefURL.href u) = RefURL.href u.
Proof.
  intros H. destruct (RefURL_parse_inv _ _ H) as (_ & Hv & _).
  apply trim_no_ws. unfold RefURL.href, RefURL.protocol.
  assert (Hr : all (fun c => negb (isWhiteSpace c)) (RefURL.rest u) = true).
  { revert Hv. apply all_impl. intros c. unfold RefURL.visible, isWhiteSpace.
    destruct (nat_of_ascii c) as [|n] eqn:En; [discriminate|].
    intros Hc. apply andb_true_iff in Hc as [Hlo Hhi].
    apply Nat.leb_le in Hlo, Hhi.
    repeat match goal with
           | |- context [(?a <=? ?b)%nat] =>
               destruct (Nat.leb_spec a b)
           | |- context [(?a =? ?b)%nat] =>
               destruct (Nat.eqb_spec a b)
           end; simpl; try reflexivity; lia. }
  destruct (RefURL.secure u); simpl; exact Hr.
Qed.


Lemma normalizeUrl_idempotent_witness :
  normalizeUrl RefURL.parse
    (toString RefURL.href {| RefURL.secure := true; RefURL.rest := "example.com" |})
  = Ok {| RefURL.secure := true; RefURL.rest := "example.com" |}.
Proof.
  apply (@normalizeUrl_idempotent RefURL.t RefURL.parse RefURL.href
           (fun s u H _ => RefURL_href_scheme s u H)
           (fun s u H _ => RefURL_href_trimmed s u H)
           (fun s u H _ => RefURL_roundtrip s u H)
           "  example.com ").
  reflexivity.
Defined.


(** ** Model selection *)

Lemma startsWith_first_char (s p q : string) (a b : ascii) :
  a <> b ->
  startsWith s (String a p) = true -> startsWith s (String b q) = false.
Proof.
  intros Hab. destruct s as [|c s]; simpl; [discriminate|].
  intros H. apply andb_true_iff in H as [H _].
  apply Ascii.eqb_eq in H; subst c.
  apply Ascii.eqb_neq in Hab. rewrite Ascii.eqb_sym in Hab. now rewrite Hab.
Qed.

(** The first call: with nothing cached, [getModel] throws for a provider
    string that starts with none of the four prefixes, and returns and
    caches the model of the provider otherwise, after one line on the
    console. *)
Lemma getModel_first_call (env : Env) (st : ModelState) :
  cachedModel st = None ->
  ((forall pre f, In (pre, f) recognizedPrefixes ->
                  startsWith (MODEL_PROVIDER env) pre = false) ->
   fst (getModel env st) = Throw (UnsupportedModelProvider (MODEL_PROVIDER env))
   /\ cachedModel (snd (getModel env st)) = None
   /\ stderr (snd (getModel env st))
      = List.app (stderr st) ["Using model: " ++ MODEL_PROVIDER env])
  /\ (forall pre f, In (pre, f) recognizedPrefixes ->
        startsWith (MODEL_PROVIDER env) pre = true ->
        let m := modelFor pre f env in
        fst (getModel env st) = Ok m
        /\ cachedModel (snd (getModel env st)) = Some m
        /\ stderr (snd (getModel env st))
           = List.app (stderr st) ["Using model: " ++ MODEL_PROVIDER env]).
Proof.
  intros Hc. unfold getModel. rewrite Hc. split.
  - intros Hno.
    rewrite (Hno "openai/" createOpenAI), (Hno "anthropic/" createAnthropic),
      (Hno "google/" createGoogleGenerativeAI), (Hno "xai/" createXai);
      simpl; auto 6.
  - intros pre f Hin Hp. unfold selectModel.
    simpl in Hin.
    destruct Hin as [E|[E|[E|[E|[]]]]]; inversion E; subst pre f; clear E.
    + rewrite Hp, (removeFirst_startsWith _ _ Hp). repeat split; reflexivity.
    + rewrite (startsWith_first_char _ "nthropic/" "penai/" "a" "o"
                 ltac:(discriminate) Hp).
      rewrite Hp, (removeFirst_startsWith _ _ Hp). repeat split; reflexivity.
    + rewrite (startsWith_first_char _ "oogle/" "penai/" "g" "o"
                 ltac:(discriminate) Hp),
        (startsWith_first_char _ "oogle/" "nthropic/" "g" "a"
           ltac:(discriminate) Hp).
      rewrite Hp, (removeFirst_startsWith _ _ Hp). repeat split; reflexivity.
    + rewrite (startsWith_first_char _ "ai/" "penai/" "x" "o"
                 ltac:(discriminate) Hp),
        (startsWith_first_char _ "ai/" "nthropic/" "x" "a"
           ltac:(discriminate) Hp),
        (startsWith_first_char _ "ai/" "oogle/" "x" "g"
           ltac:(discriminate) Hp).
      rewrite Hp, (removeFirst_startsWith _ _ Hp). repeat split; reflexivity.
Qed.

Lemma getModel_cached (env : Env) (st : ModelState) (m : LanguageModel) :
  cachedModel st = Some m -> getModel env st = (Ok m, st).
Proof. intros H. unfold getModel. now rewrite H. Qed.

Lemma afterCalls_unrecognized (env : Env) :
  (forall pre f, In (pre, f) recognizedPrefixes ->
                 startsWith (MODEL_PROVIDER env) pre = false) ->
  forall n, cachedModel (afterCalls env n) = None.
Proof.
  intros Hno. induction n as [|n IH]; [reflexivity|]. cbn [afterCalls].
  destruct (getModel_first_call env (afterCalls env n) IH) as [H _].
  now destruct (H Hno) as (_ & Hc & _).
Qed.

Lemma afterCalls_recognized (env : Env) (pre : string) (f : ProviderFactory) :
  In (pre, f) recognizedPrefixes ->
  startsWith (MODEL_PROVIDER env) pre = true ->
  forall n,
    cachedModel (afterCalls env n) = None
    \/ cachedModel (afterCalls env n) = Some (modelFor pre f env).
Proof.
  intros Hin Hp. induction n as [|n [IH|IH]]; [now left| |]; right; cbn [afterCalls].
  - destruct (getModel_first_call env (afterCalls env n) IH) as [_ H].
    now destruct (H pre f Hin Hp) as (_ & Hc & _).
  - now rewrite (getModel_cached env _ _ IH).
Qed.

(** C9.  In a process whose [loadEnv()] returns [env], every call of
    [getModel], the first as the later ones, throws
    [UnsupportedModelProvider] when the provider string starts with none
    of [openai/], [anthropic/], [google/], [xai/], and returns the model of
    the provider, named by what follows the prefix, when it starts with
    one of them.  At startup, where the configuration is resolved before
    the browser and session work, an unrecognized provider ends the
    command with that error before any call is made: the run is empty.
    With a recognized provider the work starts, with the model of the
    provider. *)
Theorem getModel_fails_fast (env : Env) (n : nat) :
  ((forall pre f, In (pre, f) recognizedPrefixes ->
                  startsWith (MODEL_PROVIDER env) pre = false) ->
   fst (getModel env (afterCalls env n))
   = Throw (UnsupportedModelProvider (MODEL_PROVIDER env))
   /\ forall (A : Type) (work : LanguageModel -> M A) (t : list obs) (r : result A),
        runs (fst (startup env (afterCalls env n) work)) t r ->
        t = [] /\ r = Throw (UnsupportedModelProvider (MODEL_PROVIDER env)))
  /\ (forall pre f, In (pre, f) recognizedPrefixes ->
        startsWith (MODEL_PROVIDER env) pre = true ->
        fst (getModel env (afterCalls env n)) = Ok (modelFor pre f env)
        /\ forall (A : Type) (work : LanguageModel -> M A),
             fst (startup env (afterCalls env n) work) = work (modelFor pre f env)).
Proof.
  split.
  - intros Hno.
    destruct (getModel_first_call env (afterCalls env n)
                (afterCalls_unrecognized env Hno n)) as [H _].
    destruct (H Hno) as [E _]. split; [exact E|].
    intros A work t r Hrun. unfold startup in Hrun. cbn [fst] in Hrun.
    rewrite E in Hrun. unfold runs, throw in Hrun.
    destruct t as [|o t]; simpl in Hrun; [|discriminate Hrun].
    injection Hrun as <-. split; reflexivity.
  - intros pre f Hin Hp.
    assert (E : fst (getModel env (afterCalls env n)) = Ok (modelFor pre f env)).
    { destruct (afterCalls_recognized env pre f Hin Hp n) as [Hc|Hc].
      - destruct (getModel_first_call env (afterCalls env n) Hc) as [_ H].
        now destruct (H pre f Hin Hp).
      - now rewrite (getModel_cached env _ _ Hc). }
    split; [exact E|].
    intros A work. unfold startup. cbn [fst]. now rewrite E.
Qed.

Lemma getModel_fails_fast_witness :
  (fst (getModel {| MODEL_PROVIDER := "mistral/large"; MODEL_API_KEY := "k" |}
                 freshModelState)
   = Throw (UnsupportedModelProvider "mistral/large")
   /\ forall (t : list obs) (r : result unit),
        runs (fst (startup {| MODEL_PROVIDER := "mistral/large"; MODEL_API_KEY := "k" |}
                           freshModelState
                           (fun _ => authenticateToWebsite sampleUrl sampleDomain))) t r ->
        t = [] /\ r = Throw (UnsupportedModelProvider "mistral/large"))
  /\ fst (getModel {| MODEL_PROVIDER := "xai/grok-4"; MODEL_API_KEY := "k" |}
                   (afterCalls {| MODEL_PROVIDER := "xai/grok-4"; MODEL_API_KEY := "k" |} 2))
     = Ok {| factory := createXai; apiKey := "k"; modelName := "grok-4" |}.
Proof.
  split.
  - destruct (getModel_fails_fast
                {| MODEL_PROVIDER := "mistral/large"; MODEL_API_KEY := "k" |} 0)
      as [H _].
    assert (Hno : forall pre f, In (pre, f) recognizedPrefixes ->
                                startsWith "mistral/large" pre = false).
    { intros pre f Hin. simpl in Hin.
      destruct Hin as [E|[E|[E|[E|[]]]]]; inversion E; reflexivity. }
    destruct (H Hno) as [H1 H2]. split; [exact H1|].
    intros t r. exact (H2 unit _ t r).
  - destruct (getModel_fails_fast
                {| MODEL_PROVIDER := "xai/grok-4"; MODEL_API_KEY := "k" |} 2)
      as [_ H].
    apply (H "xai/" createXai); [simpl; auto | reflexivity].
Defined.

(** ** Response cleanup *)

Lemma append_assoc (a b c : string) : (a ++ b) ++ c = a ++ b ++ c.
Proof. induction a; simpl; [reflexivity|]. now rewrite IHa. Qed.

Lemma append_empty_r (a : string) : a ++ "" = a.
Proof. induction a; simpl; [reflexivity|]. now rewrite IHa. Qed.

Lemma trimStart_app_ws (w s : string) :
  all isWhiteSpace w = true -> trimStart (w ++ s) = trimStart s.
Proof.
  induction w as [|c w IH]; simpl; [reflexivity|].
  intros H. apply andb_true_iff in H as [Hc Hw]. now rewrite Hc, IH.
Qed.

Lemma trimStart_app (s r : string) :
  trimStart s <> "" -> trimStart (s ++ r) = trimStart s ++ r.
Proof.
  induction s as [|c s IH]; simpl; [congruence|].
  destruct (isWhiteSpace c); [exact IH|reflexivity].
Qed.

Lemma trimEnd_split (x : string) :
  exists w, all isWhiteSpace w = true /\ x = trimEnd x ++ w.
Proof.
  induction x as [|c x (w & Hw & IH)]; simpl.
  - exists "". auto.
  - destruct (trimEnd x) as [|d y] eqn:E.
    + simpl in IH. subst x.
      destruct (isWhiteSpace c) eqn:Hc.
      * exists (String c w). simpl. now rewrite Hc, Hw.
      * exists w. auto.
    + exists w. split; [exact Hw|].
      change (String c x = String c (String d y ++ w)). now f_equal.
Qed.

Lemma lastChar_cons (c : ascii) (r : string) :
  r <> "" -> lastChar (String c r) = lastChar r.
Proof. destruct r; [congruence|reflexivity]. Qed.

Lemma lastChar_app (a r : string) : r <> "" -> lastChar (a ++ r) = lastChar r.
Proof.
  intros Hr. induction a as [|c a IH]; simpl; [reflexivity|].
  rewrite <- IH. destruct (a ++ r) eqn:E; [|reflexivity].
  destruct a; simpl in E; [congruence|discriminate].
Qed.

Lemma trimEnd_lastChar (x : string) (d : ascii) :
  lastChar (trimEnd x) = Some d -> isWhiteSpace d = false.
Proof.
  induction x as [|c x IH]; simpl; [discriminate|].
  destruct (trimEnd x) as [|e y] eqn:E.
  - destruct (isWhiteSpace c) eqn:Hc; simpl; [discriminate|].
    intros H; inversion H; subst; exact Hc.
  - intros H. apply IH. exact H.
Qed.

Lemma trimEnd_id (x : string) (d : ascii) :
  lastChar x = Some d -> isWhiteSpace d = false -> trimEnd x = x.
Proof.
  induction x as [|c x IH]; simpl; [discriminate|].
  destruct x as [|e y].
  - intros H Hd; inversion H; subst. simpl. now rewrite Hd.
  - intros H Hd. rewrite (IH H Hd). reflexivity.
Qed.

Lemma trimStart_firstChar (x : string) (c : ascii) (r : string) :
  trimStart x = String c r -> isWhiteSpace c = false.
Proof.
  induction x as [|e x IH]; simpl; [discriminate|].
  destruct (isWhiteSpace e) eqn:He; [exact IH|].
  intros H; inversion H; subst; exact He.
Qed.

Lemma trimEnd_head (x : string) (c : ascii) (r : string) :
  trimEnd x = String c r -> exists r', x = String c r'.
Proof.
  destruct x as [|e x]; simpl; [discriminate|].
  destruct (trimEnd x); [destruct (isWhiteSpace e)|];
    intros H; inversion H; subst; eauto.
Qed.

(** What [trim] leaves starts and ends with something that is not white
    space. *)
Lemma trim_ends (s : string) (c : ascii) (r : string) :
  trim s = String c r ->
  isWhiteSpace c = false
  /\ exists d, lastChar (trim s) = Some d /\ isWhiteSpace d = false.
Proof.
  unfold trim. intros H. split.
  - destruct (trimEnd_head _ _ _ H) as [r' Hr']. exact (trimStart_firstChar _ _ _ Hr').
  - destruct (lastChar (trimEnd (trimStart s))) as [d|] eqn:E.
    + exists d. split; [reflexivity|]. exact (trimEnd_lastChar _ _ E).
    + rewrite H in E. exfalso. clear H. revert c E.
      induction r as [|e r IH]; intros c E; simpl in E; [discriminate|].
      exact (IH e E).
Qed.

Lemma trimStart_id (x : string) (c : ascii) (r : string) :
  x = String c r -> isWhiteSpace c = false -> trimStart x = x.
Proof. intros -> H. simpl. now rewrite H. Qed.

Lemma trim_idempotent (s : string) : trim (trim s) = trim s.
Proof.
  destruct (trim s) as [|c r] eqn:E; [reflexivity|].
  destruct (trim_ends _ _ _ E) as (Hc & d & Hd & Hw). rewrite E in Hd.
  unfold trim. rewrite (trimStart_id _ _ _ eq_refl Hc). exact (trimEnd_id _ _ Hd Hw).
Qed.

Lemma any_app (f : ascii -> bool) (a b : string) :
  any f (a ++ b) = any f a || any f b.
Proof. induction a; simpl; [reflexivity|]. now rewrite IHa, orb_assoc. Qed.

Lemma any_lastChar (f : ascii -> bool) (b : string) (d : ascii) :
  lastChar b = Some d -> f d = true -> any f b = true.
Proof.
  induction b as [|c b IH]; simpl; [discriminate|].
  destruct b as [|e y].
  - intros H Hd; inversion H; subst. now rewrite Hd.
  - intros H Hd. rewrite (IH H Hd). apply orb_true_r.
Qed.

Lemma trimStart_not_fence (x : string) :
  any solid x = true -> (trimStart x =? "```")%string = false.
Proof.
  induction x as [|c x IH]; [simpl; discriminate|].
  intros H. cbn [trimStart]. destruct (isWhiteSpace c) eqn:Hc.
  - apply IH. cbn [any] in H. unfold solid at 1 in H. rewrite Hc in H. exact H.
  - apply String.eqb_neq. intros E. rewrite E in H.
    vm_compute in H. discriminate H.
Qed.

Lemma replace_fence_close_eq (s : string) :
  RegExp.replace_fence_close s =
  if (trimStart s =? "```")%string then EmptyString
  else match s with
       | String c r => String c (RegExp.replace_fence_close r)
       | EmptyString => EmptyString
       end.
Proof. destruct s; reflexivity. Qed.

Lemma endsSolid_tail (c : ascii) (b : string) :
  endsSolid (String c b) -> endsSolid b /\ any solid (String c b) = true.
Proof.
  unfold endsSolid. intros H. split.
  - destruct b; [exact I|]. exact H.
  - destruct (lastChar (String c b)) as [d|] eqn:E.
    + exact (any_lastChar solid _ _ E H).
    + destruct b; simpl in E; [discriminate|].
      exfalso. clear H. revert a E. induction b; intros; simpl in E;
        [discriminate|eauto].
Qed.

(** The closing fence and the white space before it are removed. *)
Lemma replace_fence_close_fence (b w : string) :
  endsSolid b -> all isWhiteSpace w = true ->
  RegExp.replace_fence_close (b ++ w ++ "```") = b.
Proof.
  intros Hb Hw. induction b as [|c b IH].
  - rewrite replace_fence_close_eq. simpl.
    rewrite (trimStart_app_ws _ _ Hw). reflexivity.
  - destruct (endsSolid_tail c b Hb) as [Hb' Hany].
    rewrite replace_fence_close_eq.
    rewrite trimStart_not_fence.
    + simpl. now rewrite (IH Hb').
    + change (String c b ++ w ++ "```") with ((String c b) ++ (w ++ "```")).
      rewrite any_app, Hany. reflexivity.
Qed.

(** A text that does not end with a fence is left as it is. *)
Lemma replace_fence_close_none (b : string) :
  endsSolid b -> RegExp.replace_fence_close b = b.
Proof.
  intros Hb. induction b as [|c b IH]; [reflexivity|].
  destruct (endsSolid_tail c b Hb) as [Hb' Hany].
  rewrite replace_fence_close_eq, (trimStart_not_fence _ Hany).
  now rewrite (IH Hb').
Qed.

Lemma canonicalize_backtick (c : ascii) :
  isBacktick c = false ->
  Ascii.eqb (RegExp.canonicalize "`") (RegExp.canonicalize c) = false.
Proof.
  destruct c as [[] [] [] [] [] [] [] []]; vm_compute; congruence.
Qed.

Lemma app_nonempty (a r : string) : r <> "" -> a ++ r <> "".
Proof. destruct a; simpl; [auto|discriminate]. Qed.

Lemma startsWithIgnoreCase_app (t p rest : string) :
  RegExp.startsWithIgnoreCase t p = true ->
  RegExp.startsWithIgnoreCase (t ++ rest) p = true.
Proof.
  revert t. induction p as [|a p IH]; intros t; simpl; [reflexivity|].
  destruct t as [|b t]; [discriminate|]. simpl.
  intros H. apply andb_true_iff in H as [H1 H2]. now rewrite H1, IH.
Qed.

Lemma payloadLike_inv (s : string) :
  payloadLike s = true ->
  exists c r w,
    trim s = String c r /\ isBacktick c = false /\ endsSolid (String c r)
    /\ all isWhiteSpace w = true /\ trimStart s = String c r ++ w.
Proof.
  unfold payloadLike. destruct (trim s) as [|c r] eqn:E; [discriminate|].
  intros H. apply andb_true_iff in H as [Hc Hd].
  destruct (trim_ends _ _ _ E) as (_ & d & Hl & Hw). rewrite E in Hl.
  rewrite Hl in Hd.
  destruct (trimEnd_split (trimStart s)) as (w & Hws & Hsplit).
  fold (trim s) in Hsplit. rewrite E in Hsplit.
  exists c, r, w. repeat split; auto.
  - now destruct (isBacktick c).
  - unfold endsSolid. rewrite Hl. unfold solid. rewrite Hw.
    now destruct (isBacktick d).
Qed.

(** A payload is cleaned to itself without the white space around it. *)
Lemma cleanResponse_payload (s : string) :
  payloadLike s = true -> cleanResponse s = trim s.
Proof.
  intros H. destruct (payloadLike_inv _ H) as (c & r & w & E & Hc & Hd & _ & _).
  unfold cleanResponse. rewrite E.
  assert (E1 : RegExp.replace_fence_json (String c r) = String c r).
  { unfold RegExp.replace_fence_json. cbn [RegExp.startsWithIgnoreCase].
    now rewrite (canonicalize_backtick _ Hc). }
  assert (E2 : RegExp.replace_fence_open (String c r) = String c r).
  { unfold RegExp.replace_fence_open. cbn [startsWith].
    unfold isBacktick in Hc. rewrite Ascii.eqb_sym in Hc. now rewrite Hc. }
  rewrite E1, E2, (replace_fence_close_none _ Hd), <- E.
  apply trim_idempotent.
Qed.

Lemma trim_fenced (tag s : string) : trim (fenced tag s) = fenced tag s.
Proof.
  unfold trim. rewrite (@trimStart_id (fenced tag s) "`" _ eq_refl eq_refl).
  apply trimEnd_id with (d := "`"%char); [|reflexivity].
  unfold fenced. rewrite !lastChar_app; try reflexivity;
    repeat apply app_nonempty; discriminate.
Qed.

(** What is left of a fenced payload once the opening fence is gone. *)
Lemma after_opening_fence (s : string) :
  payloadLike s = true ->
  exists c r w,
    trim s = String c r /\ isBacktick c = false /\ endsSolid (String c r)
    /\ all isWhiteSpace w = true
    /\ trimStart (newline ++ s ++ newline ++ "```") = String c r ++ w ++ "```".
Proof.
  intros H. destruct (payloadLike_inv _ H) as (c & r & w & E & Hc & Hd & Hw & Hs).
  exists c, r, (w ++ newline). repeat split; auto.
  - rewrite all_app, Hw. reflexivity.
  - rewrite (trimStart_app_ws newline _ eq_refl).
    rewrite trimStart_app by (rewrite Hs; discriminate).
    rewrite Hs. now rewrite !append_assoc.
Qed.

Lemma replace_fence_open_fenced (x : string) :
  RegExp.replace_fence_open ("```" ++ x) = trimStart x.
Proof. reflexivity. Qed.

Lemma replace_fence_json_untagged (x : string) :
  RegExp.replace_fence_json ("```" ++ newline ++ x) = "```" ++ newline ++ x.
Proof. reflexivity. Qed.

Lemma replace_fence_json_tagged (tag x : string) :
  isJsonTag tag = true ->
  RegExp.replace_fence_json ("```" ++ tag ++ x) = trimStart x.
Proof.
  unfold isJsonTag. intros H. apply andb_true_iff in H as [Hlen Hci].
  apply Nat.eqb_eq in Hlen.
  unfold RegExp.replace_fence_json.
  assert (Hm : RegExp.startsWithIgnoreCase ("```" ++ tag ++ x) "```json" = true).
  { change (RegExp.startsWithIgnoreCase (tag ++ x) "json" = true).
    now apply startsWithIgnoreCase_app. }
  rewrite Hm.
  change (slice 7 ("```" ++ tag ++ x)) with (slice 4 (tag ++ x)).
  rewrite <- Hlen. now rewrite slice_app.
Qed.

(** A fenced payload, with the tag [json] or with none, is cleaned to the
    payload without the white space around it. *)
Lemma cleanResponse_fenced (tag s : string) :
  tag = "" \/ isJsonTag tag = true ->
  payloadLike s = true ->
  cleanResponse (fenced tag s) = trim s.
Proof.
  intros Htag H.
  destruct (after_opening_fence _ H) as (c & r & w & E & Hc & Hd & Hw & Hx).
  unfold cleanResponse. rewrite trim_fenced.
  assert (Hopen :
    RegExp.replace_fence_open (RegExp.replace_fence_json (fenced tag s))
    = String c r ++ w ++ "```").
  { unfold fenced. destruct Htag as [-> | Htag].
    - change ("```" ++ "" ++ newline ++ s ++ newline ++ "```")
        with ("```" ++ newline ++ s ++ newline ++ "```").
      rewrite replace_fence_json_untagged, replace_fence_open_fenced. exact Hx.
    - rewrite (replace_fence_json_tagged _ _ Htag), Hx.
      unfold RegExp.replace_fence_open.
      change (String c r ++ w ++ "```") with (String c (r ++ w ++ "```")).
      cbn [startsWith]. unfold isBacktick in Hc. rewrite Ascii.eqb_sym in Hc.
      now rewrite Hc. }
  rewrite Hopen, (replace_fence_close_fence _ _ Hd Hw), <- E.
  apply trim_idempotent.
Qed.

(** ** Every JSON text is payload-like *)

Lemma lastChar_nonempty (b : string) (d : ascii) : lastChar b = Some d -> b <> "".
Proof. destruct b; [discriminate|discriminate]. Qed.

Lemma eats_one (c : ascii) (r : string) : solid c = true -> eats (String c r) r.
Proof. intros H. exists (String c ""), c. auto. Qed.

Lemma eats_prefix (pre s rest : string) : eats s rest -> eats (pre ++ s) rest.
Proof.
  intros (body & d & -> & Hl & Hd). exists (pre ++ body), d.
  rewrite append_assoc. repeat split; auto.
  rewrite lastChar_app; [exact Hl|]. exact (lastChar_nonempty _ _ Hl).
Qed.

Lemma eats_cons (c : ascii) (s rest : string) : eats s rest -> eats (String c s) rest.
Proof. exact (eats_prefix (String c "") s rest). Qed.

Lemma eats_trans (a b c : string) : eats a b -> eats0 b c -> eats a c.
Proof.
  intros Hab [-> | Hbc]; [exact Hab|].
  destruct Hab as (body & _ & -> & _). now apply eats_prefix.
Qed.

Lemma eats0_trans (a b c : string) : eats0 a b -> eats0 b c -> eats0 a c.
Proof.
  intros [-> | Hab] Hbc; [exact Hbc|]. right. exact (eats_trans _ _ _ Hab Hbc).
Qed.

Lemma skipWs_split (r : string) :
  exists w, all JSONParse.isJsonWs w = true /\ r = w ++ JSONParse.skipWs r.
Proof.
  induction r as [|c r (w & Hw & IH)]; simpl.
  - exists "". auto.
  - destruct (JSONParse.isJsonWs c) eqn:Hc.
    + exists (String c w). simpl. rewrite Hc, Hw. split; [reflexivity|].
      now f_equal.
    + exists "". auto.
Qed.

Lemma eats_skipWs (r rest : string) : eats (JSONParse.skipWs r) rest -> eats r rest.
Proof.
  intros H. destruct (skipWs_split r) as (w & _ & E). rewrite E.
  now apply eats_prefix.
Qed.

Lemma char_is (c : ascii) (n : nat) :
  (nat_of_ascii c =? n)%nat = true -> c = ascii_of_nat n.
Proof.
  intros H. apply Nat.eqb_eq in H. rewrite <- H. now rewrite ascii_nat_embedding.
Qed.

Lemma isDigit_solid (c : ascii) : JSONParse.isDigit c = true -> solid c = true.
Proof. destruct c as [[] [] [] [] [] [] [] []]; vm_compute; congruence. Qed.

Lemma consChar_inv (A : Type) (c : ascii) (o : option (string * A))
    (str : string) (rest : A) :
  JSONParse.consChar c o = Some (str, rest) -> exists str', o = Some (str', rest).
Proof.
  destruct o as [[s r]|]; simpl; [|discriminate].
  intros H; inversion H; subst. eauto.
Qed.

Lemma parseChars_eats (s : string) :
  forall st str rest,
    JSONParse.parseChars st s = Some (str, rest) -> eats s rest.
Proof.
  induction s as [|c s IH]; intros st str rest; [discriminate|].
  destruct st as [| |need acc]; cbn [JSONParse.parseChars].
  - destruct (nat_of_ascii c =? 34)%nat eqn:E34.
    + intros H; inversion H; subst. apply eats_one.
      rewrite (char_is _ _ E34). reflexivity.
    + destruct (nat_of_ascii c =? 92)%nat.
      * intros H. apply eats_cons. eauto.
      * destruct (nat_of_ascii c <? 32)%nat; [discriminate|].
        intros H. apply consChar_inv in H as [str' H]. apply eats_cons. eauto.
  - destruct (JSONParse.simpleEscape c).
    + intros H. apply consChar_inv in H as [str' H]. apply eats_cons. eauto.
    + destruct (nat_of_ascii c =? 117)%nat; [|discriminate].
      intros H. apply eats_cons. eauto.
  - destruct (JSONParse.hexValue c) as [h|]; [|discriminate].
    destruct need as [|[|need]]; [discriminate| |].
    + destruct (16 * acc + h <? 256)%nat; [|discriminate].
      intros H. apply consChar_inv in H as [str' H]. apply eats_cons. eauto.
    + intros H. apply eats_cons. eauto.
Qed.

Lemma takeDigits_split (s : string) :
  forall ds rest,
    JSONParse.takeDigits s = (ds, rest) ->
    s = ds ++ rest /\ all JSONParse.isDigit ds = true.
Proof.
  induction s as [|c s IH]; intros ds rest; simpl.
  - intros H; inversion H; subst. auto.
  - destruct (JSONParse.isDigit c) eqn:Hc.
    + destruct (JSONParse.takeDigits s) as [ds' r'] eqn:E.
      intros H; inversion H; subst.
      destruct (IH _ _ eq_refl) as [-> Hall]. simpl. now rewrite Hc, Hall.
    + intros H; inversion H; subst. auto.
Qed.

Lemma all_lastChar (f : ascii -> bool) (b : string) :
  all f b = true -> b <> "" -> exists d, lastChar b = Some d /\ f d = true.
Proof.
  induction b as [|c b IH]; [congruence|]. simpl.
  intros H _. apply andb_true_iff in H as [Hc Hb].
  destruct b as [|e y]; [eauto|]. apply IH; [exact Hb|discriminate].
Qed.

Lemma digits_eats (ds rest : string) :
  all JSONParse.isDigit ds = true -> ds <> "" -> eats (ds ++ rest) rest.
Proof.
  intros Hall Hne. destruct (all_lastChar _ _ Hall Hne) as (d & Hl & Hd).
  exists ds, d. repeat split; auto. now apply isDigit_solid.
Qed.

Lemma someDigits_eats (s ds rest : string) :
  JSONParse.someDigits s = Some (ds, rest) -> eats s rest.
Proof.
  unfold JSONParse.someDigits.
  destruct (JSONParse.takeDigits s) as [ds' r'] eqn:E.
  destruct (takeDigits_split _ _ _ E) as [-> Hall].
  destruct ds' as [|c ds']; [discriminate|].
  intros H; inversion H; subst. apply digits_eats; [exact Hall|discriminate].
Qed.

Lemma parseInt_eats (s i rest : string) :
  JSONParse.parseInt s = Some (i, rest) -> eats s rest.
Proof.
  destruct s as [|c r]; simpl; [discriminate|].
  destruct (nat_of_ascii c =? 48)%nat eqn:E0.
  - intros H; inversion H; subst. apply eats_one.
    rewrite (char_is _ _ E0). reflexivity.
  - destruct (JSONParse.isDigit c) eqn:Hc; [|discriminate].
    destruct (JSONParse.takeDigits r) as [ds r'] eqn:E.
    destruct (takeDigits_split _ _ _ E) as [-> Hall].
    intros H; inversion H; subst.
    apply (digits_eats (String c ds) rest); [|discriminate].
    simpl. now rewrite Hc, Hall.
Qed.

Lemma parseFrac_eats (s f rest : string) :
  JSONParse.parseFrac s = Some (f, rest) -> eats0 s rest.
Proof.
  destruct s as [|c r]; simpl.
  - intros H; inversion H; subst. now left.
  - destruct (nat_of_ascii c =? 46)%nat.
    + intros H. apply consChar_inv in H as [str' H].
      right. apply eats_cons. exact (someDigits_eats _ _ _ H).
    + intros H; inversion H; subst. now left.
Qed.

Lemma parseExp_eats (s e rest : string) :
  JSONParse.parseExp s = Some (e, rest) -> eats0 s rest.
Proof.
  destruct s as [|c r]; simpl.
  - intros H; inversion H; subst. now left.
  - destruct ((nat_of_ascii c =? 101)%nat || (nat_of_ascii c =? 69)%nat).
    + destruct r as [|g r']; [discriminate|].
      destruct ((nat_of_ascii g =? 43)%nat || (nat_of_ascii g =? 45)%nat).
      * intros H. apply consChar_inv in H as [s1 H].
        apply consChar_inv in H as [s2 H].
        right. do 2 apply eats_cons. exact (someDigits_eats _ _ _ H).
      * intros H. apply consChar_inv in H as [s1 H].
        right. apply eats_cons. exact (someDigits_eats _ _ _ H).
    + intros H; inversion H; subst. now left.
Qed.

Lemma parseNumber_eats (s n rest : string) :
  JSONParse.parseNumber s = Some (n, rest) -> eats s rest.
Proof.
  unfold JSONParse.parseNumber.
  assert (Hgo : forall sign s0,
    match JSONParse.parseInt s0 with
    | None => None
    | Some (i, s1) =>
        match JSONParse.parseFrac s1 with
        | None => None
        | Some (f, s2) =>
            match JSONParse.parseExp s2 with
            | None => None
            | Some (e, s3) => Some (sign ++ i ++ f ++ e, s3)
            end
        end
    end = Some (n, rest) -> eats s0 rest).
  { intros sign s0.
    destruct (JSONParse.parseInt s0) as [[i s1]|] eqn:Ei; [|discriminate].
    destruct (JSONParse.parseFrac s1) as [[f s2]|] eqn:Ef; [|discriminate].
    destruct (JSONParse.parseExp s2) as [[e s3]|] eqn:Ee; [|discriminate].
    intros H; inversion H; subst.
    apply (eats_trans _ _ _ (parseInt_eats _ _ _ Ei)).
    exact (eats0_trans _ _ _ (parseFrac_eats _ _ _ Ef) (parseExp_eats _ _ _ Ee)). }
  destruct s as [|c r]; [apply Hgo|].
  destruct (nat_of_ascii c =? 45)%nat; [|apply Hgo].
  intros H. apply eats_cons. exact (Hgo _ _ H).
Qed.

Lemma literal_eats (s lit : string) (d : ascii) :
  startsWith s lit = true -> lastChar lit = Some d -> solid d = true ->
  eats s (slice (String.length lit) s).
Proof.
  intros H Hl Hd. destruct (startsWith_inv _ _ H) as [r ->].
  rewrite slice_app. exists lit, d. auto.
Qed.

Lemma eats_closing (c : ascii) (r : string) (n : nat) :
  (nat_of_ascii c =? n)%nat = true -> solid (ascii_of_nat n) = true ->
  eats (String c r) r.
Proof. intros E H. apply eats_one. now rewrite (char_is _ _ E). Qed.

Lemma parse_eats (fuel : nat) :
  (forall s v rest, JSONParse.parseValue fuel s = Some (v, rest) -> eats s rest)
  /\ (forall s vs rest, JSONParse.parseElements fuel s = Some (vs, rest) -> eats s rest)
  /\ (forall s ms rest, JSONParse.parseMembers fuel s = Some (ms, rest) -> eats s rest).
Proof.
  induction fuel as [|fuel (IHv & IHe & IHm)];
    [repeat split; intros; discriminate|].
  split; [|split].
  - intros s v rest. cbn [JSONParse.parseValue].
    destruct s as [|c r]; [discriminate|].
    destruct (nat_of_ascii c =? 123)%nat.
    { destruct (JSONParse.skipWs r) as [|d r'] eqn:Er; [discriminate|].
      destruct (nat_of_ascii d =? 125)%nat eqn:Ed.
      - intros H; inversion H; subst. apply eats_cons, eats_skipWs.
        rewrite Er. exact (eats_closing _ _ _ Ed eq_refl).
      - destruct (JSONParse.parseMembers fuel (String d r')) as [[ms r'']|] eqn:Em;
          [|discriminate].
        intros H; inversion H; subst. apply eats_cons, eats_skipWs.
        rewrite Er. eauto. }
    destruct (nat_of_ascii c =? 91)%nat.
    { destruct (JSONParse.skipWs r) as [|d r'] eqn:Er; [discriminate|].
      destruct (nat_of_ascii d =? 93)%nat eqn:Ed.
      - intros H; inversion H; subst. apply eats_cons, eats_skipWs.
        rewrite Er. exact (eats_closing _ _ _ Ed eq_refl).
      - destruct (JSONParse.parseElements fuel (String d r')) as [[vs r'']|] eqn:Em;
          [|discriminate].
        intros H; inversion H; subst. apply eats_cons, eats_skipWs.
        rewrite Er. eauto. }
    destruct (nat_of_ascii c =? 34)%nat.
    { destruct (JSONParse.parseChars JSONParse.Plain r) as [[str r']|] eqn:Ec;
        [|discriminate].
      intros H; inversion H; subst. apply eats_cons. exact (parseChars_eats _ _ _ _ Ec). }
    destruct (startsWith (String c r) "true") eqn:Et.
    { intros H; inversion H; subst.
      exact (literal_eats _ "true" "e" Et eq_refl eq_refl). }
    destruct (startsWith (String c r) "false") eqn:Ef.
    { intros H; inversion H; subst.
      exact (literal_eats _ "false" "e" Ef eq_refl eq_refl). }
    destruct (startsWith (String c r) "null") eqn:En.
    { intros H; inversion H; subst.
      exact (literal_eats _ "null" "l" En eq_refl eq_refl). }
    destruct (JSONParse.parseNumber (String c r)) as [[n r']|] eqn:Enum;
      [|discriminate].
    intros H; inversion H; subst. exact (parseNumber_eats _ _ _ Enum).
  - intros s vs rest. cbn [JSONParse.parseElements].
    destruct (JSONParse.parseValue fuel s) as [[v r]|] eqn:Ev; [|discriminate].
    destruct (JSONParse.skipWs r) as [|d r'] eqn:Er; [discriminate|].
    assert (Hgo : eats (String d r') rest -> eats s rest).
    { intros H. apply (eats_trans _ _ _ (IHv _ _ _ Ev)). right.
      apply eats_skipWs. now rewrite Er. }
    destruct (nat_of_ascii d =? 44)%nat.
    + destruct (JSONParse.parseElements fuel (JSONParse.skipWs r')) as [[vs' r'']|] eqn:Ee;
        [|discriminate].
      intros H; inversion H; subst. apply Hgo, eats_cons, eats_skipWs. eauto.
    + destruct (nat_of_ascii d =? 93)%nat eqn:Ed; [|discriminate].
      intros H; inversion H; subst. apply Hgo. exact (eats_closing _ _ _ Ed eq_refl).
  - intros s ms rest. cbn [JSONParse.parseMembers].
    destruct s as [|q0 r]; [discriminate|].
    destruct (nat_of_ascii q0 =? 34)%nat; [|discriminate].
    destruct (JSONParse.parseChars JSONParse.Plain r) as [[k r1]|] eqn:Ek;
      [|discriminate].
    destruct (JSONParse.skipWs r1) as [|colon r2] eqn:E1; [discriminate|].
    destruct (nat_of_ascii colon =? 58)%nat; [|discriminate].
    destruct (JSONParse.parseValue fuel (JSONParse.skipWs r2)) as [[v r3]|] eqn:Ev;
      [|discriminate].
    destruct (JSONParse.skipWs r3) as [|d r4] eqn:E3; [discriminate|].
    assert (Hgo : eats (String d r4) rest -> eats (String q0 r) rest).
    { intros H. apply eats_cons.
      apply (eats_trans _ _ _ (parseChars_eats _ _ _ _ Ek)). right.
      apply eats_skipWs. rewrite E1. apply eats_cons, eats_skipWs.
      apply (eats_trans _ _ _ (IHv _ _ _ Ev)). right.
      apply eats_skipWs. now rewrite E3. }
    destruct (nat_of_ascii d =? 44)%nat.
    + destruct (JSONParse.parseMembers fuel (JSONParse.skipWs r4)) as [[ms' r5]|] eqn:Em;
        [|discriminate].
      intros H; inversion H; subst. apply Hgo, eats_cons, eats_skipWs. eauto.
    + destruct (nat_of_ascii d =? 125)%nat eqn:Ed; [|discriminate].
      intros H; inversion H; subst. apply Hgo. exact (eats_closing _ _ _ Ed eq_refl).
Qed.

(** A value does not start with white space or with a backtick. *)
Lemma parseValue_first (fuel : nat) (s : string) (v : JSON) (rest : string) :
  JSONParse.parseValue fuel s = Some (v, rest) ->
  exists c r, s = String c r /\ solid c = true.
Proof.
  destruct fuel as [|fuel]; [discriminate|].
  destruct s as [|c r]; [discriminate|].
  intros H. exists c, r. split; [reflexivity|].
  destruct (solid c) eqn:E; [reflexivity|]. exfalso.
  destruct c as [[] [] [] [] [] [] [] []];
    try (vm_compute in E; discriminate E);
    cbv in H; discriminate H.
Qed.

Lemma isJsonWs_isWhiteSpace (c : ascii) :
  JSONParse.isJsonWs c = true -> isWhiteSpace c = true.
Proof. destruct c as [[] [] [] [] [] [] [] []]; vm_compute; congruence. Qed.

Lemma skipWs_empty (r : string) :
  JSONParse.skipWs r = "" -> all JSONParse.isJsonWs r = true.
Proof.
  induction r as [|c r IH]; simpl; [reflexivity|].
  destruct (JSONParse.isJsonWs c); [exact IH|discriminate].
Qed.

Lemma trimEnd_ws (w : string) : all isWhiteSpace w = true -> trimEnd w = "".
Proof.
  induction w as [|c w IH]; simpl; [reflexivity|].
  intros H. apply andb_true_iff in H as [Hc Hw]. now rewrite (IH Hw), Hc.
Qed.

Lemma trimEnd_app_ws (b w : string) :
  all isWhiteSpace w = true -> trimEnd (b ++ w) = trimEnd b.
Proof.
  intros Hw. induction b as [|c b IH]; simpl.
  - now apply trimEnd_ws.
  - now rewrite IH.
Qed.

(** The text that [JSON.parse] accepts is, without the white space around
    it, a text that neither starts nor ends with a backtick. *)
Lemma JSON_parse_payloadLike (s : string) (j : JSON) :
  JSON_parse s = Some j -> payloadLike s = true.
Proof.
  unfold JSON_parse.
  destruct (JSONParse.parseValue _ (JSONParse.skipWs s)) as [[v r]|] eqn:Ev;
    [|discriminate].
  destruct (JSONParse.skipWs r) eqn:Er; [|discriminate]. intros _.
  destruct (parseValue_first _ _ _ _ Ev) as (c & r0 & Es & Hc).
  destruct (proj1 (parse_eats _) _ _ _ Ev) as (body & d & Eb & Hl & Hd).
  destruct (skipWs_split s) as (w0 & Hw0 & E0).
  assert (Hws : forall w, all JSONParse.isJsonWs w = true -> all isWhiteSpace w = true).
  { intros w. apply all_impl. exact isJsonWs_isWhiteSpace. }
  assert (Hbody : exists b', body = String c b').
  { destruct body as [|c' b']; [discriminate Hl|].
    rewrite Es in Eb. inversion Eb; subst. eauto. }
  destruct Hbody as [b' ->].
  unfold solid in Hc, Hd.
  apply andb_true_iff in Hc as [Hc1 Hc2]. apply andb_true_iff in Hd as [Hd1 Hd2].
  assert (Et : trim s = String c b').
  { unfold trim. rewrite E0, Eb.
    rewrite (trimStart_app_ws _ _ (Hws _ Hw0)).
    change (String c b' ++ r) with (String c (b' ++ r)).
    cbn [trimStart]. destruct (isWhiteSpace c); [discriminate|].
    change (String c (b' ++ r)) with (String c b' ++ r).
    rewrite (trimEnd_app_ws _ _ (Hws _ (skipWs_empty _ Er))).
    apply (@trimEnd_id _ d Hl). now destruct (isWhiteSpace d). }
  unfold payloadLike. rewrite Et, Hl, Hc2, Hd2. reflexivity.
Qed.

(** *** Fence stripping *)

(** C6, amended.  For every JSON text [s], the response that wraps [s] in
    a fence tagged [json] (in any letter case) or in a fence without a
    tag is cleaned to the same text as [s] itself, and so is parsed and
    validated to the same catalog or to the same failure. *)
Theorem fence_stripping (syntaxErrorMessage : string -> string)
    (zodErrorMessage : list Issue -> string) (tag s : string) (j : JSON) :
  JSON_parse s = Some j ->
  tag = "" \/ isJsonTag tag = true ->
  cleanResponse (fenced tag s) = cleanResponse s
  /\ JSON_parse (cleanResponse (fenced tag s)) = JSON_parse (cleanResponse s)
  /\ parseAndValidate syntaxErrorMessage zodErrorMessage (cleanResponse (fenced tag s))
     = parseAndValidate syntaxErrorMessage zodErrorMessage (cleanResponse s).
Proof.
  intros Hj Htag. pose proof (JSON_parse_payloadLike _ _ Hj) as Hp.
  assert (E : cleanResponse (fenced tag s) = cleanResponse s).
  { now rewrite (@cleanResponse_fenced tag s Htag Hp), (@cleanResponse_payload s Hp). }
  rewrite E. auto.
Qed.

Lemma fence_stripping_witness :
  cleanResponse (fenced "JSON" emptyCatalogText) = cleanResponse emptyCatalogText
  /\ JSON_parse (cleanResponse (fenced "JSON" emptyCatalogText))
     = Some (JObject [("actions", JArray [])]).
Proof.
  destruct (fence_stripping (fun _ => "SyntaxError") (fun _ => "ZodError")
              "JSON" emptyCatalogText (JObject [("actions", JArray [])])
              eq_refl (or_intror eq_refl)) as (H1 & H2 & _).
  split; [exact H1|]. rewrite H2. reflexivity.
Defined.

(** C6 as stated fails for the language tag [js]: the opening fence
    goes, the tag stays, and what is left is not JSON. *)
Lemma fence_other_tag_counterexample :
  JSON_parse emptyCatalogText = Some (JObject [("actions", JArray [])])
  /\ cleanResponse (fenced "js" emptyCatalogText) = "js" ++ newline ++ emptyCatalogText
  /\ JSON_parse (cleanResponse (fenced "js" emptyCatalogText)) = None
  /\ JSON_parse (cleanResponse emptyCatalogText)
     = Some (JObject [("actions", JArray [])]).
Proof. repeat split; vm_compute; reflexivity. Qed.

(** ** Schema validation *)

Lemma ap_fails_l (A B : Type) (f : ParseReturn (A -> B)) (a : ParseReturn A) i :
  failsWith f i -> failsWith (ap f a) i.
Proof.
  intros (issues & -> & Hin). destruct a as [x|js]; simpl.
  - exists issues; auto.
  - exists (issues ++ js)%list. split; [reflexivity|]. apply in_or_app; auto.
Qed.

Lemma ap_fails_r (A B : Type) (f : ParseReturn (A -> B)) (a : ParseReturn A) i :
  failsWith a i -> failsWith (ap f a) i.
Proof.
  intros (issues & -> & Hin). destruct f as [x|js]; simpl.
  - exists issues; auto.
  - exists (js ++ issues)%list. split; [reflexivity|]. apply in_or_app; auto.
Qed.

Lemma map_fails (A B : Type) (g : A -> B) (a : ParseReturn A) i :
  failsWith a i -> failsWith (Zod.map g a) i.
Proof. apply ap_fails_r. Qed.

Lemma elements_fails (T : Type) (s : Schema T) (path : list PathElement) i :
  forall l k n x,
    nth_error l n = Some x ->
    failsWith (s (path ++ [Index (k + n)])%list (Some x)) i ->
    failsWith (elements s path k l) i.
Proof.
  induction l as [|y l IH]; intros k n x Hn Hf.
  - destruct n; discriminate.
  - destruct n as [|n]; simpl in Hn.
    + inversion Hn; subst. rewrite Nat.add_0_r in Hf.
      cbn [elements]. now apply ap_fails_l, map_fails.
    + cbn [elements]. apply ap_fails_r. apply (IH (S k) n x Hn).
      now rewrite <- Nat.add_succ_comm in Hf.
Qed.

Lemma action_missing_description (path : list PathElement) (action : JSON) :
  missingDescription action ->
  failsWith (DiscoveredActionSchema path (Some action)) (descriptionRequired path).
Proof.
  intros (ps & -> & Hd). unfold DiscoveredActionSchema.
  do 3 apply ap_fails_l. apply ap_fails_r.
  unfold at_key. rewrite Hd. exists [descriptionRequired path]. simpl; auto.
Qed.

(** One action without [description] makes the validation of the whole
    response fail, with the path of the missing field. *)
Lemma response_missing_description (top : list (string * JSON))
    (actions : list JSON) (n : nat) (action : JSON) :
  Zod.get "actions" top = Some (JArray actions) ->
  nth_error actions n = Some action ->
  missingDescription action ->
  failsWith (parse DiscoveredActionsResponseSchema (JObject top))
            (descriptionRequired [Key "actions"; Index n]).
Proof.
  intros Ha Hn Hm. unfold parse, DiscoveredActionsResponseSchema, at_key.
  rewrite Ha. cbn [array].
  apply (elements_fails _ _ _ _ actions 0 n action Hn).
  exact (action_missing_description _ _ Hm).
Qed.

(** ** Runs *)

Lemma answer_observe (X : Type) (c : call X) (o : obs) (x : X) :
  answer c o = Some x <-> o = observe c x.
Proof.
  split.
  - destruct c; destruct o; simpl; unfold same; try discriminate;
      repeat match goal with
             | |- context [if ?d then _ else _] => destruct d; try discriminate
             end;
      intros H; inversion H; subst; try reflexivity;
      match goal with u : unit |- _ => now destruct u end.
  - intros ->. destruct c; simpl; unfold same;
      repeat match goal with
             | |- context [if ?d then _ else _] => destruct d; try congruence
             end;
      try reflexivity; now destruct x.
Qed.

Lemma runs_Ret (R : Type) (a : R) (t : list obs) (r : R) :
  runs (Ret a) t r <-> t = [] /\ r = a.
Proof.
  unfold runs. destruct t; simpl; split; intros H.
  - inversion H; auto.
  - destruct H as [_ ->]; reflexivity.
  - discriminate.
  - destruct H; discriminate.
Qed.

Lemma runs_Vis (R X : Type) (c : call X) (k : X -> proc R) (t : list obs) (r : R) :
  runs (Vis c k) t r <-> exists x t', t = observe c x :: t' /\ runs (k x) t' r.
Proof.
  unfold runs. destruct t as [|o t]; simpl; split.
  - discriminate.
  - intros (x & t' & H & _); discriminate.
  - destruct (answer c o) as [x|] eqn:E; [|discriminate].
    intros H. exists x, t. split; [|exact H].
    f_equal. now apply answer_observe.
  - intros (x & t' & H & Hr). inversion H; subst.
    now rewrite (proj2 (answer_observe _ c _ x) eq_refl).
Qed.

(** A run of [pbind m k] is a run of [m] followed by a run of [k]. *)
Lemma runs_pbind (A B : Type) (m : proc A) (k : A -> proc B) :
  forall t r,
    runs (pbind m k) t r <->
    exists t1 a t2, t = (t1 ++ t2)%list /\ runs m t1 a /\ runs (k a) t2 r.
Proof.
  induction m as [a|X c k0 IH]; intros t r; simpl.
  - split.
    + intros H. exists [], a, t. repeat split; auto; now apply runs_Ret.
    + intros (t1 & a' & t2 & -> & Hm & Hk).
      apply runs_Ret in Hm as [-> ->]. exact Hk.
  - rewrite runs_Vis. split.
    + intros (x & t' & -> & H). apply IH in H as (t1 & a & t2 & -> & Hm & Hk).
      exists (observe c x :: t1), a, t2. repeat split; auto.
      apply runs_Vis. eauto.
    + intros (t1 & a & t2 & -> & Hm & Hk).
      apply runs_Vis in Hm as (x & t' & -> & Hm).
      exists x, (t' ++ t2)%list. split; [reflexivity|].
      apply IH. eauto 6.
Qed.

(** The calls of a run fix its length and its value: of two runs of the
    same code, neither continues the other. *)
Lemma runs_prefix_det (R : Type) (p : proc R) :
  forall t1 r1 t1' r1' t2 t2',
    runs p t1 r1 -> runs p t1' r1' ->
    (t1 ++ t2 = t1' ++ t2')%list ->
    t1 = t1' /\ r1 = r1' /\ t2 = t2'.
Proof.
  induction p as [a|X c k IH]; intros t1 r1 t1' r1' t2 t2' H H' E.
  - apply runs_Ret in H as [-> ->]. apply runs_Ret in H' as [-> ->]. auto.
  - apply runs_Vis in H as (x & s & -> & H).
    apply runs_Vis in H' as (x' & s' & -> & H').
    simpl in E. inversion E as [[Eo Es]].
    assert (x = x').
    { pose proof (proj2 (answer_observe _ c _ x) eq_refl) as Hx.
      rewrite Eo in Hx. rewrite (proj2 (answer_observe _ c _ x') eq_refl) in Hx.
      now inversion Hx. }
    subst x'. destruct (IH x _ _ _ _ _ _ H H' Es) as (-> & -> & ->). auto.
Qed.

(** The calls and their answers fix the value of a run. *)
Lemma runs_deterministic (R : Type) (p : proc R) (t : list obs) (r r' : R) :
  runs p t r -> runs p t r' -> r = r'.
Proof.
  intros H H'.
  now destruct (runs_prefix_det R p t r t r' [] [] H H' eq_refl) as (_ & E & _).
Qed.

(** Code always finishes: whatever the calls answer, there is a run. *)
Lemma runs_total (R : Type) (p : proc R) (env : forall X, call X -> X) :
  exists t r, runs p t r.
Proof.
  induction p as [a|X c k IH].
  - exists [], a. now apply runs_Ret.
  - destruct (IH (env X c)) as (t & r & H).
    exists (observe c (env X c) :: t), r. apply runs_Vis. eauto.
Qed.

Lemma runs_ret (A : Type) (a : A) t r : runs (ret a) t r <-> t = [] /\ r = Ok a.
Proof. apply runs_Ret. Qed.

Lemma runs_throw (A : Type) (e : exn) t (r : result A) :
  runs (throw e) t r <-> t = [] /\ r = Throw e.
Proof. apply runs_Ret. Qed.

Lemma runs_perform (X : Type) (c : call X) t r :
  runs (perform c) t r <-> exists x, t = [observe c x] /\ r = Ok x.
Proof.
  unfold perform. rewrite runs_Vis. split.
  - intros (x & t' & -> & H). apply runs_Ret in H as [-> ->]. eauto.
  - intros (x & -> & ->). exists x, []. split; [reflexivity|]. now apply runs_Ret.
Qed.

Lemma runs_await (X : Type) (c : call (outcome X)) t r :
  runs (await c) t r <-> exists a, t = [observe c a] /\ r = settle a.
Proof.
  unfold await. rewrite runs_Vis. split.
  - intros (a & t' & -> & H). exists a.
    destruct a; apply runs_Ret in H as [-> ->]; auto.
  - intros (a & -> & ->). exists a, []. split; [reflexivity|].
    destruct a; now apply runs_Ret.
Qed.

Lemma runs_bind (A B : Type) (m : M A) (f : A -> M B) t r :
  runs (bind m f) t r <->
  exists t1 t2 rm,
    t = (t1 ++ t2)%list /\ runs m t1 rm
    /\ match rm with
       | Ok a => runs (f a) t2 r
       | Throw e => t2 = [] /\ r = Throw e
       end.
Proof.
  unfold bind. rewrite runs_pbind. split.
  - intros (t1 & rm & t2 & -> & Hm & Hk). exists t1, t2, rm.
    repeat split; auto. destruct rm; [exact Hk|]. now apply runs_Ret in Hk.
  - intros (t1 & t2 & rm & -> & Hm & Hk). exists t1, rm, t2.
    repeat split; auto. destruct rm; [exact Hk|]. now apply runs_Ret.
Qed.

Lemma runs_try_catch (A : Type) (m : M A) (h : exn -> M A) t r :
  runs (try_catch m h) t r <->
  exists t1 t2 rm,
    t = (t1 ++ t2)%list /\ runs m t1 rm
    /\ match rm with
       | Ok a => t2 = [] /\ r = Ok a
       | Throw e => runs (h e) t2 r
       end.
Proof.
  unfold try_catch. rewrite runs_pbind. split.
  - intros (t1 & rm & t2 & -> & Hm & Hk). exists t1, t2, rm.
    repeat split; auto. destruct rm; [|exact Hk]. now apply runs_Ret in Hk.
  - intros (t1 & t2 & rm & -> & Hm & Hk). exists t1, rm, t2.
    repeat split; auto. destruct rm; [|exact Hk]. now apply runs_Ret.
Qed.

Lemma avoids_runs (P : obs -> Prop) (R : Type) (p : proc R) :
  avoids P p -> forall t r, runs p t r -> Forall (fun o => ~ P o) t.
Proof.
  induction p as [a|X c k IH]; intros Ha t r H.
  - apply runs_Ret in H as [-> _]. constructor.
  - apply runs_Vis in H as (x & t' & -> & H). destruct (Ha x) as [Hx Hk].
    constructor; [exact Hx|]. exact (IH x Hk _ _ H).
Qed.

Lemma avoids_pbind (P : obs -> Prop) (A B : Type) (m : proc A) (k : A -> proc B) :
  avoids P m -> (forall a, avoids P (k a)) -> avoids P (pbind m k).
Proof.
  intros Hm Hk. induction m as [a|X c k0 IH]; simpl; [apply Hk|].
  intros x. destruct (Hm x) as [Hx Hr]. split; [exact Hx|]. now apply IH.
Qed.

Lemma avoids_bind (P : obs -> Prop) (A B : Type) (m : M A) (f : A -> M B) :
  avoids P m -> (forall a, avoids P (f a)) -> avoids P (bind m f).
Proof.
  intros Hm Hf. apply avoids_pbind; [exact Hm|]. intros [a|e]; [apply Hf|exact I].
Qed.

Lemma avoids_try_catch (P : obs -> Prop) (A : Type) (m : M A) (h : exn -> M A) :
  avoids P m -> (forall e, avoids P (h e)) -> avoids P (try_catch m h).
Proof.
  intros Hm Hh. apply avoids_pbind; [exact Hm|]. intros [a|e]; [exact I|apply Hh].
Qed.

(** Taking a run apart along the structure of the code. *)
Ltac inv_runs_step :=
  match goal with
  | H : runs (ret _) _ _ |- _ => apply runs_ret in H as [? ?]; subst
  | H : runs (throw _) _ _ |- _ => apply runs_throw in H as [? ?]; subst
  | H : runs (perform _) _ _ |- _ => apply runs_perform in H as (? & ? & ?); subst
  | H : runs (await _) _ _ |- _ => apply runs_await in H as (? & ? & ?); subst
  | H : runs (bind _ _) _ _ |- _ =>
      apply runs_bind in H as (? & ? & [?|?] & ? & ? & H);
      cbv beta iota in H; subst
  | H : runs (try_catch _ _) _ _ |- _ =>
      apply runs_try_catch in H as (? & ? & [?|?] & ? & ? & H);
      cbv beta iota in H; subst
  | H : runs (catch_ignore _) _ _ |- _ => unfold catch_ignore in H
  | H : runs (if ?b then _ else _) _ _ |- _ => destruct b eqn:?
  | H : _ /\ _ |- _ => destruct H; subst
  | H : Ok _ = Ok _ |- _ => inversion H; subst; clear H
  | H : Throw _ = Throw _ |- _ => inversion H; subst; clear H
  | H : Ok _ = Throw _ |- _ => discriminate H
  | H : Throw _ = Ok _ |- _ => discriminate H
  | H : Ok _ = settle ?a |- _ => destruct a; simpl in H
  | H : Throw _ = settle ?a |- _ => destruct a; simpl in H
  end.

Ltac inv_runs := repeat inv_runs_step; cbn [observe List.app] in *.

(** Building the run of a piece of code from its calls and answers. *)
Ltac build_run :=
  cbn [bind pbind perform await try_catch catch_ignore ret throw];
  repeat first
    [ apply runs_Ret; split; reflexivity
    | apply runs_Vis; eexists; eexists; split; [reflexivity|];
      cbn [bind pbind perform await try_catch catch_ignore ret throw] ].

(** ** Authentication analyzer *)

(** The two runs of the analyzer: the extraction answers, or it fails and
    the address of the page decides. *)
Lemma analyze_runs (p : Page) (t : list obs) (r : result AuthAnalysis) :
  runs (analyzeAuthenticationState p) t r <->
  (exists a,
      t = [o_context_setActivePage p; o_stagehand_extract (Returned a)]
      /\ r = Ok a)
  \/ (exists v url,
         t = [o_context_setActivePage p; o_stagehand_extract (Threw v);
              o_page_url p url]
         /\ r = Ok (heuristicAnalysis (FromCallee v) url)).
Proof.
  split.
  - unfold analyzeAuthenticationState. intros H. inv_runs.
    + left. eauto.
    + right. eauto.
  - unfold analyzeAuthenticationState.
    intros [(a & -> & ->) | (v & url & -> & ->)]; build_run.
    Unshelve. all: exact tt.
Qed.

(** *** The pattern of the heuristic *)

Ltac by_cases_on_char c :=
  destruct c as [[] [] [] [] [] [] [] []]; vm_compute; try reflexivity; try congruence.

Lemma loginKeywords_plain : Forall (allChars plainPatternChar) RegExp.loginKeywords.
Proof.
  assert (Hl : forall a, In a (list_ascii_of_string "loginsauth-c") -> plainPatternChar a).
  { intros a Ha. simpl in Ha.
    repeat (destruct Ha as [<- | Ha]; [intros c; by_cases_on_char c|]).
    destruct Ha. }
  repeat constructor; apply Hl; simpl; auto 20.
Qed.

Lemma startsWithIgnoreCase_spec (k : string) :
  allChars plainPatternChar k ->
  forall s,
    RegExp.startsWithIgnoreCase s k = true <->
    exists mid post, s = mid ++ post /\ asciiLowerCase mid = k.
Proof.
  induction k as [|a k IH]; intros Hk s.
  - split; [|reflexivity]. intros _. exists "", s. auto.
  - destruct Hk as [Ha Hk]. cbn [RegExp.startsWithIgnoreCase].
    destruct s as [|c s].
    + split; [discriminate|]. intros (mid & post & E & Hm).
      destruct mid; [discriminate Hm|discriminate E].
    + rewrite (Ha c), andb_true_iff, (IH Hk s), Ascii.eqb_eq. split.
      * intros (Hc & mid & post & -> & Hm).
        exists (String c mid), post. simpl. now rewrite Hc, Hm.
      * intros (mid & post & E & Hm).
        destruct mid as [|c' mid]; [discriminate Hm|].
        simpl in E, Hm. inversion E; subst. inversion Hm; subst. eauto.
Qed.

Lemma test_loginKeywords_eq (s : string) :
  RegExp.test_loginKeywords s =
  existsb (RegExp.startsWithIgnoreCase s) RegExp.loginKeywords
  || match s with
     | String _ r => RegExp.test_loginKeywords r
     | EmptyString => false
     end.
Proof. destruct s; reflexivity. Qed.

Lemma test_loginKeywords_here (s : string) :
  existsb (RegExp.startsWithIgnoreCase s) RegExp.loginKeywords = true <->
  exists mid post k,
    In k RegExp.loginKeywords /\ s = mid ++ post /\ asciiLowerCase mid = k.
Proof.
  rewrite existsb_exists. split.
  - intros (k & Hin & Hk).
    pose proof (proj1 (Forall_forall _ _) loginKeywords_plain k Hin) as Hp.
    apply (startsWithIgnoreCase_spec k Hp) in Hk as (mid & post & E & Hm). eauto 7.
  - intros (mid & post & k & Hin & E & Hm). exists k. split; [exact Hin|].
    pose proof (proj1 (Forall_forall _ _) loginKeywords_plain k Hin) as Hp.
    apply (startsWithIgnoreCase_spec k Hp). eauto.
Qed.

(** The test of the heuristic is the search for a login keyword. *)
Lemma test_loginKeywords_spec (url : string) :
  RegExp.test_loginKeywords url = true <-> matchesLoginPattern url.
Proof.
  unfold matchesLoginPattern. split.
  - induction url as [|c url IH]; rewrite test_loginKeywords_eq, orb_true_iff.
    + intros [H|H]; [|discriminate].
      apply test_loginKeywords_here in H as (mid & post & k & ? & ? & ?).
      exists "", mid, post, k. auto.
    + intros [H|H].
      * apply test_loginKeywords_here in H as (mid & post & k & ? & ? & ?).
        exists "", mid, post, k. auto.
      * destruct (IH H) as (pre & mid & post & k & ? & -> & ?).
        exists (String c pre), mid, post, k. auto.
  - intros (pre & mid & post & k & Hin & -> & Hm).
    induction pre as [|c pre IH]; rewrite test_loginKeywords_eq, orb_true_iff.
    + left. apply test_loginKeywords_here. exists mid, post, k. auto.
    + right. exact IH.
Qed.

(** C4.  The analyzer never throws: every run of it returns an analysis,
    and there is a run whatever the calls answer.  When the extraction
    fails, the analysis returned has [requiresAuth] true exactly when
    the address of the page holds one of [login], [signin], [auth],
    [sign-in], [account] in any letter case, and its summary says that
    the heuristic was used. *)
Theorem analyzer_never_throws (p : Page) :
  (forall t r, runs (analyzeAuthenticationState p) t r -> exists a, r = Ok a)
  /\ (forall env : forall X, call X -> X,
        exists t a, runs (analyzeAuthenticationState p) t (Ok a))
  /\ (forall t r v,
        runs (analyzeAuthenticationState p) t r ->
        In (o_stagehand_extract (Threw v)) t ->
        exists url a note,
          t = [o_context_setActivePage p; o_stagehand_extract (Threw v);
               o_page_url p url]
          /\ r = Ok a
          /\ (requiresAuth a = true <-> matchesLoginPattern url)
          /\ summary a = Some ("Heuristic result after extract error" ++ note)).
Proof.
  split; [|split].
  - intros t r H. apply analyze_runs in H as [(a & _ & ->) | (v & url & _ & ->)]; eauto.
  - intros env. destruct (runs_total _ (analyzeAuthenticationState p) env) as (t & r & H).
    pose proof H as H'.
    apply analyze_runs in H' as [(a & _ & ->) | (v & url & _ & ->)]; eauto.
  - intros t r v H Hin.
    apply analyze_runs in H as [(a & -> & ->) | (v' & url & -> & ->)].
    + simpl in Hin. destruct Hin as [E|[E|[]]]; discriminate E.
    + simpl in Hin. destruct Hin as [E|[E|[E|[]]]]; try discriminate E.
      inversion E; subst v'.
      exists url, (heuristicAnalysis (FromCallee v) url).
      exists (match v with ErrorObject m => ": " ++ m | OtherValue _ => "." end).
      repeat split; try apply test_loginKeywords_spec; auto.
      destruct v; reflexivity.
Qed.

(** ** The operator's line *)

Lemma lowerChar_ws (c : ascii) : isWhiteSpace (lowerChar c) = isWhiteSpace c.
Proof. by_cases_on_char c. Qed.

Lemma lowerChar_ascii (c : ascii) :
  isAsciiChar (lowerChar c) = true -> asciiLower c = lowerChar c.
Proof. by_cases_on_char c. Qed.

Lemma asciiLower_ascii (c : ascii) :
  isAsciiChar (asciiLower c) = true -> lowerChar c = asciiLower c.
Proof. by_cases_on_char c. Qed.

Lemma toLowerCase_app (a b : string) :
  toLowerCase (a ++ b) = toLowerCase a ++ toLowerCase b.
Proof. induction a; simpl; [reflexivity|]. now rewrite IHa. Qed.

Lemma toLowerCase_app_inv (a b : string) :
  forall x, toLowerCase x = a ++ b ->
            exists x1 x2, x = x1 ++ x2 /\ toLowerCase x1 = a /\ toLowerCase x2 = b.
Proof.
  induction a as [|c a IH]; intros x H.
  - exists "", x. auto.
  - destruct x as [|d x]; [discriminate|]. simpl in H. inversion H as [[Hc Hx]].
    destruct (IH x Hx) as (x1 & x2 & -> & H1 & H2).
    exists (String d x1), x2. simpl. rewrite H1, Hc. auto.
Qed.

Lemma toLowerCase_ws (s : string) :
  all isWhiteSpace (toLowerCase s) = all isWhiteSpace s.
Proof. induction s; simpl; [reflexivity|]. now rewrite lowerChar_ws, IHs. Qed.

Lemma toLowerCase_ascii (s k : string) :
  all isAsciiChar k = true -> toLowerCase s = k -> asciiLowerCase s = k.
Proof.
  revert k. induction s as [|c s IH]; intros k Hk E; simpl in *; [exact E|].
  destruct k as [|a k]; [discriminate|]. injection E as Ec Es. subst a k.
  simpl in Hk. apply andb_true_iff in Hk as [Ha Hk].
  rewrite (lowerChar_ascii c Ha). f_equal. now apply IH.
Qed.

Lemma asciiLowerCase_ascii (s k : string) :
  all isAsciiChar k = true -> asciiLowerCase s = k -> toLowerCase s = k.
Proof.
  revert k. induction s as [|c s IH]; intros k Hk E; simpl in *; [exact E|].
  destruct k as [|a k]; [discriminate|]. injection E as Ec Es. subst a k.
  simpl in Hk. apply andb_true_iff in Hk as [Ha Hk].
  rewrite (asciiLower_ascii c Ha). f_equal. now apply IH.
Qed.

Lemma trimStart_split (y : string) :
  exists w, all isWhiteSpace w = true /\ y = w ++ trimStart y.
Proof.
  induction y as [|c y (w & Hw & IH)]; simpl.
  - exists "". auto.
  - destruct (isWhiteSpace c) eqn:Hc.
    + exists (String c w). simpl. rewrite Hc, Hw. split; [reflexivity|]. now f_equal.
    + exists "". auto.
Qed.

(** The test of the source on the operator's line is the test for
    [skip]. *)
Lemma skip_test_spec (userInput : string) :
  (trim (toLowerCase userInput) =? "skip")%string = true <-> isSkipInput userInput.
Proof.
  rewrite String.eqb_eq. unfold isSkipInput. split.
  - intros H.
    destruct (trimStart_split (toLowerCase userInput)) as (w1 & Hw1 & E1).
    destruct (trimEnd_split (trimStart (toLowerCase userInput))) as (w2 & Hw2 & E2).
    fold (trim (toLowerCase userInput)) in E2. rewrite H in E2. rewrite E2 in E1.
    apply toLowerCase_app_inv in E1 as (x1 & x23 & -> & H1 & H23).
    apply toLowerCase_app_inv in H23 as (x2 & x3 & -> & H2 & H3).
    exists x1, x2, x3. repeat split.
    + now rewrite <- toLowerCase_ws, H1.
    + now rewrite <- toLowerCase_ws, H3.
    + now apply toLowerCase_ascii.
  - intros (w1 & mid & w2 & -> & Hw1 & Hw2 & Hm).
    rewrite !toLowerCase_app, (asciiLowerCase_ascii mid "skip" eq_refl Hm).
    unfold trim. rewrite trimStart_app_ws by now rewrite toLowerCase_ws.
    change (trimStart ("skip" ++ toLowerCase w2)) with ("skip" ++ toLowerCase w2).
    rewrite trimEnd_app_ws by now rewrite toLowerCase_ws. reflexivity.
Qed.

(** ** Authentication orchestrator *)

Lemma avoids_ret (P : obs -> Prop) (A : Type) (a : A) : avoids P (ret a).
Proof. exact I. Qed.

Lemma avoids_throw (P : obs -> Prop) (A : Type) (e : exn) : avoids P (@throw A e).
Proof. exact I. Qed.

Lemma avoids_perform (P : obs -> Prop) (X : Type) (c : call X) :
  (forall x, ~ P (observe c x)) -> avoids P (perform c).
Proof. intros H x. split; [apply H|exact I]. Qed.

Lemma avoids_await (P : obs -> Prop) (X : Type) (c : call (outcome X)) :
  (forall a, ~ P (observe c a)) -> avoids P (await c).
Proof. intros H a. split; [apply H|]. destruct a; exact I. Qed.

Ltac prove_avoids :=
  repeat first
    [ match goal with
      | |- avoids _ (ret _) => exact I
      | |- avoids _ (throw _) => exact I
      | |- avoids _ (Ret _) => exact I
      end
    | apply avoids_perform; intros ? [? ?]; discriminate
    | apply avoids_await; intros ? [? ?]; discriminate
    | apply avoids_bind
    | apply avoids_try_catch
    | assumption
    | match goal with
      | |- forall _, _ => intro
      | |- avoids _ (if ?x then _ else _) => destruct x
      | |- avoids _ (match ?x with _ => _ end) => destruct x
      end ].

Lemma analyze_quiet (p : Page) :
  avoids isOperatorInput (analyzeAuthenticationState p).
Proof. unfold analyzeAuthenticationState. prove_avoids. Qed.

Lemma clickLoginButton_quiet (p : Page) (a : AuthAnalysis) :
  avoids isOperatorInput (clickLoginButton p a).
Proof.
  pose proof (analyze_quiet p).
  unfold clickLoginButton, catch_ignore. prove_avoids.
Qed.

Lemma attemptAutofill_quiet (p : Page) (c : option Credentials) (a : AuthAnalysis) :
  avoids isOperatorInput (attemptAutofill p c a).
Proof.
  pose proof (analyze_quiet p).
  unfold attemptAutofill, catch_ignore. prove_avoids.
Qed.

Lemma getDebugUrl_quiet : avoids isOperatorInput getDebugUrl.
Proof. unfold getDebugUrl. prove_avoids. Qed.

Lemma openDebuggerUrl_quiet (sessionId : option string) :
  avoids isOperatorInput (openDebuggerUrl sessionId).
Proof. unfold openDebuggerUrl. prove_avoids. Qed.

Lemma afterUserInput_quiet (p : Page) (url userInput : string) :
  avoids isOperatorInput (afterUserInput p url userInput).
Proof.
  pose proof (analyze_quiet p).
  unfold afterUserInput. prove_avoids.
Qed.

Create HintDb quiet.
#[local] Hint Resolve analyze_quiet clickLoginButton_quiet attemptAutofill_quiet
  getDebugUrl_quiet openDebuggerUrl_quiet afterUserInput_quiet : quiet.

(** A stretch of a run without operator input lies before the input. *)
Lemma peel (s l pre post : list obs) (x : string) :
  Forall (fun o => ~ isOperatorInput o) s ->
  (s ++ l)%list = (pre ++ o_stdin_once_data x :: post)%list ->
  exists pre', pre = (s ++ pre')%list /\ l = (pre' ++ o_stdin_once_data x :: post)%list.
Proof.
  revert pre. induction s as [|a s IH]; intros pre Hs E.
  - exists pre. auto.
  - inversion Hs as [|? ? Ha Hs']; subst. destruct pre as [|b pre]; simpl in E.
    + inversion E; subst. exfalso. apply Ha. now exists x.
    + inversion E; subst. destruct (IH pre Hs' H1) as (pre' & -> & ->).
      exists pre'. auto.
Qed.

Ltac no_input :=
  repeat first
    [ solve [eapply avoids_runs; [|eassumption]; auto with quiet]
    | apply Forall_nil
    | apply Forall_cons; [intros [? ?]; discriminate|]
    | apply Forall_app; split ].

Lemma peel_last (s pre post : list obs) (x : string) :
  Forall (fun o => ~ isOperatorInput o) s ->
  s <> (pre ++ o_stdin_once_data x :: post)%list.
Proof.
  intros Hs E. rewrite <- (app_nil_r s) in E.
  apply peel in E as (pre' & _ & E); [|exact Hs]. now destruct pre'.
Qed.

Ltac peel_all :=
  repeat match goal with
  | H : (?s ++ ?l)%list = (?pre ++ o_stdin_once_data ?x :: ?post)%list |- _ =>
      let pre' := fresh "pre" in
      apply peel in H as (pre' & -> & H); [|solve [cbn [observe]; no_input]]
  | H : ?s = (?pre ++ o_stdin_once_data ?x :: ?post)%list |- _ =>
      exfalso; apply peel_last in H; [exact H|solve [cbn [observe]; no_input]]
  end.

(** The analyzer did not throw. *)
Ltac analyzer_threw :=
  match goal with
  | H : runs (analyzeAuthenticationState _) _ (Throw _) |- _ =>
      exfalso; apply analyze_runs in H as [(? & _ & ?) | (? & ? & _ & ?)];
      discriminate
  end.

(** The operator is asked at most once, and what follows the line read is
    a run of [afterUserInput] on that line, on the page that the
    orchestrator opened. *)
Lemma manual_input (url domain : string) (t : list obs) (r : result unit)
    (pre post : list obs) (userInput : string) :
  runs (authenticateToWebsite url domain) t r ->
  t = (pre ++ o_stdin_once_data userInput :: post)%list ->
  exists p pre',
    pre = o_context_awaitActivePage 10000 (Returned p)
          :: o_page_goto p url (Returned tt) :: pre'
    /\ runs (afterUserInput p url userInput) post r.
Proof.
  unfold authenticateToWebsite, login, fallbackPaths, manualLogin, waitForUserInput.
  intros H E.
  repeat inv_runs_step; try analyzer_threw; peel_all.
  cbn [observe List.app] in E.
  match type of E with
  | _ = (?q ++ _)%list => destruct q as [|o q]; inversion E; subst
  end.
  - cbn [observe List.app].
    repeat match goal with u : unit |- _ => destruct u end. eauto.
  - exfalso.
    match goal with
    | H : runs (afterUserInput _ _ _) (?q ++ _ :: ?post)%list _ |- _ =>
        apply (peel_last (q ++ o_stdin_once_data userInput :: post)%list
                 q post userInput); [no_input|reflexivity]
    end.
Qed.

(** The operator is asked at most once in a run. *)
Lemma operator_asked_once (url domain : string) (t : list obs) (r : result unit)
    (pre post : list obs) (userInput : string) :
  runs (authenticateToWebsite url domain) t r ->
  t = (pre ++ o_stdin_once_data userInput :: post)%list ->
  (forall y, ~ In (o_stdin_once_data y) pre)
  /\ (forall y, ~ In (o_stdin_once_data y) post).
Proof.
  intros H E.
  assert (Hquiet : forall pre' x post',
             t = (pre' ++ o_stdin_once_data x :: post')%list ->
             forall y, ~ In (o_stdin_once_data y) post').
  { intros pre' x post' E' y Hin.
    destruct (manual_input url domain t r pre' post' x H E') as (p & _ & _ & Hafter).
    pose proof (avoids_runs _ _ _ (afterUserInput_quiet p url x) _ _ Hafter) as Hq.
    rewrite Forall_forall in Hq. apply (Hq _ Hin). now exists y. }
  split; [|exact (Hquiet pre userInput post E)].
  intros y Hin. apply in_split in Hin as (l1 & l2 & ->).
  apply (Hquiet l1 y (l2 ++ o_stdin_once_data userInput :: post)%list
           ltac:(now rewrite E, <- app_assoc) userInput).
  apply in_or_app. right. now left.
Qed.

(** C2, amended.  When the line read from the operator in the manual
    step is [skip], in any letter case and with any white space around
    it, all that follows is one line on the console and the navigation
    of the page that was opened back to the original address; the
    orchestrator then ends as that navigation ends, normally when it
    succeeds and with the error of the navigation when it fails, and
    never with [AuthenticationIncomplete]. *)
Theorem skip_semantics (url domain : string) (t : list obs) (r : result unit)
    (pre post : list obs) (userInput : string) :
  runs (authenticateToWebsite url domain) t r ->
  t = (pre ++ o_stdin_once_data userInput :: post)%list ->
  isSkipInput userInput ->
  exists p pre' navigation,
    pre = o_context_awaitActivePage 10000 (Returned p)
          :: o_page_goto p url (Returned tt) :: pre'
    /\ post = [o_console_log "Skipping authentication, returning to original page...";
               o_page_goto p url navigation]
    /\ r = settle navigation
    /\ (navigation = Returned tt -> r = Ok tt)
    /\ r <> Throw AuthenticationIncomplete.
Proof.
  intros H E Hskip.
  destruct (manual_input url domain t r pre post userInput H E) as (p & pre' & -> & Hafter).
  apply skip_test_spec in Hskip.
  unfold afterUserInput in Hafter. rewrite Hskip in Hafter. inv_runs.
  match goal with
  | |- context [settle ?x] => exists p, pre', x
  end.
  repeat split.
  - intros ->. reflexivity.
  - match goal with |- settle ?x <> _ => destruct x; discriminate end.
Qed.

(** C3.  When the line read from the operator is anything but [skip],
    what follows is exactly one run of the analyzer, and its analysis
    decides: without [requiresAuth] the orchestrator confirms and returns,
    with [requiresAuth] it throws [AuthenticationIncomplete] at once. *)
Theorem final_analysis_decides (url domain : string) (t : list obs)
    (r : result unit) (pre post : list obs) (userInput : string) :
  runs (authenticateToWebsite url domain) t r ->
  t = (pre ++ o_stdin_once_data userInput :: post)%list ->
  ~ isSkipInput userInput ->
  exists p analysisRun analysis,
    runs (analyzeAuthenticationState p) analysisRun (Ok analysis)
    /\ ((requiresAuth analysis = false
         /\ post = (analysisRun ++ [o_console_log "Authentication confirmed."])%list
         /\ r = Ok tt)
        \/ (requiresAuth analysis = true
            /\ post = analysisRun
            /\ r = Throw AuthenticationIncomplete)).
Proof.
  intros H E Hskip.
  destruct (manual_input url domain t r pre post userInput H E) as (p & pre' & -> & Hafter).
  unfold afterUserInput in Hafter.
  destruct (trim (toLowerCase userInput) =? "skip")%string eqn:Et.
  - exfalso. apply Hskip. now apply skip_test_spec.
  - repeat inv_runs_step; try analyzer_threw.
    + exists p, x, a. split; [assumption|]. right.
      cbn [observe List.app]. rewrite app_nil_r. auto.
    + exists p, x, a. split; [assumption|]. left.
      cbn [observe List.app]. destruct x1. auto.
Qed.

(** Two runs of the analyzer that start at the same place in a run are
    the same run. *)
Ltac same_analysis :=
  match goal with
  | Ha : runs (analyzeAuthenticationState ?q) ?t1 (Ok ?a),
    Hb : runs (analyzeAuthenticationState ?q) ?t1' (Ok ?b),
    Er : (?t1 ++ ?t2)%list = (?t1' ++ ?t2')%list |- _ =>
      destruct (runs_prefix_det _ (analyzeAuthenticationState q)
                  t1 (Ok a) t1' (Ok b) t2 t2' Ha Hb Er)
        as (-> & Ea & <-);
      inversion Ea; subst a; clear Ha Er
  end.

(** C5.  When the first analysis does not ask for a login, the
    orchestrator says so and returns: the run has no credential lookup
    and no call of the manual step, so no operator input is awaited. *)
Theorem auth_short_circuit (url domain : string) (t : list obs) (r : result unit)
    (p : Page) (firstRun rest : list obs) (first : AuthAnalysis) :
  runs (authenticateToWebsite url domain) t r ->
  t = o_context_awaitActivePage 10000 (Returned p)
      :: o_page_goto p url (Returned tt) :: (firstRun ++ rest)%list ->
  runs (analyzeAuthenticationState p) firstRun (Ok first) ->
  requiresAuth first = false ->
  r = Ok tt
  /\ rest = [o_console_log "No authentication required."]
  /\ existsb isCredentialLookup t = false
  /\ existsb isManualFallback t = false.
Proof.
  unfold authenticateToWebsite. intros H E Hfirst Hreq.
  repeat inv_runs_step; try analyzer_threw;
    cbn [observe List.app] in *; try discriminate E.
  all: inversion E; subst.
  all: same_analysis.
  - repeat match goal with u : unit |- _ => destruct u end.
    repeat split; auto;
      apply analyze_runs in Hfirst as [(a & -> & _) | (v & u & -> & _)]; reflexivity.
  - match goal with
    | Hb : negb (requiresAuth first) = false |- _ =>
        rewrite Hreq in Hb; discriminate Hb
    end.
Qed.

(** The click on the login control in a run: when the first analysis
    asks for a login and names a login control, the credentials are
    looked up, the click is announced and attempted, and the fallback
    paths follow, after a new analysis when the click succeeded. *)
Lemma login_click_structure (url domain : string) (t : list obs) (r : result unit)
    (p : Page) (firstRun rest : list obs) (first : AuthAnalysis) (button : string) :
  runs (authenticateToWebsite url domain) t r ->
  t = o_context_awaitActivePage 10000 (Returned p)
      :: o_page_goto p url (Returned tt) :: (firstRun ++ rest)%list ->
  runs (analyzeAuthenticationState p) firstRun (Ok first) ->
  requiresAuth first = true ->
  loginButton first = Some button ->
  button <> "" ->
  exists credentials click rest',
    rest = o_logAuthenticationAnalysis first domain
           :: o_lookupCredentialsIn1Password domain credentials
           :: o_console_log_credentials credentials
           :: o_console_log ("Clicking login button: " ++ dquote ++ button ++ dquote)
           :: o_stagehand_act button click :: rest'
    /\ match click with
       | Threw v =>
           exists rest'',
             rest' = o_console_log ("Failed to click login button: "
                                    ++ message_of (FromCallee v)) :: rest''
             /\ runs (fallbackPaths p url credentials first) rest'' r
       | Returned _ =>
           exists wait secondRun second rest'',
             rest' = o_page_waitForLoadState p 5000 wait
                     :: (secondRun ++ rest'')%list
             /\ runs (analyzeAuthenticationState p) secondRun (Ok second)
             /\ runs (fallbackPaths p url credentials second) rest'' r
       end.
Proof.
  unfold authenticateToWebsite, login. intros H E Hfirst Hreq Hbutton Hne.
  apply String.eqb_neq in Hne.
  repeat inv_runs_step; try analyzer_threw;
    cbn [observe List.app] in *; try discriminate E.
  all: inversion E; subst; same_analysis.
  all: try match goal with
           | Hb : negb (requiresAuth _) = true |- _ =>
               rewrite Hreq in Hb; discriminate Hb
           end.
  all: match goal with
       | Hc : runs (clickLoginButton _ _) _ _ |- _ =>
           unfold clickLoginButton in Hc; rewrite Hbutton, Hne in Hc
       end.
  all: repeat inv_runs_step; try analyzer_threw; cbn [observe List.app] in *.
  all: rewrite ?app_nil_r; do 3 eexists; (split; [reflexivity|]); cbv beta iota.
  - do 4 eexists. split; [reflexivity|]. split; eassumption.
  - do 4 eexists. split; [reflexivity|]. split; eassumption.
  - eexists. split; [reflexivity|eassumption].
Qed.

(** ** Action discoverer *)

Ltac not_execution := intros ? (? & ? & ? & ?); discriminate.

Lemma logActions_quiet (actions : list DiscoveredAction) :
  forall i, avoids isExecution (logActions i actions).
Proof.
  induction actions as [|a l IH]; intros i; cbn [logActions]; [exact I|].
  apply avoids_bind; [apply avoids_perform; not_execution|]. intros _. apply IH.
Qed.

Lemma handleResult_quiet (syntaxErrorMessage : string -> string)
    (zodErrorMessage : list Issue -> string) (result : AgentResult) :
  avoids isExecution (handleResult syntaxErrorMessage zodErrorMessage result).
Proof.
  unfold handleResult, parseAndValidate.
  destruct result as [|[m|]]; try exact I.
  destruct (m =? "")%string; [exact I|].
  apply avoids_bind; [apply avoids_perform; not_execution|]. intros _.
  apply avoids_bind.
  - destruct (JSON_parse _); [|exact I]. destruct (parse _ _); exact I.
  - intros actions.
    apply avoids_bind; [apply avoids_perform; not_execution|]. intros _.
    apply avoids_bind; [apply logActions_quiet|]. intros _. exact I.
Qed.

(** With a response that fails the validation, what follows the agent's
    answer throws the validation error. *)
Lemma handleResult_invalid (syntaxErrorMessage : string -> string)
    (zodErrorMessage : list Issue -> string) (responseMessage : string)
    (parsed : JSON) (issues : list Issue)
    (t : list obs) (r : result (list DiscoveredAction)) :
  JSON_parse (cleanResponse responseMessage) = Some parsed ->
  parse DiscoveredActionsResponseSchema parsed = Invalid issues ->
  runs (handleResult syntaxErrorMessage zodErrorMessage
          (ResultObject (Some responseMessage))) t r ->
  r = Throw (FromCallee (ErrorObject (zodErrorMessage issues))).
Proof.
  intros Hparse Hinvalid. unfold handleResult, parseAndValidate.
  destruct (responseMessage =? "")%string eqn:Em.
  - apply String.eqb_eq in Em. subst. vm_compute in Hparse. discriminate Hparse.
  - rewrite Hparse, Hinvalid. intros H. inv_runs. reflexivity.
Qed.

(** Where in a list an element is. *)
Ltac in_cases Hin :=
  repeat match type of Hin with
         | In _ (_ :: _) => destruct Hin as [Hin|Hin]; [try discriminate Hin|]
         | In _ (_ ++ _)%list => apply in_app_or in Hin as [Hin|Hin]
         | In _ [] => destruct Hin
         end.

(** C1.  When the agent's message parses, after the cleanup, as a JSON
    object whose [actions] hold an action object without [description]
    (whatever the other actions are, so also next to one that conforms),
    the validation reports the path of the missing field and
    [discoverActions] throws with the message of that validation error:
    it returns no action at all. *)
Theorem discovery_all_or_nothing (syntaxErrorMessage : string -> string)
    (zodErrorMessage : list Issue -> string) (domain : string)
    (t : list obs) (r : result (list DiscoveredAction))
    (agent : Agent) (responseMessage : string)
    (top : list (string * JSON)) (actions : list JSON) (n : nat) (action : JSON) :
  runs (discoverActions syntaxErrorMessage zodErrorMessage domain) t r ->
  In (o_agent_execute agent 20 (Returned (ResultObject (Some responseMessage)))) t ->
  JSON_parse (cleanResponse responseMessage) = Some (JObject top) ->
  Zod.get "actions" top = Some (JArray actions) ->
  nth_error actions n = Some action ->
  missingDescription action ->
  exists issues,
    parse DiscoveredActionsResponseSchema (JObject top) = Invalid issues
    /\ In (descriptionRequired [Key "actions"; Index n]) issues
    /\ r = Throw (Error ("Failed to discover actions: " ++ zodErrorMessage issues))
    /\ forall catalog, r <> Ok catalog.
Proof.
  intros H Hin Hparse Hactions Hn Hmissing.
  destruct (response_missing_description top actions n action Hactions Hn Hmissing)
    as (issues & Hinvalid & Hissue).
  exists issues. split; [exact Hinvalid|]. split; [exact Hissue|].
  assert (Hr : r = Throw (Error ("Failed to discover actions: " ++ zodErrorMessage issues)));
    [|split; [exact Hr|rewrite Hr; discriminate]].
  unfold discoverActions, geminiApiKey in H.
  repeat inv_runs_step; cbn [observe List.app] in *; in_cases Hin.
  all: try (exfalso;
            match goal with
            | Hr : runs (handleResult _ _ _) ?th _, Hi : In _ ?th |- _ =>
                pose proof (avoids_runs _ _ _ (handleResult_quiet _ _ _) _ _ Hr) as Hq;
                rewrite Forall_forall in Hq; apply (Hq _ Hi);
                do 3 eexists; reflexivity
            end).
  all: inversion Hin; subst;
    match goal with
    | Hr : runs (handleResult _ _ _) _ _ |- _ =>
        apply (handleResult_invalid _ _ _ _ _ _ _ Hparse Hinvalid) in Hr;
        inversion Hr; subst; reflexivity
    end.
Qed.

(** ** Sample runs *)

Lemma sampleSkipLine_isSkip : isSkipInput sampleSkipLine.
Proof. exists "  ", "SKIP", newline. repeat split; reflexivity. Qed.

Lemma skip_semantics_witness :
  exists p pre' navigation,
    sampleBeforeInput
    = o_context_awaitActivePage 10000 (Returned p)
      :: o_page_goto p sampleUrl (Returned tt) :: pre'
    /\ sampleAfterSkip
       = [o_console_log "Skipping authentication, returning to original page...";
          o_page_goto p sampleUrl navigation]
    /\ Ok tt = settle navigation
    /\ (navigation = Returned tt -> Ok tt = Ok tt)
    /\ Ok tt <> Throw AuthenticationIncomplete.
Proof.
  apply (skip_semantics sampleUrl sampleDomain
           (sampleBeforeInput ++ o_stdin_once_data sampleSkipLine :: sampleAfterSkip)%list
           (Ok tt) sampleBeforeInput sampleAfterSkip sampleSkipLine).
  - vm_compute. reflexivity.
  - reflexivity.
  - exact sampleSkipLine_isSkip.
Defined.

(** C2 as stated fails when the navigation back fails: in this run the
    operator skips, the page does not load, and the orchestrator does
    not return: it throws what the navigation threw. *)
Lemma skip_navigation_counterexample :
  isSkipInput sampleSkipLine
  /\ runs (authenticateToWebsite sampleUrl sampleDomain)
          (sampleBeforeInput ++ o_stdin_once_data sampleSkipLine :: sampleFailedReturn)%list
          (Throw (FromCallee (ErrorObject "net::ERR_CONNECTION_RESET")))
  /\ ~ runs (authenticateToWebsite sampleUrl sampleDomain)
            (sampleBeforeInput ++ o_stdin_once_data sampleSkipLine :: sampleFailedReturn)%list
            (Ok tt).
Proof.
  split; [exact sampleSkipLine_isSkip|].
  split; [vm_compute; reflexivity|].
  intros H. vm_compute in H. discriminate H.
Qed.

Lemma final_analysis_decides_witness :
  exists p analysisRun analysis,
    runs (analyzeAuthenticationState p) analysisRun (Ok analysis)
    /\ ((requiresAuth analysis = false
         /\ sampleAfterEnter
            = (analysisRun ++ [o_console_log "Authentication confirmed."])%list
         /\ Ok tt = Ok tt)
        \/ (requiresAuth analysis = true
            /\ sampleAfterEnter = analysisRun
            /\ Ok tt = Throw AuthenticationIncomplete)).
Proof.
  apply (final_analysis_decides sampleUrl sampleDomain
           (sampleBeforeInput ++ o_stdin_once_data newline :: sampleAfterEnter)%list
           (Ok tt) sampleBeforeInput sampleAfterEnter newline).
  - vm_compute. reflexivity.
  - reflexivity.
  - intros H. apply skip_test_spec in H. vm_compute in H. discriminate H.
Defined.

Lemma auth_short_circuit_witness :
  Ok tt = Ok tt
  /\ [o_console_log "No authentication required."]
     = [o_console_log "No authentication required."]
  /\ existsb isCredentialLookup
       (sampleOpening
        ++ [o_context_setActivePage samplePage; o_stagehand_extract (Returned loggedIn)]
        ++ [o_console_log "No authentication required."])%list = false
  /\ existsb isManualFallback
       (sampleOpening
        ++ [o_context_setActivePage samplePage; o_stagehand_extract (Returned loggedIn)]
        ++ [o_console_log "No authentication required."])%list = false.
Proof.
  apply (auth_short_circuit sampleUrl sampleDomain
           (sampleOpening
            ++ [o_context_setActivePage samplePage;
                o_stagehand_extract (Returned loggedIn)]
            ++ [o_console_log "No authentication required."])%list
           (Ok tt) samplePage
           [o_context_setActivePage samplePage; o_stagehand_extract (Returned loggedIn)]
           [o_console_log "No authentication required."] loggedIn).
  - vm_compute. reflexivity.
  - reflexivity.
  - vm_compute. reflexivity.
  - reflexivity.
Defined.

(** C8 as stated fails when the click fails: in this run the click on the
    login control throws, the orchestrator goes on to the manual step,
    the operator skips, and the analyzer is not run again after the
    click.  It also fails when the analysis names a login control and
    asks for no login: in the second run the orchestrator returns at
    once and attempts no click. *)
Lemma click_failure_counterexample :
  runs (authenticateToWebsite sampleUrl sampleDomain)
       (sampleOpening ++ sampleFirstRun ++ sampleBeforeClick
        ++ sampleFailedClick
           :: (sampleManualStep
               ++ o_stdin_once_data sampleSkipLine :: sampleAfterSkip))%list
       (Ok tt)
  /\ existsb isExtraction
       (sampleManualStep ++ o_stdin_once_data sampleSkipLine :: sampleAfterSkip)%list
     = false
  /\ loginButton buttonWithoutLogin = Some sampleButton
  /\ runs (authenticateToWebsite sampleUrl sampleDomain) sampleNoLoginRun (Ok tt)
  /\ In (o_stagehand_extract (Returned buttonWithoutLogin)) sampleNoLoginRun
  /\ existsb isBrowserAction sampleNoLoginRun = false.
Proof.
  repeat split; try (vm_compute; reflexivity).
  unfold sampleNoLoginRun, sampleOpening. simpl. auto.
Qed.

Lemma discovery_all_or_nothing_witness :
  exists issues,
    parse DiscoveredActionsResponseSchema (JObject sampleCatalog) = Invalid issues
    /\ In (descriptionRequired [Key "actions"; Index 1]) issues
    /\ @Throw (list DiscoveredAction) (Error "Failed to discover actions: ZodError")
       = Throw (Error ("Failed to discover actions: " ++ "ZodError"))
    /\ forall catalog : list DiscoveredAction,
         Throw (Error "Failed to discover actions: ZodError") <> Ok catalog.
Proof.
  apply (discovery_all_or_nothing (fun _ => "SyntaxError") (fun _ => "ZodError")
           sampleDomain sampleDiscoveryRun
           (Throw (Error "Failed to discover actions: ZodError"))
           (agent_handle 0) sampleResponse sampleCatalog
           [conformingAction; actionWithoutDescription] 1 actionWithoutDescription).
  - vm_compute. reflexivity.
  - simpl. auto 10.
  - vm_compute. reflexivity.
  - reflexivity.
  - reflexivity.
  - eexists. split; reflexivity.
Defined.

(** The conforming action alone passes the validation. *)
Lemma conformingAction_valid :
  parse DiscoveredActionsResponseSchema (JObject [("actions", JArray [conformingAction])])
  = Valid [{| name := "search_site";
              description := "Search the site";
              steps := ["Type {query} into the search field"];
              parameters := None;
              extractionSchema := None |}].
Proof. reflexivity. Qed.

Lemma analyzer_never_throws_witness :
  exists url a note,
    [o_context_setActivePage samplePage;
     o_stagehand_extract (Threw (ErrorObject "timeout"));
     o_page_url samplePage "https://example.com/Account/Login"]
    = [o_context_setActivePage samplePage;
       o_stagehand_extract (Threw (ErrorObject "timeout"));
       o_page_url samplePage url]
    /\ Ok (heuristicAnalysis (FromCallee (ErrorObject "timeout"))
             "https://example.com/Account/Login") = Ok a
    /\ (requiresAuth a = true <-> matchesLoginPattern url)
    /\ summary a = Some ("Heuristic result after extract error" ++ note).
Proof.
  destruct (analyzer_never_throws samplePage) as (_ & _ & H).
  apply (H _ _ (ErrorObject "timeout")).
  - vm_compute. reflexivity.
  - simpl. auto.
Defined.

(** * Further properties of the code *)

(** ** URL normalizer: white space around the input *)

Lemma trim_outer_space (w1 w2 s : string) :
  all isWhiteSpace w1 = true -> all isWhiteSpace w2 = true ->
  trim (w1 ++ s ++ w2) = trim s.
Proof.
  intros H1 H2. unfold trim. rewrite (trimStart_app_ws _ _ H1).
  destruct (trimStart s) as [|c r] eqn:E.
  - assert (Hs : all isWhiteSpace s = true).
    { clear - E. induction s as [|c s IH]; [reflexivity|]. simpl in *.
      destruct (isWhiteSpace c); [now apply IH|discriminate]. }
    assert (Hall : all isWhiteSpace (s ++ w2) = true) by now rewrite all_app, Hs, H2.
    rewrite <- (append_empty_r (s ++ w2)), (trimStart_app_ws _ _ Hall). reflexivity.
  - rewrite trimStart_app by (rewrite E; discriminate).
    rewrite E. now apply trimEnd_app_ws.
Qed.

(** X1.  White space around the input does not matter to [normalizeUrl]:
    an input with any white space before and after it is normalized to
    the same URL, or refused with the same error, as the input alone. *)
Theorem normalizeUrl_ignores_outer_space (URL : Type)
    (new_URL : string -> option URL) (w1 w2 input : string) :
  all isWhiteSpace w1 = true -> all isWhiteSpace w2 = true ->
  normalizeUrl new_URL (w1 ++ input ++ w2) = normalizeUrl new_URL input.
Proof.
  intros H1 H2. unfold normalizeUrl. now rewrite (trim_outer_space _ _ _ H1 H2).
Qed.

Lemma normalizeUrl_ignores_outer_space_witness :
  normalizeUrl RefURL.parse ("  " ++ "example.com" ++ newline)
  = normalizeUrl RefURL.parse "example.com".
Proof.
  apply (normalizeUrl_ignores_outer_space RefURL.t RefURL.parse "  " newline "example.com");
    reflexivity.
Defined.

(** ** Model selection: the cache *)

(** X2.  The model is selected once in a process: after a call of
    [getModel] that returned a model, every later call returns that same
    model and changes nothing, whatever the environment then says; in
    particular it writes no further line to the console. *)
Theorem getModel_selects_once (env : Env) (st : ModelState) (m : LanguageModel) :
  fst (getModel env st) = Ok m ->
  forall env', getModel env' (snd (getModel env st)) = (Ok m, snd (getModel env st)).
Proof.
  intros H env'. apply getModel_cached. revert H. unfold getModel, selectModel.
  destruct (cachedModel st) as [m0|] eqn:Ec; cbn [fst snd].
  - intros H; inversion H; subst. exact Ec.
  - repeat match goal with
           | |- context [if ?b then _ else _] => destruct b
           end; cbn [fst snd cachedModel]; intros H; inversion H; reflexivity.
Qed.

Lemma getModel_selects_once_witness :
  getModel {| MODEL_PROVIDER := "mistral/large"; MODEL_API_KEY := "other" |}
    (snd (getModel {| MODEL_PROVIDER := "openai/gpt-4o"; MODEL_API_KEY := "k" |}
            freshModelState))
  = (Ok {| factory := createOpenAI; apiKey := "k"; modelName := "gpt-4o" |},
     {| cachedModel :=
          Some {| factory := createOpenAI; apiKey := "k"; modelName := "gpt-4o" |};
        stderr := ["Using model: openai/gpt-4o"] |}).
Proof.
  apply (getModel_selects_once
           {| MODEL_PROVIDER := "openai/gpt-4o"; MODEL_API_KEY := "k" |}
           freshModelState
           {| factory := createOpenAI; apiKey := "k"; modelName := "gpt-4o" |}
           eq_refl).
Defined.

(** X3.  A failed selection is not remembered.  When [getModel] throws,
    it throws [UnsupportedModelProvider] for the provider string it read,
    the cache stays empty, and a later call in an environment with a
    recognized prefix selects the model of that environment. *)
Theorem getModel_failure_not_cached (env : Env) (st : ModelState) (e : exn) :
  fst (getModel env st) = Throw e ->
  e = UnsupportedModelProvider (MODEL_PROVIDER env)
  /\ cachedModel (snd (getModel env st)) = None
  /\ forall env' pre f,
       In (pre, f) recognizedPrefixes ->
       startsWith (MODEL_PROVIDER env') pre = true ->
       fst (getModel env' (snd (getModel env st))) = Ok (modelFor pre f env').
Proof.
  intros H.
  assert (Hc : e = UnsupportedModelProvider (MODEL_PROVIDER env)
               /\ cachedModel (snd (getModel env st)) = None).
  { revert H. unfold getModel, selectModel.
    destruct (cachedModel st) as [m0|] eqn:Ec; cbn [fst snd]; [discriminate|].
    repeat match goal with
           | |- context [if ?b then _ else _] => destruct b
           end; cbn [fst snd cachedModel]; intros H; inversion H; auto. }
  destruct Hc as [He Hc]. split; [exact He|]. split; [exact Hc|].
  intros env' pre f Hin Hp.
  destruct (getModel_first_call env' (snd (getModel env st)) Hc) as [_ Hok].
  now destruct (Hok pre f Hin Hp).
Qed.

Lemma getModel_failure_not_cached_witness :
  Error "Unsupported model provider: gpt-4o. Must start with openai/, anthropic/, google/, or xai/"
  = UnsupportedModelProvider "gpt-4o"
  /\ fst (getModel {| MODEL_PROVIDER := "openai/gpt-4o"; MODEL_API_KEY := "k" |}
            (snd (getModel {| MODEL_PROVIDER := "gpt-4o"; MODEL_API_KEY := "k" |}
                    freshModelState)))
     = Ok {| factory := createOpenAI; apiKey := "k"; modelName := "gpt-4o" |}.
Proof.
  destruct (getModel_failure_not_cached
              {| MODEL_PROVIDER := "gpt-4o"; MODEL_API_KEY := "k" |} freshModelState
              (Error "Unsupported model provider: gpt-4o. Must start with openai/, anthropic/, google/, or xai/")
              eq_refl) as (He & _ & Hok).
  split; [exact He|].
  apply (Hok {| MODEL_PROVIDER := "openai/gpt-4o"; MODEL_API_KEY := "k" |}
             "openai/" createOpenAI); [simpl; auto | reflexivity].
Defined.

(** ** Action discoverer: the runs *)

Lemma logActions_runs (actions : list DiscoveredAction) :
  forall i t r,
    runs (logActions i actions) t r <-> t = actionLines i actions /\ r = Ok tt.
Proof.
  induction actions as [|a l IH]; intros i t r; cbn [logActions actionLines].
  - apply runs_ret.
  - rewrite runs_bind. split.
    + intros (t1 & t2 & rm & -> & Hm & Hk).
      apply runs_perform in Hm as (x & -> & ->).
      apply IH in Hk as [-> ->]. auto.
    + intros [-> ->]. eexists _, _, (Ok tt). split; [|split].
      2: apply runs_perform; exists tt; auto.
      * reflexivity.
      * cbv beta iota. now apply IH.
Qed.

(** A value starts with a character that a JSON value can start with. *)
Lemma eqb_by_code (a c : ascii) :
  (nat_of_ascii c =? nat_of_ascii a)%nat = false -> Ascii.eqb a c = false.
Proof.
  intros H. apply Ascii.eqb_neq. intros ->. now rewrite Nat.eqb_refl in H.
Qed.

Lemma parseValue_start (fuel : nat) (c : ascii) (r : string) (v : JSON) (rest : string) :
  JSONParse.parseValue fuel (String c r) = Some (v, rest) ->
  startsJsonValue c = true.
Proof.
  destruct fuel as [|fuel]; [discriminate|].
  destruct (startsJsonValue c) eqn:E; [reflexivity|]. intros H. exfalso.
  unfold startsJsonValue in E.
  repeat match type of E with
         | (_ || _ = false) => apply orb_false_iff in E as [E ?]
         end.
  cbn [JSONParse.parseValue] in H.
  repeat match goal with
         | Hc : (nat_of_ascii c =? ?n)%nat = false |- _ =>
             rewrite Hc in H
         end.
  assert (Ht : startsWith (String c r) "true" = false).
  { cbn [startsWith]. now rewrite (eqb_by_code "t" c H2). }
  assert (Hf : startsWith (String c r) "false" = false).
  { cbn [startsWith]. now rewrite (eqb_by_code "f" c H1). }
  assert (Hn : startsWith (String c r) "null" = false).
  { cbn [startsWith]. now rewrite (eqb_by_code "n" c H0). }
  rewrite Ht, Hf, Hn in H.
  unfold JSONParse.parseNumber, JSONParse.parseInt in H. rewrite H4, H3 in H.
  destruct (nat_of_ascii c =? 48)%nat eqn:E0; [|discriminate H].
  apply Nat.eqb_eq in E0. unfold JSONParse.isDigit in H3. rewrite E0 in H3.
  discriminate H3.
Qed.

Lemma trimEnd_first (c : ascii) (r : string) :
  isWhiteSpace c = false -> exists r', trimEnd (String c r) = String c r'.
Proof.
  intros Hc. cbn [trimEnd]. destruct (trimEnd r); [rewrite Hc|]; eauto.
Qed.

(** The cleanup keeps the first character of a message that does not
    start with a fence. *)
Lemma cleanResponse_first (responseMessage : string) (c : ascii) (rest : string) :
  trimStart responseMessage = String c rest ->
  isBacktick c = false ->
  exists rest', cleanResponse responseMessage = String c rest'.
Proof.
  intros E Hc. pose proof (trimStart_firstChar _ _ _ E) as Hw.
  unfold cleanResponse, trim. rewrite E.
  destruct (trimEnd_first c rest Hw) as [r1 ->].
  assert (E1 : RegExp.replace_fence_json (String c r1) = String c r1).
  { unfold RegExp.replace_fence_json. cbn [RegExp.startsWithIgnoreCase].
    now rewrite (canonicalize_backtick _ Hc). }
  assert (E2 : RegExp.replace_fence_open (String c r1) = String c r1).
  { unfold RegExp.replace_fence_open. cbn [startsWith].
    unfold isBacktick in Hc. rewrite Ascii.eqb_sym in Hc. now rewrite Hc. }
  rewrite E1, E2, replace_fence_close_eq.
  cbn [trimStart]. rewrite Hw.
  assert (E3 : (String c r1 =? "```")%string = false).
  { cbn [String.eqb]. unfold isBacktick in Hc. now rewrite Hc. }
  rewrite E3. cbn [trimStart]. rewrite Hw. apply (trimEnd_first _ _ Hw).
Qed.

Lemma JSON_parse_start (c : ascii) (r : string) (j : JSON) :
  isWhiteSpace c = false ->
  JSON_parse (String c r) = Some j -> startsJsonValue c = true.
Proof.
  intros Hw. unfold JSON_parse. cbn [JSONParse.skipWs].
  destruct (JSONParse.isJsonWs c) eqn:Ej.
  - apply isJsonWs_isWhiteSpace in Ej. congruence.
  - destruct (JSONParse.parseValue _ (String c r)) as [[v rest]|] eqn:Ev; [|discriminate].
    intros _. exact (parseValue_start _ _ _ _ _ Ev).
Qed.

Section DiscovererFacts.


Variable syntaxErrorMessage : string -> string.
Variable zodErrorMessage : list Issue -> string.

(** What follows the agent's answer, by the answer. *)
Lemma handleResult_runs (res : AgentResult) (t : list obs)
    (r : result (list DiscoveredAction)) :
  runs (handleResult syntaxErrorMessage zodErrorMessage res) t r ->
  match res with
  | NotAnObject =>
      t = [] /\ r = Throw (Error "Agent execution returned invalid result")
  | ResultObject None | ResultObject (Some "") =>
      t = [] /\ r = Throw (Error "Agent execution returned result without message property")
  | ResultObject (Some responseMessage) =>
      match JSON_parse (cleanResponse responseMessage) with
      | None =>
          t = [o_console_log ("Raw agent response: " ++ responseMessage)]
          /\ r = Throw (FromCallee (ErrorObject
                   (syntaxErrorMessage (cleanResponse responseMessage))))
      | Some parsed =>
          match parse DiscoveredActionsResponseSchema parsed with
          | Invalid issues =>
              t = [o_console_log ("Raw agent response: " ++ responseMessage)]
              /\ r = Throw (FromCallee (ErrorObject (zodErrorMessage issues)))
          | Valid actions =>
              t = successReport responseMessage actions /\ r = Ok actions
          end
      end
  end.
Proof.
  unfold handleResult, parseAndValidate.
  destruct res as [|[m|]]; try (now apply runs_throw).
  destruct m as [|c m]; [now apply runs_throw|].
  cbn [String.eqb]. 
  destruct (JSON_parse _) as [parsed|]; [destruct (parse _ _) as [actions|issues]|];
    intros H; repeat inv_runs_step; cbn [observe List.app] in *; auto.
  all: match goal with
       | H : runs (logActions _ _) _ _ |- _ => apply logActions_runs in H as [-> E]
       end; try discriminate E.
  unfold successReport. now rewrite app_nil_r.
Qed.

(** The runs of [discoverActions]: the opening, the request, and what
    follows the agent's answer; a failure anywhere is reported and
    thrown again in the words of [DiscoveryFailed]. *)
Lemma discoverActions_runs (domain : string) (t : list obs)
    (r : result (list DiscoveredAction)) :
  runs (discoverActions syntaxErrorMessage zodErrorMessage domain) t r ->
  exists gemini google created,
    match created with
    | Threw v =>
        t = (discoveryOpening domain gemini google created
             ++ failureReport (FromCallee v))%list
        /\ r = Throw (DiscoveryFailed (FromCallee v))
    | Returned agent =>
        exists executed,
          match executed with
          | Threw v =>
              t = (discoveryOpening domain gemini google created
                   ++ discoveryRequest agent executed
                   ++ failureReport (FromCallee v))%list
              /\ r = Throw (DiscoveryFailed (FromCallee v))
          | Returned res =>
              exists th rh,
                runs (handleResult syntaxErrorMessage zodErrorMessage res) th rh
                /\ match rh with
                   | Ok actions =>
                       t = (discoveryOpening domain gemini google created
                            ++ discoveryRequest agent executed ++ th)%list
                       /\ r = Ok actions
                   | Throw e =>
                       t = (discoveryOpening domain gemini google created
                            ++ discoveryRequest agent executed ++ th
                            ++ failureReport e)%list
                       /\ r = Throw (DiscoveryFailed e)
                   end
          end
    end.
Proof.
  unfold discoverActions, geminiApiKey. intros H.
  pattern t, r. match goal with |- ?P t r => set (G := P) end.
  repeat inv_runs_step; cbn [observe List.app] in *.
  all: subst G; cbv beta.
  all: match goal with
       | |- context [o_process_env "GEMINI_API_KEY" None
                     :: o_process_env _ ?g :: o_stagehand_agent _ _ ?c :: _] =>
           exists None, g, c
       | |- context [o_process_env "GEMINI_API_KEY" (Some ?s)
                     :: o_stagehand_agent _ _ ?c :: _] =>
           exists (Some s), None, c
       end; cbv beta iota.
  all: try (match goal with
            | |- context [o_agent_execute _ _ ?e :: _] => exists e
            end; cbv beta iota).
  all: try (do 2 eexists; split; [eassumption|]; cbv beta iota).
  all: unfold discoveryOpening, discoveryRequest, failureReport, keyReads, keyRead;
    cbn [List.app message_of];
    try match goal with
        | H : instanceofError _ = _ |- _ => rewrite H
        end;
    cbn [instanceofError]; rewrite <- ?app_assoc, ?app_nil_r; cbn [List.app].
  all: split; reflexivity.
Qed.

(** The request to the agent is made once, with twenty steps, and its
    answer decides the rest of the run. *)
Lemma discoverActions_answer (domain : string) (t : list obs)
    (r : result (list DiscoveredAction)) (agent : Agent) (n : nat)
    (executed : outcome AgentResult) :
  runs (discoverActions syntaxErrorMessage zodErrorMessage domain) t r ->
  In (o_agent_execute agent n executed) t ->
  n = 20
  /\ exists gemini google,
       match executed with
       | Threw v =>
           t = (discoveryOpening domain gemini google (Returned agent)
                ++ discoveryRequest agent executed
                ++ failureReport (FromCallee v))%list
           /\ r = Throw (DiscoveryFailed (FromCallee v))
       | Returned res =>
           exists th rh,
             runs (handleResult syntaxErrorMessage zodErrorMessage res) th rh
             /\ match rh with
                | Ok actions =>
                    t = (discoveryOpening domain gemini google (Returned agent)
                         ++ discoveryRequest agent executed ++ th)%list
                    /\ r = Ok actions
                | Throw e =>
                    t = (discoveryOpening domain gemini google (Returned agent)
                         ++ discoveryRequest agent executed ++ th
                         ++ failureReport e)%list
                    /\ r = Throw (DiscoveryFailed e)
                end
       end.
Proof.
  intros H Hin.
  assert (Hreport : forall e, ~ In (o_agent_execute agent n executed) (failureReport e)).
  { intros e. unfold failureReport. destruct (instanceofError e); intros Hi; in_cases Hi. }
  assert (Hopening : forall g1 g2 c,
             ~ In (o_agent_execute agent n executed) (discoveryOpening domain g1 g2 c)).
  { intros g1 g2 c. unfold discoveryOpening, keyReads.
    destruct g1; cbn [List.app]; intros Hi; in_cases Hi. }
  destruct (discoverActions_runs domain t r H) as (gemini & google & [a|v] & Hc).
  - destruct Hc as ([res|v] & Hc).
    + destruct Hc as (th & rh & Hh & Hc).
      assert (Hth : ~ In (o_agent_execute agent n executed) th).
      { intros Hi.
        pose proof (avoids_runs _ _ _ (handleResult_quiet _ _ _) _ _ Hh) as Hq.
        rewrite Forall_forall in Hq. apply (Hq _ Hi). do 3 eexists; reflexivity. }
      assert (E : o_agent_execute a 20 (Returned res) = o_agent_execute agent n executed).
      { destruct rh as [acts|e]; destruct Hc as [-> _];
          apply in_app_or in Hin as [Hin|Hin]; try (now apply Hopening in Hin);
          cbn [discoveryRequest List.app] in Hin;
          destruct Hin as [Hin|[Hin|Hin]]; try discriminate Hin; try exact Hin;
          try (now apply Hth in Hin);
          apply in_app_or in Hin as [Hin|Hin];
          [now apply Hth in Hin | now apply Hreport in Hin]. }
      inversion E; subst. split; [reflexivity|]. exists gemini, google, th, rh. auto.
    + destruct Hc as [-> ->].
      apply in_app_or in Hin as [Hin|Hin]; [now apply Hopening in Hin|].
      cbn [discoveryRequest List.app] in Hin.
      destruct Hin as [Hin|[Hin|Hin]]; try discriminate Hin;
        [|now apply Hreport in Hin].
      inversion Hin; subst. split; [reflexivity|]. exists gemini, google. auto.
  - destruct Hc as [-> _].
    apply in_app_or in Hin as [Hin|Hin];
      [now apply Hopening in Hin | now apply Hreport in Hin].
Qed.

(** X4.  Whatever goes wrong in [discoverActions], the creation of the
    agent, its execution, an answer without a message, the parsing or the
    validation, the caller sees one kind of failure: an [Error] whose
    message is [Failed to discover actions: ] followed by the message of
    the cause, which has been reported on the console before. *)
Theorem discoverActions_failure_wrapped (domain : string) (t : list obs) (e : exn) :
  runs (discoverActions syntaxErrorMessage zodErrorMessage domain) t (Throw e) ->
  exists cause,
    e = Error ("Failed to discover actions: " ++ message_of cause)
    /\ In (o_console_error ("Error during agent execution: " ++ message_of cause)) t.
Proof.
  intros H.
  assert (Hreport : forall pre cause,
             In (o_console_error ("Error during agent execution: " ++ message_of cause))
                (pre ++ failureReport cause)%list).
  { intros pre cause. apply in_or_app. right. now left. }
  destruct (discoverActions_runs domain t _ H) as (gemini & google & [a|v] & Hc).
  - destruct Hc as ([res|v] & Hc).
    + destruct Hc as (th & [acts|cause] & _ & -> & E); [discriminate E|].
      inversion E; subst. exists cause. split; [reflexivity|].
      rewrite !app_assoc. apply Hreport.
    + destruct Hc as [-> E]. inversion E; subst. exists (FromCallee v).
      split; [reflexivity|]. rewrite !app_assoc. apply Hreport.
  - destruct Hc as [-> E]. inversion E; subst. exists (FromCallee v).
    split; [reflexivity|]. apply Hreport.
Qed.

(** X5.  A catalog that [discoverActions] returns is the validated form
    of what the agent said: the run holds an answer of the agent whose
    message, once cleaned, parses as JSON and passes
    [DiscoveredActionsResponseSchema] with exactly that catalog. *)
Theorem discoverActions_sound (domain : string) (t : list obs)
    (actions : list DiscoveredAction) :
  runs (discoverActions syntaxErrorMessage zodErrorMessage domain) t (Ok actions) ->
  exists agent responseMessage parsed,
    In (o_agent_execute agent 20 (Returned (ResultObject (Some responseMessage)))) t
    /\ JSON_parse (cleanResponse responseMessage) = Some parsed
    /\ parse DiscoveredActionsResponseSchema parsed = Valid actions.
Proof.
  intros H.
  destruct (discoverActions_runs domain t _ H) as (gemini & google & [a|v] & Hc);
    [|destruct Hc as [_ E]; discriminate E].
  destruct Hc as ([res|v] & Hc); [|destruct Hc as [_ E]; discriminate E].
  destruct Hc as (th & [acts|cause] & Hh & -> & E); [|discriminate E].
  inversion E; subst acts. apply handleResult_runs in Hh.
  destruct res as [|[m|]]; try (destruct Hh as [_ Hh]; discriminate Hh).
  destruct m as [|c m]; [destruct Hh as [_ Hh]; discriminate Hh|].
  destruct (JSON_parse (cleanResponse (String c m))) as [parsed|] eqn:Ep;
    [|destruct Hh as [_ Hh]; discriminate Hh].
  destruct (parse DiscoveredActionsResponseSchema parsed) as [validated|issues] eqn:Ev;
    [|destruct Hh as [_ Hh]; discriminate Hh].
  destruct Hh as [_ Hh]. inversion Hh; subst validated.
  exists a, (String c m), parsed. split; [|auto].
  apply in_or_app. right. cbn [discoveryRequest List.app]. right. now left.
Qed.

(** X6.  When the agent's message, once cleaned, parses as JSON and
    passes the schema, [discoverActions] returns the validated catalog,
    whatever its length (an empty catalog included), and the run ends
    with the raw message, the number of actions and one numbered line
    for each action. *)
Theorem discoverActions_complete (domain : string) (t : list obs)
    (r : result (list DiscoveredAction)) (agent : Agent)
    (responseMessage : string) (parsed : JSON) (actions : list DiscoveredAction) :
  runs (discoverActions syntaxErrorMessage zodErrorMessage domain) t r ->
  In (o_agent_execute agent 20 (Returned (ResultObject (Some responseMessage)))) t ->
  JSON_parse (cleanResponse responseMessage) = Some parsed ->
  parse DiscoveredActionsResponseSchema parsed = Valid actions ->
  r = Ok actions
  /\ exists pre, t = (pre ++ successReport responseMessage actions)%list.
Proof.
  intros H Hin Hp Hv.
  destruct (discoverActions_answer domain t r agent 20 _ H Hin)
    as (_ & gemini & google & th & rh & Hh & Hc).
  apply handleResult_runs in Hh.
  destruct responseMessage as [|c m]; [vm_compute in Hp; discriminate Hp|].
  rewrite Hp, Hv in Hh. destruct Hh as [-> ->]. destruct Hc as [-> ->].
  split; [reflexivity|]. rewrite app_assoc. eauto.
Qed.

(** What follows the agent's answer only writes to the console. *)
Lemma handleResult_only_logs (res : AgentResult) (t : list obs)
    (r : result (list DiscoveredAction)) :
  runs (handleResult syntaxErrorMessage zodErrorMessage res) t r ->
  Forall (fun o => exists line, o = o_console_log line) t.
Proof.
  intros H. apply handleResult_runs in H.
  assert (Hlines : forall acts i,
             Forall (fun o => exists line, o = o_console_log line) (actionLines i acts)).
  { induction acts as [|a l IH]; intros i; cbn [actionLines]; constructor; eauto. }
  destruct res as [|[m|]]; try (destruct H as [-> _]; constructor).
  destruct m as [|c m]; [destruct H as [-> _]; constructor|].
  destruct (JSON_parse _) as [parsed|];
    [destruct (parse _ _) as [acts|issues]|]; destruct H as [-> _];
    unfold successReport; repeat (constructor; eauto).
Qed.

Lemma discoveryOpening_inj (domain : string) (g1 g2 g1' g2' : option string)
    (c c' : outcome Agent) (rest rest' : list obs) :
  (discoveryOpening domain g1 g2 c ++ rest)%list
  = (discoveryOpening domain g1' g2' c' ++ rest')%list ->
  g1 = g1' /\ keyRead g1 g2 = keyRead g1' g2' /\ c = c' /\ rest = rest'.
Proof.
  unfold discoveryOpening, keyReads, keyRead.
  destruct g1, g1'; cbn [List.app]; intros E; inversion E; subst; auto.
Qed.

(** X7.  The agent of [discoverActions] is always the same one: the model
    [google/gemini-2.5-flash], whatever [MODEL_PROVIDER] says, with the key
    that [GEMINI_API_KEY] holds when it is set (be it to the empty
    string) and otherwise the one that [GOOGLE_GENERATIVE_AI_API_KEY]
    holds.  No other agent is created in the run, and the agent that is
    executed is the one created, for at most twenty steps. *)
Theorem discoverActions_agent_key (domain : string) (t : list obs)
    (r : result (list DiscoveredAction)) :
  runs (discoverActions syntaxErrorMessage zodErrorMessage domain) t r ->
  exists gemini google created rest,
    t = (discoveryOpening domain gemini google created ++ rest)%list
    /\ (forall model key a, ~ In (o_stagehand_agent model key a) rest)
    /\ (forall agent n executed,
          In (o_agent_execute agent n executed) t ->
          created = Returned agent /\ n = 20).
Proof.
  intros H.
  assert (Hreport : forall e model key a,
             ~ In (o_stagehand_agent model key a) (failureReport e)).
  { intros e model key a. unfold failureReport.
    destruct (instanceofError e); intros Hi; in_cases Hi. }
  assert (Hlogs : forall res th rh model key a,
             runs (handleResult syntaxErrorMessage zodErrorMessage res) th rh ->
             ~ In (o_stagehand_agent model key a) th).
  { intros res th rh model key a Hh Hi.
    pose proof (handleResult_only_logs _ _ _ Hh) as Hq.
    rewrite Forall_forall in Hq. destruct (Hq _ Hi) as [line E]. discriminate E. }
  assert (Hshape : exists gemini google created rest,
             t = (discoveryOpening domain gemini google created ++ rest)%list
             /\ forall model key a, ~ In (o_stagehand_agent model key a) rest).
  { destruct (discoverActions_runs domain t r H) as (gemini & google & [a|v] & Hc).
    - destruct Hc as ([res|v] & Hc).
      + destruct Hc as (th & rh & Hh & Hc). destruct rh as [acts|e]; destruct Hc as [-> _].
        * exists gemini, google, (Returned a). eexists. split; [reflexivity|].
          intros model key a' Hi. cbn [discoveryRequest List.app] in Hi.
          destruct Hi as [Hi|[Hi|Hi]]; try discriminate Hi.
          exact (Hlogs _ _ _ _ _ _ Hh Hi).
        * exists gemini, google, (Returned a). eexists. split; [reflexivity|].
          intros model key a' Hi. cbn [discoveryRequest List.app] in Hi.
          destruct Hi as [Hi|[Hi|Hi]]; try discriminate Hi.
          apply in_app_or in Hi as [Hi|Hi];
            [exact (Hlogs _ _ _ _ _ _ Hh Hi) | exact (Hreport _ _ _ _ Hi)].
      + destruct Hc as [-> _].
        exists gemini, google, (Returned a). eexists. split; [reflexivity|].
        intros model key a' Hi. cbn [discoveryRequest List.app] in Hi.
        destruct Hi as [Hi|[Hi|Hi]]; try discriminate Hi.
        exact (Hreport _ _ _ _ Hi).
    - destruct Hc as [-> _].
      exists gemini, google, (Threw v). eexists. split; [reflexivity|].
      intros model key a'. apply Hreport. }
  destruct Hshape as (gemini & google & created & rest & Et & Hrest).
  exists gemini, google, created, rest. split; [exact Et|]. split; [exact Hrest|].
  intros agent n executed Hin.
  destruct (discoverActions_answer domain t r agent n executed H Hin)
    as (-> & g1 & g2 & Hc).
  split; [|reflexivity].
  assert (E : exists rest',
             t = (discoveryOpening domain g1 g2 (Returned agent) ++ rest')%list).
  { destruct executed as [res|v].
    - destruct Hc as (th & [acts|e] & _ & -> & _); eauto.
    - destruct Hc as [-> _]; eauto. }
  destruct E as [rest' E]. rewrite Et in E.
  now destruct (discoveryOpening_inj _ _ _ _ _ _ _ _ _ E) as (_ & _ & -> & _).
Qed.

(** X8.  An answer of the agent that is not an object, or that has no
    message or an empty one, makes [discoverActions] fail without any
    attempt to parse it, in the words of the check that it failed. *)
Theorem discoverActions_answer_checks (domain : string) (t : list obs)
    (r : result (list DiscoveredAction)) (agent : Agent) (res : AgentResult) :
  runs (discoverActions syntaxErrorMessage zodErrorMessage domain) t r ->
  In (o_agent_execute agent 20 (Returned res)) t ->
  (res = NotAnObject ->
   r = Throw (Error "Failed to discover actions: Agent execution returned invalid result"))
  /\ (res = ResultObject None \/ res = ResultObject (Some "") ->
      r = Throw (Error "Failed to discover actions: Agent execution returned result without message property"))
  /\ (forall responseMessage,
        res = ResultObject (Some responseMessage) -> responseMessage <> "" ->
        In (o_console_log ("Raw agent response: " ++ responseMessage)) t).
Proof.
  intros H Hin.
  destruct (discoverActions_answer domain t r agent 20 _ H Hin)
    as (_ & gemini & google & th & rh & Hh & Hc).
  apply handleResult_runs in Hh. split; [|split].
  - intros ->. destruct Hh as [-> ->]. now destruct Hc as [_ ->].
  - intros [-> | ->]; destruct Hh as [-> ->]; now destruct Hc as [_ ->].
  - intros m -> Hm. destruct m as [|c m]; [congruence|].
    assert (Hth : In (o_console_log ("Raw agent response: " ++ String c m)) th).
    { destruct (JSON_parse _) as [parsed|];
        [destruct (parse _ _) as [acts|issues]|]; destruct Hh as [-> _];
        now left. }
    destruct rh as [acts|e]; destruct Hc as [-> _];
      apply in_or_app; right; apply in_or_app; right;
      try (apply in_or_app; left); exact Hth.
Qed.



(** X9.  The cleanup removes fences, not prose: when the agent's message
    starts, after any white space, with a character that is neither a
    backtick nor one that a JSON value can start with (a sentence before
    the catalog, say), the cleaned message is not JSON and
    [discoverActions] fails with the message of the syntax error. *)
Theorem discoverActions_refuses_preamble (domain : string) (t : list obs)
    (r : result (list DiscoveredAction)) (agent : Agent)
    (responseMessage : string) (c : ascii) (rest : string) :
  runs (discoverActions syntaxErrorMessage zodErrorMessage domain) t r ->
  In (o_agent_execute agent 20 (Returned (ResultObject (Some responseMessage)))) t ->
  trimStart responseMessage = String c rest ->
  isBacktick c = false ->
  startsJsonValue c = false ->
  JSON_parse (cleanResponse responseMessage) = None
  /\ r = Throw (Error ("Failed to discover actions: "
                       ++ syntaxErrorMessage (cleanResponse responseMessage))).
Proof.
  intros H Hin E Hc Hs.
  assert (Hp : JSON_parse (cleanResponse responseMessage) = None).
  { destruct (cleanResponse_first _ _ _ E Hc) as [rest' ->].
    destruct (JSON_parse (String c rest')) as [j|] eqn:Ej; [|reflexivity].
    rewrite (JSON_parse_start _ _ _ (trimStart_firstChar _ _ _ E) Ej) in Hs.
    discriminate Hs. }
  split; [exact Hp|].
  destruct (discoverActions_answer domain t r agent 20 _ H Hin)
    as (_ & gemini & google & th & rh & Hh & Hc').
  apply handleResult_runs in Hh.
  destruct responseMessage as [|c' m]; [discriminate E|].
  rewrite Hp in Hh. destruct Hh as [-> ->]. now destruct Hc' as [_ ->].
Qed.


End DiscovererFacts.

Lemma discoverActions_failure_wrapped_witness :
  exists cause,
    Error "Failed to discover actions: SyntaxError"
    = Error ("Failed to discover actions: " ++ message_of cause)
    /\ In (o_console_error ("Error during agent execution: " ++ message_of cause))
          sampleProseRun.
Proof.
  apply (discoverActions_failure_wrapped (fun _ => "SyntaxError") (fun _ => "ZodError")
           sampleDomain).
  vm_compute. reflexivity.
Defined.

Lemma discoverActions_sound_witness :
  exists agent responseMessage parsed,
    In (o_agent_execute agent 20 (Returned (ResultObject (Some responseMessage))))
       sampleEmptyDiscoveryRun
    /\ JSON_parse (cleanResponse responseMessage) = Some parsed
    /\ parse DiscoveredActionsResponseSchema parsed = Valid [].
Proof.
  apply (discoverActions_sound (fun _ => "SyntaxError") (fun _ => "ZodError")
           sampleDomain).
  vm_compute. reflexivity.
Defined.

Lemma discoverActions_complete_witness :
  @Ok (list DiscoveredAction) [] = Ok []
  /\ exists pre,
       sampleEmptyDiscoveryRun
       = (pre ++ successReport (fenced "json" emptyCatalogText) [])%list.
Proof.
  apply (discoverActions_complete (fun _ => "SyntaxError") (fun _ => "ZodError")
           sampleDomain sampleEmptyDiscoveryRun (Ok []) (agent_handle 0)
           (fenced "json" emptyCatalogText) (JObject [("actions", JArray [])]) []).
  - vm_compute. reflexivity.
  - simpl. auto 10.
  - vm_compute. reflexivity.
  - reflexivity.
Defined.

Lemma discoverActions_agent_key_witness :
  exists gemini google created rest,
    sampleEmptyDiscoveryRun
    = (discoveryOpening sampleDomain gemini google created ++ rest)%list
    /\ (forall model key a, ~ In (o_stagehand_agent model key a) rest)
    /\ (forall agent n executed,
          In (o_agent_execute agent n executed) sampleEmptyDiscoveryRun ->
          created = Returned agent /\ n = 20).
Proof.
  apply (discoverActions_agent_key (fun _ => "SyntaxError") (fun _ => "ZodError")
           sampleDomain sampleEmptyDiscoveryRun (Ok [])).
  vm_compute. reflexivity.
Defined.

Lemma discoverActions_answer_checks_witness :
  @Throw (list DiscoveredAction)
    (Error "Failed to discover actions: Agent execution returned invalid result")
  = Throw (Error "Failed to discover actions: Agent execution returned invalid result").
Proof.
  destruct (discoverActions_answer_checks (fun _ => "SyntaxError") (fun _ => "ZodError")
              sampleDomain sampleNoObjectRun
              (Throw (Error "Failed to discover actions: Agent execution returned invalid result"))
              (agent_handle 0) NotAnObject) as (H & _).
  - vm_compute. reflexivity.
  - simpl. auto 10.
  - exact (H eq_refl).
Defined.

Lemma discoverActions_refuses_preamble_witness :
  JSON_parse (cleanResponse sampleProse) = None
  /\ @Throw (list DiscoveredAction) (Error "Failed to discover actions: SyntaxError")
     = Throw (Error ("Failed to discover actions: " ++ "SyntaxError")).
Proof.
  apply (discoverActions_refuses_preamble (fun _ => "SyntaxError") (fun _ => "ZodError")
           sampleDomain sampleProseRun
           (Throw (Error "Failed to discover actions: SyntaxError"))
           (agent_handle 0) sampleProse "H" (slice 1 sampleProse)).
  - vm_compute. reflexivity.
  - simpl. auto 10.
  - reflexivity.
  - reflexivity.
  - reflexivity.
Defined.

(** ** Schemas: what a validated catalog holds *)

Lemma ap_valid (A B : Type) (f : ParseReturn (A -> B)) (a : ParseReturn A) (b : B) :
  ap f a = Valid b -> exists f' a', f = Valid f' /\ a = Valid a' /\ b = f' a'.
Proof.
  destruct f as [f'|i], a as [a'|j]; simpl; intros H; inversion H; eauto.
Qed.

Lemma map_valid (A B : Type) (g : A -> B) (a : ParseReturn A) (b : B) :
  Zod.map g a = Valid b -> exists a', a = Valid a' /\ b = g a'.
Proof.
  unfold Zod.map. intros H. apply ap_valid in H as (f' & a' & Hf & Ha & Hb).
  inversion Hf; subst. eauto.
Qed.

Lemma elements_valid (T : Type) (s : Schema T) (path : list PathElement) :
  forall l i vs,
    elements s path i l = Valid vs ->
    Forall2 (fun x v => exists p, s p (Some x) = Valid v) l vs.
Proof.
  induction l as [|x l IH]; intros i vs; cbn [elements].
  - intros H; inversion H; constructor.
  - intros H. apply ap_valid in H as (f' & vs' & Hf & Hl & ->).
    apply map_valid in Hf as (v & Hv & ->).
    constructor; [eauto|]. exact (IH _ _ Hl).
Qed.

Lemma z_string_valid (path : list PathElement) (data : option JSON) (s : string) :
  z_string path data = Valid s -> data = Some (JString s).
Proof.
  destruct data as [[]|]; simpl; intros H; inversion H; reflexivity.
Qed.

Lemma strings_valid (path : list PathElement) (data : option JSON) (l : list string) :
  array z_string path data = Valid l ->
  data = Some (JArray (List.map JString l)).
Proof.
  destruct data as [[| | | |js|]|]; simpl; try discriminate.
  intros H. apply elements_valid in H. do 2 f_equal.
  induction H as [|x v js' l' Hx H' IH]; [reflexivity|].
  destruct Hx as (p & Hx).
  apply z_string_valid in Hx. injection Hx as ->. simpl. f_equal. exact IH.
Qed.

Lemma action_valid (path : list PathElement) (j : JSON) (a : DiscoveredAction) :
  DiscoveredActionSchema path (Some j) = Valid a -> describes j a.
Proof.
  unfold DiscoveredActionSchema. destruct j as [| | | | |ps]; try discriminate.
  intros H.
  apply ap_valid in H as (f4 & e & H & He & ->).
  apply ap_valid in H as (f3 & ps' & H & Hp & ->).
  apply ap_valid in H as (f2 & st & H & Hs & ->).
  apply ap_valid in H as (f1 & d & H & Hd & ->).
  apply map_valid in H as (n & Hn & ->).
  unfold at_key in *.
  apply z_string_valid in Hn, Hd. apply strings_valid in Hs.
  exists ps. cbn [name description steps extractionSchema parameters].
  repeat split; auto.
  - unfold optional in He. destruct (Zod.get "extractionSchema" ps) as [x|].
    + apply map_valid in He as (o & Ho & ->).
      destruct x; simpl in Ho; inversion Ho; reflexivity.
    + inversion He; reflexivity.
  - intros E. rewrite E in Hp. now inversion Hp.
  - intros ->. unfold optional in Hp.
    destruct (Zod.get "parameters" ps) as [x|]; [|reflexivity].
    apply map_valid in Hp as (o & _ & Ho). discriminate Ho.
Qed.

(** X10.  The validation neither drops, adds, reorders nor rewrites: a
    catalog that passes [DiscoveredActionsResponseSchema] has one action
    for each element of the [actions] array of the response, in the
    order of the array, each with the name, the description, the steps
    and the extraction schema that its element gives. *)
Theorem validated_catalog_in_order (parsed : JSON) (actions : list DiscoveredAction) :
  parse DiscoveredActionsResponseSchema parsed = Valid actions ->
  exists top elements,
    parsed = JObject top
    /\ Zod.get "actions" top = Some (JArray elements)
    /\ Forall2 describes elements actions.
Proof.
  unfold parse, DiscoveredActionsResponseSchema, at_key.
  destruct parsed as [| | | | |top]; try discriminate.
  destruct (Zod.get "actions" top) as [[| | | |l|]|] eqn:Ea; try discriminate.
  cbn [array]. intros H. exists top, l. split; [reflexivity|]. split; [exact Ea|].
  apply elements_valid in H. clear Ea.
  induction H as [|x v l' vs Hx H' IH]; [constructor|].
  destruct Hx as (p & Hx). constructor; [exact (action_valid _ _ _ Hx)|exact IH].
Qed.

Lemma validated_catalog_in_order_witness :
  exists top elements,
    JObject [("actions", JArray [conformingAction])] = JObject top
    /\ Zod.get "actions" top = Some (JArray elements)
    /\ Forall2 describes elements
         [{| name := "search_site";
             description := "Search the site";
             steps := ["Type {query} into the search field"];
             parameters := None;
             extractionSchema := None |}].
Proof.
  apply validated_catalog_in_order. reflexivity.
Defined.

Lemma strings_accepted (path : list PathElement) (l : list string) :
  forall i, elements z_string path i (List.map JString l) = Valid l.
Proof.
  induction l as [|s l IH]; intros i; [reflexivity|].
  cbn [List.map elements z_string]. now rewrite IH.
Qed.

(** X11.  Of an action, only [name], [description] and [steps] are
    required.  An object that gives them, whatever other properties it
    has and in whatever order, is a valid action when it has neither
    [parameters] nor [extractionSchema], and the validated action has
    neither. *)
Theorem action_optional_fields (path : list PathElement) (ps : list (string * JSON))
    (n d : string) (st : list string) :
  Zod.get "name" ps = Some (JString n) ->
  Zod.get "description" ps = Some (JString d) ->
  Zod.get "steps" ps = Some (JArray (List.map JString st)) ->
  Zod.get "parameters" ps = None ->
  Zod.get "extractionSchema" ps = None ->
  DiscoveredActionSchema path (Some (JObject ps))
  = Valid {| name := n; description := d; steps := st;
             parameters := None; extractionSchema := None |}.
Proof.
  intros Hn Hd Hs Hp He. unfold DiscoveredActionSchema, at_key.
  rewrite Hn, Hd, Hs, Hp, He. cbn [z_string array optional].
  now rewrite strings_accepted.
Qed.

Lemma action_optional_fields_witness :
  DiscoveredActionSchema [Key "actions"; Index 0]
    (Some (JObject [("steps", JArray []); ("selector", JString "#menu");
                    ("description", JString "Open the menu"); ("name", JString "open_menu")]))
  = Valid {| name := "open_menu"; description := "Open the menu"; steps := [];
             parameters := None; extractionSchema := None |}.
Proof.
  apply (action_optional_fields [Key "actions"; Index 0] _ "open_menu" "Open the menu" []);
    reflexivity.
Defined.

(** X12.  The [type] of a parameter is one of [string], [number],
    [boolean], written exactly so.  A parameter of any action with
    another type ([integer], [array], [String]) makes the validation of
    the whole response fail, with an issue that names the type and the
    path of the parameter. *)
Theorem parameter_type_rejected (top : list (string * JSON)) (actions : list JSON)
    (n : nat) (ps : list (string * JSON)) (params : list JSON) (k : nat)
    (pps : list (string * JSON)) (s : string) :
  Zod.get "actions" top = Some (JArray actions) ->
  nth_error actions n = Some (JObject ps) ->
  Zod.get "parameters" ps = Some (JArray params) ->
  nth_error params k = Some (JObject pps) ->
  Zod.get "type" pps = Some (JString s) ->
  s <> "string" -> s <> "number" -> s <> "boolean" ->
  failsWith (parse DiscoveredActionsResponseSchema (JObject top))
    (unknownParameterType s [Key "actions"; Index n; Key "parameters"; Index k]).
Proof.
  intros Ha Hn Hp Hk Ht H1 H2 H3.
  unfold parse, DiscoveredActionsResponseSchema, at_key. rewrite Ha. cbn [array].
  apply (elements_fails _ _ _ _ actions 0 n _ Hn).
  unfold DiscoveredActionSchema. apply ap_fails_l, ap_fails_r.
  unfold at_key. rewrite Hp. unfold optional. apply map_fails. cbn [array].
  apply (elements_fails _ _ _ _ params 0 k _ Hk).
  unfold ParameterSchema. do 2 apply ap_fails_l. apply ap_fails_r.
  unfold at_key. rewrite Ht. cbn [enum_type].
  apply String.eqb_neq in H1, H2, H3. rewrite H1, H2, H3.
  eexists. split; [reflexivity|]. left. unfold unknownParameterType.
  cbn [List.app Nat.add]. reflexivity.
Qed.

Lemma parameter_type_rejected_witness :
  failsWith
    (parse DiscoveredActionsResponseSchema
       (JObject [("actions",
                  JArray [JObject [("name", JString "open_item");
                                   ("description", JString "Open an item");
                                   ("steps", JArray []);
                                   ("parameters",
                                    JArray [JObject [("name", JString "index");
                                                     ("type", JString "integer");
                                                     ("description", JString "Position")]])]])]))
    (unknownParameterType "integer" [Key "actions"; Index 0; Key "parameters"; Index 0]).
Proof.
  eapply (parameter_type_rejected _ _ 0 _ _ 0 _ "integer");
    try reflexivity; discriminate.
Defined.

(** ** Authentication orchestrator: the runs *)

Lemma analysis_returns (p : Page) (t : list obs) (r : result AuthAnalysis) :
  runs (analyzeAuthenticationState p) t r -> exists a, r = Ok a.
Proof.
  intros H. apply analyze_runs in H as [(a & _ & ->) | (v & url & _ & ->)]; eauto.
Qed.

Lemma clickLoginButton_returns (p : Page) (a : AuthAnalysis) (t : list obs)
    (r : result AuthAnalysis) :
  runs (clickLoginButton p a) t r -> exists a', r = Ok a'.
Proof.
  unfold clickLoginButton. intros H.
  destruct (loginButton a) as [button|]; [|inv_runs; eauto].
  repeat inv_runs_step; try analyzer_threw; eauto.
  all: match goal with
       | H : runs (analyzeAuthenticationState _) _ _ |- _ =>
           apply analysis_returns in H as [? ?]; subst; eauto
       end.
Qed.

Lemma attemptAutofill_returns (p : Page) (c : option Credentials) (a : AuthAnalysis)
    (t : list obs) (r : result bool) :
  runs (attemptAutofill p c a) t r -> exists b, r = Ok b.
Proof.
  unfold attemptAutofill. intros H.
  destruct c as [c|]; [|inv_runs; eauto].
  destruct (canAutofill a) as [[]|]; repeat inv_runs_step; try analyzer_threw; eauto.
Qed.

(** The runs of the orchestrator, by the place where they end or go on
    to the login. *)
Lemma authenticate_runs (url domain : string) (t : list obs) (r : result unit) :
  runs (authenticateToWebsite url domain) t r ->
  (exists v,
      t = [o_context_awaitActivePage 10000 (Threw v)]
      /\ r = Throw (Error "Unable to locate an active browser page for authentication."))
  \/ (exists p v,
         t = [o_context_awaitActivePage 10000 (Returned p); o_page_goto p url (Threw v)]
         /\ r = Throw (FromCallee v))
  \/ (exists p firstRun first,
         runs (analyzeAuthenticationState p) firstRun (Ok first)
         /\ requiresAuth first = false
         /\ t = (o_context_awaitActivePage 10000 (Returned p)
                 :: o_page_goto p url (Returned tt)
                 :: firstRun ++ [o_console_log "No authentication required."])%list
         /\ r = Ok tt)
  \/ (exists p firstRun first credentials clickRun second fallbackRun,
         runs (analyzeAuthenticationState p) firstRun (Ok first)
         /\ requiresAuth first = true
         /\ runs (clickLoginButton p first) clickRun (Ok second)
         /\ runs (fallbackPaths p url credentials second) fallbackRun r
         /\ t = (o_context_awaitActivePage 10000 (Returned p)
                 :: o_page_goto p url (Returned tt)
                 :: firstRun
                 ++ o_logAuthenticationAnalysis first domain
                 :: o_lookupCredentialsIn1Password domain credentials
                 :: o_console_log_credentials credentials
                 :: clickRun ++ fallbackRun)%list).
Proof.
  unfold authenticateToWebsite, login. intros H.
  repeat inv_runs_step; try analyzer_threw; cbn [observe List.app] in *.
  all: repeat match goal with u : unit |- _ => destruct u end.
  all: try match goal with
           | H : runs (clickLoginButton _ _) _ (Throw _) |- _ =>
               apply clickLoginButton_returns in H as [? H]; discriminate H
           end.
  - right; right; left. do 3 eexists. split; [eassumption|].
    split; [now apply negb_true_iff|]. split; reflexivity.
  - do 3 right. do 7 eexists. split; [eassumption|].
    split; [now apply negb_false_iff|]. split; [eassumption|].
    split; [eassumption|reflexivity].
  - right; left. do 2 eexists. split; reflexivity.
  - left. eexists. split; reflexivity.
Qed.

(** The fallback paths: the automatic login, and the manual step unless
    the automatic login has succeeded. *)
Lemma fallbackPaths_runs (p : Page) (url : string) (c : option Credentials)
    (a : AuthAnalysis) (t : list obs) (r : result unit) :
  runs (fallbackPaths p url c a) t r ->
  exists autofillRun succeeded manualRun,
    runs (attemptAutofill p c a) autofillRun (Ok succeeded)
    /\ t = (autofillRun ++ manualRun)%list
    /\ if succeeded : bool then manualRun = [] /\ r = Ok tt
       else runs (manualLogin p url) manualRun r.
Proof.
  unfold fallbackPaths. intros H. repeat inv_runs_step.
  - do 3 eexists. split; [eassumption|]. split; [reflexivity|]. cbv iota. auto.
  - do 3 eexists. split; [eassumption|]. split; [reflexivity|]. cbv iota. auto.
  - match goal with
    | H : runs (attemptAutofill _ _ _) _ (Throw _) |- _ =>
        apply attemptAutofill_returns in H as [? H]; discriminate H
    end.
Qed.

(** Choosing the case of a run among the cases of a characterization. *)
Ltac this_case :=
  repeat first [eexists | split];
  first [reflexivity | eassumption | congruence | (apply String.eqb_neq; eassumption)].

Ltac some_case :=
  first [ solve [this_case] | solve [left; some_case] | solve [right; some_case] ].

(** The click on the login control. *)
Lemma clickLoginButton_runs (p : Page) (a : AuthAnalysis) (t : list obs)
    (r : result AuthAnalysis) :
  runs (clickLoginButton p a) t r ->
  ((loginButton a = None \/ loginButton a = Some "") /\ t = [] /\ r = Ok a)
  \/ exists button,
       loginButton a = Some button /\ button <> ""
       /\ ((exists v,
               t = [announceClick button; o_stagehand_act button (Threw v);
                    o_console_log ("Failed to click login button: "
                                   ++ message_of (FromCallee v))]
               /\ r = Ok a)
           \/ (exists wait secondRun second,
                  runs (analyzeAuthenticationState p) secondRun (Ok second)
                  /\ t = (announceClick button :: o_stagehand_act button (Returned tt)
                          :: o_page_waitForLoadState p 5000 wait :: secondRun)%list
                  /\ r = Ok second)).
Proof.
  unfold clickLoginButton, announceClick. intros H.
  destruct (loginButton a) as [button|] eqn:Eb; [|inv_runs; left; auto].
  destruct (button =? "")%string eqn:Ee.
  - apply String.eqb_eq in Ee. subst. inv_runs. left. auto.
  - right. exists button. split; [reflexivity|]. split; [now apply String.eqb_neq|].
    repeat inv_runs_step; try analyzer_threw; cbn [observe List.app] in *;
      repeat match goal with u : unit |- _ => destruct u end;
      rewrite ?app_nil_r.
    all: some_case.
Qed.

(** The automatic login. *)
Lemma attemptAutofill_runs (p : Page) (c : option Credentials) (a : AuthAnalysis)
    (t : list obs) (r : result bool) :
  runs (attemptAutofill p c a) t r ->
  ((c = None \/ canAutofill a <> Some true) /\ t = [] /\ r = Ok false)
  \/ exists cr,
       c = Some cr /\ canAutofill a = Some true
       /\ ((exists v,
               t = (announceAutofill
                    :: o_stagehand_act (typeUsername cr) (Threw v)
                    :: autofillFailed v)%list
               /\ r = Ok false)
           \/ (exists v,
                  t = (announceAutofill
                       :: o_stagehand_act (typeUsername cr) (Returned tt)
                       :: o_stagehand_act (typePassword cr) (Threw v)
                       :: autofillFailed v)%list
                  /\ r = Ok false)
           \/ (exists v,
                  t = (announceAutofill
                       :: o_stagehand_act (typeUsername cr) (Returned tt)
                       :: o_stagehand_act (typePassword cr) (Returned tt)
                       :: o_stagehand_act clickSignIn (Threw v)
                       :: autofillFailed v)%list
                  /\ r = Ok false)
           \/ (exists wait lastRun last,
                  runs (analyzeAuthenticationState p) lastRun (Ok last)
                  /\ t = (announceAutofill
                          :: o_stagehand_act (typeUsername cr) (Returned tt)
                          :: o_stagehand_act (typePassword cr) (Returned tt)
                          :: o_stagehand_act clickSignIn (Returned tt)
                          :: o_page_waitForLoadState p 10000 wait
                          :: lastRun ++ [autofillVerdict last])%list
                  /\ r = Ok (negb (requiresAuth last)))).
Proof.
  unfold attemptAutofill, typeUsername, typePassword, clickSignIn, autofillFailed,
    autofillVerdict, announceAutofill.
  intros H.
  destruct c as [cr|]; [|inv_runs; left; auto].
  destruct (canAutofill a) as [[]|] eqn:Ec;
    [|inv_runs; left; split; [right; discriminate|auto]
     |inv_runs; left; split; [right; discriminate|auto]].
  pattern t, r. match goal with |- ?P t r => set (G := P) end.
  repeat inv_runs_step; try analyzer_threw; cbn [observe List.app] in *;
    repeat match goal with u : unit |- _ => destruct u end;
    rewrite ?app_nil_r.
  all: subst G; cbv beta.
  all: right; exists cr; split; [reflexivity|]; split; [reflexivity|].
  all: try solve [some_case].
  all: do 3 right; do 3 eexists; (split; [eassumption|]);
    match goal with
    | H : negb (requiresAuth ?a) = _ |- _ =>
        destruct (requiresAuth a); try discriminate H
    end; split; reflexivity.
Qed.

(** The manual step. *)
Lemma manualLogin_runs (p : Page) (url : string) (t : list obs) (r : result unit) :
  runs (manualLogin p url) t r ->
  (exists sessionId,
      (sessionId = None \/ sessionId = Some "")
      /\ t = [announceManual; o_stagehand_browserbaseSessionId sessionId]
      /\ r = Throw (Error "No active Browserbase session"))
  \/ (exists id again key viewer rest,
         id <> ""
         /\ t = (manualOpening id again key viewer ++ rest)%list
         /\ match viewer with
            | Threw v => rest = [] /\ r = Throw (FromCallee v)
            | Returned debuggerFullscreenUrl =>
                exists platform userInput afterRun,
                  runs (afterUserInput p url userInput) afterRun r
                  /\ rest = (manualPrompt platform debuggerFullscreenUrl userInput
                             ++ afterRun)%list
            end).
Proof.
  unfold manualLogin, getDebugUrl, openDebuggerUrl, waitForUserInput, announceManual.
  intros H.
  pattern t, r. match goal with |- ?P t r => set (G := P) end.
  repeat first
    [ inv_runs_step
    | match goal with
      | H : runs (match ?x with _ => _ end) _ _ |- _ => destruct x eqn:?
      end ];
    cbn [observe List.app] in *.
  all: subst G; cbv beta.
  all: try match goal with
           | H : (_ =? "")%string = true |- _ => apply String.eqb_eq in H; subst
           end.
  all: try solve [left; eexists; (split; [|split; reflexivity]);
                  first [left; reflexivity | right; reflexivity]].
  all: right; do 5 eexists; (split; [apply String.eqb_neq; eassumption|]);
    (split; [unfold manualOpening; cbn [List.app]; reflexivity|]); cbv beta iota.
  - do 3 eexists. split; [eassumption|reflexivity].
  - split; reflexivity.
Qed.

(** Showing that a block of the orchestrator makes no call of a kind. *)
Ltac avoids_by tac :=
  repeat match goal with
         | |- avoids _ (ret _) => exact I
         | |- avoids _ (throw _) => exact I
         | |- avoids _ (Ret _) => exact I
         | |- avoids _ (perform _) => apply avoids_perform; solve [tac]
         | |- avoids _ (await _) => apply avoids_await; solve [tac]
         | |- avoids _ (bind _ _) => apply avoids_bind
         | |- avoids _ (try_catch _ _) => apply avoids_try_catch
         | |- forall _, _ => intro
         | |- avoids _ (if ?x then _ else _) => destruct x
         | |- avoids _ (match ?x with _ => _ end) => destruct x
         end.

Ltac block_avoids :=
  unfold fallbackPaths, manualLogin, attemptAutofill, clickLoginButton, afterUserInput,
    getDebugUrl, openDebuggerUrl, waitForUserInput, analyzeAuthenticationState,
    catch_ignore;
  avoids_by ltac:(let H := fresh in intros ? H; hnf in H; discriminate H).

Lemma absent (P : obs -> Prop) (R : Type) (p : proc R) (t : list obs) (r : R) (o : obs) :
  avoids P p -> runs p t r -> In o t -> ~ P o.
Proof.
  intros Ha Hr Hin. pose proof (avoids_runs P R p Ha t r Hr) as Hq.
  rewrite Forall_forall in Hq. exact (Hq o Hin).
Qed.

(** [Hin : In o t] cannot be, for [t] is the run [Hrun] of a block that
    makes no call of the kind [P] of [o]. *)
Ltac not_there P Hrun Hin :=
  exfalso;
  match type of Hrun with
  | runs ?p _ _ =>
      let Ha := fresh in
      assert (Ha : avoids P p) by block_avoids;
      apply (absent P _ _ _ _ _ Ha Hrun Hin); first [reflexivity | assumption]
  end.

Example not_there_example (p : Page) (a : AuthAnalysis) t r d c :
  runs (clickLoginButton p a) t r -> In (o_lookupCredentialsIn1Password d c) t -> False.
Proof.
  intros H Hin. not_there (fun o => isCredentialLookup o = true) H Hin.
Qed.

(** X13.  Every run of the orchestrator starts by waiting up to ten
    seconds for the active page.  When there is none it throws its own
    error, whatever was thrown to it; when the navigation to the
    address fails, what the navigation threw propagates as it is.  In
    both cases nothing else has been called. *)
Theorem authenticate_early_failures (url domain : string) (t : list obs)
    (r : result unit) :
  runs (authenticateToWebsite url domain) t r ->
  (exists located rest, t = o_context_awaitActivePage 10000 located :: rest)
  /\ (forall v rest,
        t = o_context_awaitActivePage 10000 (Threw v) :: rest ->
        rest = []
        /\ r = Throw (Error "Unable to locate an active browser page for authentication."))
  /\ (forall p v rest,
        t = o_context_awaitActivePage 10000 (Returned p)
            :: o_page_goto p url (Threw v) :: rest ->
        rest = [] /\ r = Throw (FromCallee v)).
Proof.
  intros H.
  destruct (authenticate_runs url domain t r H)
    as [(v & -> & ->)
       |[(p & v & -> & ->)
        |[(p & firstRun & first & Hfirst & Hreq & -> & ->)
         |(p & firstRun & first & c & clickRun & second & fallbackRun
           & Hfirst & Hreq & Hclick & Hfall & ->)]]].
  - split; [eauto|]. split.
    + intros v' rest E. inversion E; auto.
    + intros p v' rest E. discriminate E.
  - split; [eauto|]. split.
    + intros v' rest E. discriminate E.
    + intros p' v' rest E. inversion E; auto.
  - split; [eauto|]. split.
    + intros v' rest E. discriminate E.
    + intros p' v' rest E. discriminate E.
  - split; [eauto|]. split.
    + intros v' rest E. discriminate E.
    + intros p' v' rest E. discriminate E.
Qed.

(** The place of the credential lookup in a run. *)
Lemma lookup_in_run (url domain : string) (t : list obs) (r : result unit)
    (d : string) (c : option Credentials) :
  runs (authenticateToWebsite url domain) t r ->
  In (o_lookupCredentialsIn1Password d c) t ->
  d = domain
  /\ exists p firstRun first clickRun second fallbackRun,
       runs (analyzeAuthenticationState p) firstRun (Ok first)
       /\ requiresAuth first = true
       /\ runs (clickLoginButton p first) clickRun (Ok second)
       /\ runs (fallbackPaths p url c second) fallbackRun r
       /\ t = (o_context_awaitActivePage 10000 (Returned p)
               :: o_page_goto p url (Returned tt)
               :: firstRun
               ++ o_logAuthenticationAnalysis first domain
               :: o_lookupCredentialsIn1Password domain c
               :: o_console_log_credentials c
               :: clickRun ++ fallbackRun)%list.
Proof.
  intros H Hin.
  destruct (authenticate_runs url domain t r H)
    as [(v & -> & ->)
       |[(p & v & -> & ->)
        |[(p & firstRun & first & Hfirst & Hreq & -> & ->)
         |(p & firstRun & first & c' & clickRun & second & fallbackRun
           & Hfirst & Hreq & Hclick & Hfall & ->)]]];
    in_cases Hin;
    try (not_there (fun o => isCredentialLookup o = true) Hfirst Hin);
    try (not_there (fun o => isCredentialLookup o = true) Hclick Hin);
    try (not_there (fun o => isCredentialLookup o = true) Hfall Hin).
  inversion Hin; subst. split; [reflexivity|]. eauto 12.
Qed.

(** X14.  Whenever the orchestrator looks up the credentials of the
    domain, its next call writes what the lookup answered to the
    console: the stored user name and password, when there are any. *)
Theorem credentials_written_to_console (url domain : string) (t : list obs)
    (r : result unit) (d : string) (c : option Credentials) :
  runs (authenticateToWebsite url domain) t r ->
  In (o_lookupCredentialsIn1Password d c) t ->
  d = domain
  /\ exists pre post,
       t = (pre ++ o_lookupCredentialsIn1Password domain c
                :: o_console_log_credentials c :: post)%list.
Proof.
  intros H Hin.
  destruct (lookup_in_run url domain t r d c H Hin)
    as (-> & p & firstRun & first & clickRun & second & fallbackRun
        & _ & _ & _ & _ & ->).
  split; [reflexivity|].
  exists (o_context_awaitActivePage 10000 (Returned p)
          :: o_page_goto p url (Returned tt)
          :: firstRun ++ [o_logAuthenticationAnalysis first domain])%list,
         (clickRun ++ fallbackRun)%list.
  cbn [List.app]. rewrite <- app_assoc. reflexivity.
Qed.

(** X15.  The browser actions that the orchestrator can request are
    known.  One is the click on the login control that the analysis
    names, announced on the console.  The other three make the automatic
    login, which is only attempted with credentials from the lookup: the
    stored user name typed first, the stored password typed only after
    that has succeeded, and the click on the sign-in button only after
    both; the user name and the password stand verbatim in the
    instructions. *)
Theorem browser_actions_known (url domain : string) (t : list obs) (r : result unit)
    (instruction : string) (x : outcome unit) :
  runs (authenticateToWebsite url domain) t r ->
  In (o_stagehand_act instruction x) t ->
  In (announceClick instruction) t
  \/ exists c,
       In (o_lookupCredentialsIn1Password domain (Some c)) t
       /\ In announceAutofill t
       /\ (instruction = typeUsername c
           \/ (instruction = typePassword c
               /\ In (o_stagehand_act (typeUsername c) (Returned tt)) t)
           \/ (instruction = clickSignIn
               /\ In (o_stagehand_act (typeUsername c) (Returned tt)) t
               /\ In (o_stagehand_act (typePassword c) (Returned tt)) t)).
Proof.
  intros H Hin.
  destruct (authenticate_runs url domain t r H)
    as [(v & -> & ->)
       |[(p & v & -> & ->)
        |[(p & firstRun & first & Hfirst & Hreq & -> & ->)
         |(p & firstRun & first & c & clickRun & second & fallbackRun
           & Hfirst & Hreq & Hclick & Hfall & ->)]]];
    in_cases Hin;
    try (not_there (fun o => isBrowserAction o = true) Hfirst Hin).
  - (* the click *)
    left. do 2 right. apply in_or_app. right. do 3 right. apply in_or_app. left.
    apply clickLoginButton_runs in Hclick
      as [(_ & -> & _) | (button & _ & _ & [(v & -> & _) | (w & run & a & Hrun & -> & _)])];
      in_cases Hin.
    + inversion Hin; subst. now left.
    + inversion Hin; subst. now left.
    + not_there (fun o => isBrowserAction o = true) Hrun Hin.
  - (* the automatic login *)
    apply fallbackPaths_runs in Hfall
      as (autofillRun & succeeded & manualRun & Hauto & -> & Hmanual).
    apply in_app_or in Hin as [Hin|Hin].
    + right.
      apply attemptAutofill_runs in Hauto
        as [(_ & -> & _) | (cr & -> & _ & Hcases)]; [destruct Hin|].
      exists cr.
      assert (Hpart : forall o, In o autofillRun ->
                In o (o_context_awaitActivePage 10000 (Returned p)
                      :: o_page_goto p url (Returned tt)
                      :: firstRun
                      ++ o_logAuthenticationAnalysis first domain
                      :: o_lookupCredentialsIn1Password domain (Some cr)
                      :: o_console_log_credentials (Some cr)
                      :: clickRun ++ autofillRun ++ manualRun)%list).
      { intros o Ho. do 2 right. apply in_or_app. right. do 3 right.
        apply in_or_app. right. apply in_or_app. now left. }
      split.
      { do 2 right. apply in_or_app. right. right. now left. }
      destruct Hcases
        as [(v & -> & _)
           |[(v & -> & _)
            |[(v & -> & _) | (w & lastRun & last & Hlast & -> & _)]]];
        (split; [apply Hpart; now left|]);
        unfold autofillFailed, autofillVerdict in Hin;
        try (destruct (requiresAuth last));
        in_cases Hin;
        try (not_there (fun o => isBrowserAction o = true) Hlast Hin);
        inversion Hin; subst; clear Hin;
        try (now left);
        try (right; left; split; [reflexivity|apply Hpart; simpl; auto]);
        try (right; right; split; [reflexivity|split; apply Hpart; simpl; auto]).
    + destruct succeeded; [destruct Hmanual as [-> _]; destruct Hin|].
      not_there (fun o => isBrowserAction o = true) Hmanual Hin.
Qed.

(** X16.  An analysis made by the heuristic names no login control and
    does not allow the automatic login.  So when every extraction of a
    run fails, the orchestrator requests no browser action at all: it
    neither clicks nor types, whatever the lookup has answered. *)
Theorem failed_extraction_no_browser_action (url domain : string) (t : list obs)
    (r : result unit) :
  runs (authenticateToWebsite url domain) t r ->
  (forall a, ~ In (o_stagehand_extract (Returned a)) t) ->
  forall instruction x, ~ In (o_stagehand_act instruction x) t.
Proof.
  intros H Hfailed instruction x Hin.
  destruct (authenticate_runs url domain t r H)
    as [(v & -> & ->)
       |[(p & v & -> & ->)
        |[(p & firstRun & first & Hfirst & Hreq & -> & ->)
         |(p & firstRun & first & c & clickRun & second & fallbackRun
           & Hfirst & Hreq & Hclick & Hfall & ->)]]];
    in_cases Hin;
    try (not_there (fun o => isBrowserAction o = true) Hfirst Hin).
  all: apply analyze_runs in Hfirst as [(a & -> & E) | (v & u & -> & E)];
    [exfalso; apply (Hfailed a); simpl; auto|].
  all: inversion E; subst first; clear E.
  all: apply clickLoginButton_runs in Hclick
      as [(_ & -> & E) | (button & Eb & _)]; [|discriminate Eb].
  all: inversion E; subst second; clear E.
  all: apply fallbackPaths_runs in Hfall
      as (autofillRun & succeeded & manualRun & Hauto & -> & Hmanual).
  all: apply attemptAutofill_runs in Hauto
      as [(_ & -> & E) | (cr & _ & Ec & _)]; [|discriminate Ec].
  all: inversion E; subst succeeded; clear E.
  - destruct Hin.
  - cbn [List.app] in Hin.
    not_there (fun o => isBrowserAction o = true) Hmanual Hin.
Qed.

(** X17.  When the automatic login has succeeded, the orchestrator
    returns at once: the line that says so is the last call of the run,
    the run returns normally, and the manual step has not been entered,
    so that no session viewer was opened and the operator was not
    asked. *)
Theorem automatic_login_returns (url domain : string) (t : list obs)
    (r : result unit) :
  runs (authenticateToWebsite url domain) t r ->
  In (o_console_log "Automatic login successful!") t ->
  r = Ok tt
  /\ (exists pre, t = (pre ++ [o_console_log "Automatic login successful!"])%list)
  /\ existsb isManualFallback t = false.
Proof.
  intros H Hin.
  destruct (authenticate_runs url domain t r H)
    as [(v & -> & ->)
       |[(p & v & -> & ->)
        |[(p & firstRun & first & Hfirst & Hreq & -> & ->)
         |(p & firstRun & first & c & clickRun & second & fallbackRun
           & Hfirst & Hreq & Hclick & Hfall & ->)]]];
    in_cases Hin;
    try (not_there isSuccessLine Hfirst Hin);
    try (not_there isSuccessLine Hclick Hin).
  apply fallbackPaths_runs in Hfall
    as (autofillRun & succeeded & manualRun & Hauto & -> & Hmanual).
  assert (Hdone : succeeded = true
                  /\ exists pre,
                       autofillRun
                       = (pre ++ [o_console_log "Automatic login successful!"])%list).
  { apply in_app_or in Hin as [Hin|Hin].
    - apply attemptAutofill_runs in Hauto
        as [(_ & -> & _)
           |(cr & _ & _
             & [(v & -> & _)
               |[(v & -> & _)
                |[(v & -> & _) | (w & lastRun & last & Hlast & -> & E)]]])];
        unfold autofillFailed, announceAutofill in Hin; in_cases Hin.
      + not_there isSuccessLine Hlast Hin.
      + unfold autofillVerdict in *.
        destruct (requiresAuth last); [discriminate Hin|].
        inversion E; subst. split; [reflexivity|].
        eexists (_ :: _ :: _ :: _ :: _ :: lastRun)%list. reflexivity.
    - destruct succeeded; [destruct Hmanual as [-> _]; destruct Hin|].
      not_there isSuccessLine Hmanual Hin. }
  destruct Hdone as (-> & pre & Epre). destruct Hmanual as [-> ->].
  split; [reflexivity|]. split.
  - rewrite Epre, app_nil_r.
    exists (o_context_awaitActivePage 10000 (Returned p)
            :: o_page_goto p url (Returned tt)
            :: firstRun
            ++ o_logAuthenticationAnalysis first domain
            :: o_lookupCredentialsIn1Password domain c
            :: o_console_log_credentials c
            :: clickRun ++ pre)%list.
    cbn [List.app]. do 2 f_equal. rewrite <- app_assoc. f_equal.
    cbn [List.app]. do 3 f_equal. now rewrite app_assoc.
  - rewrite app_nil_r. apply not_true_is_false. intros Hex.
    apply existsb_exists in Hex as (o & Ho & Hm).
    in_cases Ho; try discriminate Hm; try (subst o; discriminate Hm).
    + not_there isManualCall Hfirst Ho.
    + not_there isManualCall Hclick Ho.
    + not_there isManualCall Hauto Ho.
Qed.

Lemma first_occurrence (f : obs -> bool) (l1 l2 r1 r2 : list obs) (x y : obs) :
  (l1 ++ x :: r1 = l2 ++ y :: r2)%list ->
  existsb f l1 = false -> existsb f l2 = false ->
  f x = true -> f y = true ->
  l1 = l2 /\ x = y /\ r1 = r2.
Proof.
  revert l2. induction l1 as [|a l1 IH]; intros [|b l2] E H1 H2 Hx Hy;
    cbn [List.app existsb] in *.
  - inversion E; auto.
  - inversion E; subst. rewrite Hx in H2. discriminate H2.
  - inversion E; subst. rewrite Hy in H1. discriminate H1.
  - injection E as -> E. apply orb_false_iff in H1 as [_ H1], H2 as [_ H2].
    destruct (IH l2 E H1 H2 Hx Hy) as (-> & -> & ->). auto.
Qed.

(** A run either never enters the manual step, or ends with a run of
    it. *)
Lemma manual_step_in_run (url domain : string) (t : list obs) (r : result unit) :
  runs (authenticateToWebsite url domain) t r ->
  existsb isManualFallback t = false
  \/ exists p before manualRun,
       t = (before ++ manualRun)%list
       /\ runs (manualLogin p url) manualRun r
       /\ existsb isManualFallback before = false.
Proof.
  intros H.
  assert (Hnone : forall l, (forall o, In o l -> ~ isManualCall o) ->
                            existsb isManualFallback l = false).
  { intros l Hl. apply not_true_is_false. intros Hex.
    apply existsb_exists in Hex as (o & Ho & Hm). exact (Hl o Ho Hm). }
  destruct (authenticate_runs url domain t r H)
    as [(v & -> & ->)
       |[(p & v & -> & ->)
        |[(p & firstRun & first & Hfirst & Hreq & -> & ->)
         |(p & firstRun & first & c & clickRun & second & fallbackRun
           & Hfirst & Hreq & Hclick & Hfall & ->)]]].
  - left. reflexivity.
  - left. reflexivity.
  - left. apply Hnone. intros o Ho Hm. in_cases Ho; try (subst o; discriminate Hm).
    not_there isManualCall Hfirst Ho.
  - apply fallbackPaths_runs in Hfall
      as (autofillRun & succeeded & manualRun & Hauto & -> & Hmanual).
    assert (Hbefore : existsb isManualFallback
                        (o_context_awaitActivePage 10000 (Returned p)
                         :: o_page_goto p url (Returned tt)
                         :: firstRun
                         ++ o_logAuthenticationAnalysis first domain
                         :: o_lookupCredentialsIn1Password domain c
                         :: o_console_log_credentials c
                         :: clickRun ++ autofillRun)%list = false).
    { apply Hnone. intros o Ho Hm. in_cases Ho; try (subst o; discriminate Hm).
      - not_there isManualCall Hfirst Ho.
      - not_there isManualCall Hclick Ho.
      - not_there isManualCall Hauto Ho. }
    destruct succeeded.
    + left. destruct Hmanual as [-> _]. now rewrite app_nil_r.
    + right. exists p. eexists. exists manualRun. split; [|split; [exact Hmanual|exact Hbefore]].
      cbn [List.app]. do 2 f_equal. rewrite <- app_assoc. f_equal.
      cbn [List.app]. do 3 f_equal. now rewrite app_assoc.
Qed.

(** The first read of the session identifier is the one that follows the
    announcement of the manual step. *)
Lemma session_first (before tail pre post : list obs) (s v : option string) :
  (before ++ announceManual :: o_stagehand_browserbaseSessionId s :: tail
   = pre ++ o_stagehand_browserbaseSessionId v :: post)%list ->
  existsb isSessionRead before = false ->
  existsb isSessionRead pre = false ->
  s = v /\ tail = post.
Proof.
  intros E Hb Hp.
  replace (before ++ announceManual :: o_stagehand_browserbaseSessionId s :: tail)%list
    with ((before ++ [announceManual])
          ++ o_stagehand_browserbaseSessionId s :: tail)%list in E
    by (now rewrite <- app_assoc).
  apply (first_occurrence isSessionRead) in E as (_ & E & ->); auto.
  - now inversion E.
  - rewrite existsb_app, Hb. reflexivity.
Qed.

(** X18.  The manual step fails before the operator is asked in two
    cases.  Without a session identifier (the first read of it gives
    nothing, or the empty string) the orchestrator throws its own error
    at that read; and when the request for the address of the session
    viewer fails, what it threw propagates as it is.  In both cases the
    failing call is the last one of the run. *)
Theorem manual_step_failures (url domain : string) (t : list obs) (r : result unit) :
  runs (authenticateToWebsite url domain) t r ->
  (forall pre sessionId post,
      t = (pre ++ o_stagehand_browserbaseSessionId sessionId :: post)%list ->
      existsb isSessionRead pre = false ->
      sessionId = None \/ sessionId = Some "" ->
      post = [] /\ r = Throw (Error "No active Browserbase session"))
  /\ (forall id v,
        In (o_sessions_debug id (Threw v)) t ->
        r = Throw (FromCallee v)
        /\ exists pre, t = (pre ++ [o_sessions_debug id (Threw v)])%list).
Proof.
  intros H.
  assert (Hsession : forall l, existsb isManualFallback l = false ->
                               existsb isSessionRead l = false).
  { intros l Hl. apply not_true_is_false. intros Hex.
    apply existsb_exists in Hex as (o & Ho & Hs).
    assert (Hm : existsb isManualFallback l = true).
    { apply existsb_exists. exists o. split; [exact Ho|]. now destruct o. }
    congruence. }
  destruct (manual_step_in_run url domain t r H)
    as [Hnone | (p & before & manualRun & -> & Hmanual & Hbefore)].
  - split.
    + intros pre sessionId post -> _ _. exfalso.
      rewrite existsb_app in Hnone. cbn [existsb isManualFallback] in Hnone.
      now rewrite orb_true_r in Hnone.
    + intros id v Hin. exfalso.
      assert (Hm : existsb isManualFallback t = true).
      { apply existsb_exists. eexists. split; [exact Hin|reflexivity]. }
      congruence.
  - assert (Hnot : forall id v, ~ In (o_sessions_debug id (Threw v)) before).
    { intros id v Hin.
      assert (Hm : existsb isManualFallback before = true).
      { apply existsb_exists. eexists. split; [exact Hin|reflexivity]. }
      congruence. }
    apply manualLogin_runs in Hmanual
      as [(s & Hs & -> & ->) | (id0 & again & key & viewer & rest & Hid & -> & Hrest)].
    + split.
      * intros pre sessionId post E Hpre _.
        apply session_first in E as (_ & <-); auto.
      * intros id v Hin. exfalso. apply in_app_or in Hin as [Hin|Hin].
        -- exact (Hnot _ _ Hin).
        -- in_cases Hin.
    + split.
      * intros pre sessionId post E Hpre Hs. exfalso.
        unfold manualOpening in E. cbn [List.app] in E.
        apply session_first in E as (<- & _); auto.
        destruct Hs as [Hs|Hs]; [discriminate Hs|]. inversion Hs. congruence.
      * intros id v Hin. apply in_app_or in Hin as [Hin|Hin]; [now apply Hnot in Hin|].
        apply in_app_or in Hin as [Hin|Hin].
        -- unfold manualOpening, announceManual in Hin. in_cases Hin.
           inversion Hin; subst. destruct Hrest as [-> ->].
           split; [reflexivity|]. rewrite app_nil_r.
           exists (before
                   ++ [announceManual;
                       o_stagehand_browserbaseSessionId (Some id0);
                       o_console_log ("Debug URL: https://browserbase.com/sessions/" ++ id0);
                       o_console_log
                         "Please log in to the website in the browser window that just opened.";
                       o_stagehand_browserbaseSessionId again;
                       o_process_env "BROWSERBASE_API_KEY" key])%list.
           rewrite <- app_assoc. reflexivity.
        -- exfalso. destruct viewer as [u|v']; [|destruct Hrest as [-> _]; destruct Hin].
           destruct Hrest as (platform & userInput & afterRun & Hafter & ->).
           unfold manualPrompt in Hin. in_cases Hin.
           not_there isManualCall Hafter Hin.
Qed.

(** ** Authentication orchestrator: the command it runs *)

(** X19.  The orchestrator runs one command at most, and knows what it
    runs: the command that opens a viewer on the platform ([start],
    [open] or [xdg-open]), a space, and the address that the session
    API has just answered.  The request for that address and the read of
    the platform are the two calls before it. *)
Theorem viewer_command (url domain : string) (t : list obs) (r : result unit)
    (command : string) :
  runs (authenticateToWebsite url domain) t r ->
  In (o_child_process_exec command) t ->
  exists pre id debuggerFullscreenUrl platform post,
    t = (pre ++ [o_sessions_debug id (Returned debuggerFullscreenUrl);
                 o_process_platform platform;
                 o_child_process_exec command] ++ post)%list
    /\ command = opener platform ++ " " ++ debuggerFullscreenUrl
    /\ (forall c, ~ In (o_child_process_exec c) pre)
    /\ (forall c, ~ In (o_child_process_exec c) post).
Proof.
  intros H Hin.
  assert (Hquiet : forall l c, existsb isManualFallback l = false ->
                               ~ In (o_child_process_exec c) l).
  { intros l c Hl Hc.
    assert (Hm : existsb isManualFallback l = true).
    { apply existsb_exists. eexists. split; [exact Hc|reflexivity]. }
    congruence. }
  destruct (manual_step_in_run url domain t r H)
    as [Hnone | (p & before & manualRun & -> & Hmanual & Hbefore)].
  - exfalso. exact (Hquiet _ _ Hnone Hin).
  - apply manualLogin_runs in Hmanual
      as [(s & Hs & -> & ->) | (id0 & again & key & viewer & rest & Hid & -> & Hrest)].
    + exfalso. apply in_app_or in Hin as [Hin|Hin]; [exact (Hquiet _ _ Hbefore Hin)|].
      unfold announceManual in Hin. in_cases Hin.
    + destruct viewer as [u|v].
      * destruct Hrest as (platform & userInput & afterRun & Hafter & ->).
        assert (Hafter' : forall c, ~ In (o_child_process_exec c) afterRun).
        { intros c Hc. not_there isManualCall Hafter Hc. }
        exists (before
                ++ [announceManual;
                    o_stagehand_browserbaseSessionId (Some id0);
                    o_console_log ("Debug URL: https://browserbase.com/sessions/" ++ id0);
                    o_console_log
                      "Please log in to the website in the browser window that just opened.";
                    o_stagehand_browserbaseSessionId again;
                    o_process_env "BROWSERBASE_API_KEY" key])%list,
          (match again with Some i => i | None => "undefined" end), u, platform,
          (o_console_log
             "Once you're logged in, press Enter to continue (or type 'skip' to skip authentication)..."
           :: o_stdin_once_data userInput :: afterRun).
        assert (Ec : command = opener platform ++ " " ++ u).
        { apply in_app_or in Hin as [Hin|Hin]; [now apply Hquiet in Hin|].
          apply in_app_or in Hin as [Hin|Hin].
          - unfold manualOpening, announceManual in Hin. in_cases Hin.
          - apply in_app_or in Hin as [Hin|Hin]; [|now apply Hafter' in Hin].
            unfold manualPrompt in Hin. in_cases Hin. now inversion Hin. }
        split; [|split; [exact Ec|split]].
        -- subst command. unfold manualOpening, manualPrompt. cbn [List.app].
           rewrite <- app_assoc. reflexivity.
        -- intros c Hc. apply in_app_or in Hc as [Hc|Hc]; [now apply Hquiet in Hc|].
           unfold announceManual in Hc. in_cases Hc.
        -- intros c Hc. destruct Hc as [Hc|[Hc|Hc]]; try discriminate Hc.
           exact (Hafter' c Hc).
      * exfalso. destruct Hrest as [-> _]. rewrite app_nil_r in Hin.
        apply in_app_or in Hin as [Hin|Hin]; [exact (Hquiet _ _ Hbefore Hin)|].
        unfold manualOpening, announceManual in Hin. in_cases Hin.
Qed.

(** ** Authentication orchestrator: how much a run does *)

Lemma count_app (f : obs -> bool) (a b : list obs) :
  count f (a ++ b) = count f a + count f b.
Proof. induction a as [|o a IH]; simpl; [reflexivity|]. rewrite IH. lia. Qed.

Ltac tally :=
  unfold within;
  cbn [count isExtraction isBrowserAction isPrompt isNavigation isCredentialLookup
       List.app Nat.add];
  repeat split; lia.

Lemma analysis_within (p : Page) (t : list obs) (r : result AuthAnalysis) :
  runs (analyzeAuthenticationState p) t r -> within 1 0 0 0 0 t.
Proof.
  intros H. apply analyze_runs in H as [(a & -> & _) | (v & u & -> & _)]; tally.
Qed.

Lemma click_within (p : Page) (a : AuthAnalysis) (t : list obs)
    (r : result AuthAnalysis) :
  runs (clickLoginButton p a) t r -> within 1 1 0 0 0 t.
Proof.
  intros H.
  apply clickLoginButton_runs in H
    as [(_ & -> & _) | (button & _ & _ & [(v & -> & _) | (w & run & s & Hrun & -> & _)])];
    unfold announceClick; try tally.
  apply analysis_within in Hrun. unfold within in *.
  cbn [count isExtraction isBrowserAction isPrompt isNavigation isCredentialLookup
       Nat.add].
  repeat split; lia.
Qed.

Lemma autofill_within (p : Page) (c : option Credentials) (a : AuthAnalysis)
    (t : list obs) (r : result bool) :
  runs (attemptAutofill p c a) t r -> within 1 3 0 0 0 t.
Proof.
  intros H.
  apply attemptAutofill_runs in H
    as [(_ & -> & _)
       |(cr & _ & _
         & [(v & -> & _)
           |[(v & -> & _)
            |[(v & -> & _) | (w & run & s & Hrun & -> & _)]]])];
    unfold announceAutofill, autofillFailed; try tally.
  apply analysis_within in Hrun. unfold within, autofillVerdict in *.
  cbn [count isExtraction isBrowserAction isPrompt isNavigation isCredentialLookup
       Nat.add].
  rewrite !count_app. destruct (requiresAuth s);
    cbn [count isExtraction isBrowserAction isPrompt isNavigation isCredentialLookup
         Nat.add];
    repeat split; lia.
Qed.

Lemma afterUserInput_within (p : Page) (url userInput : string) (t : list obs)
    (r : result unit) :
  runs (afterUserInput p url userInput) t r -> within 1 0 0 1 0 t.
Proof.
  unfold afterUserInput. intros H.
  repeat inv_runs_step; try analyzer_threw; cbn [observe] in *; try tally.
  all: match goal with
       | H : runs (analyzeAuthenticationState _) _ _ |- _ => apply analysis_within in H
       end.
  all: unfold within in *; rewrite !count_app;
    cbn [count isExtraction isBrowserAction isPrompt isNavigation isCredentialLookup
         Nat.add];
    repeat split; lia.
Qed.

Lemma manual_within (p : Page) (url : string) (t : list obs) (r : result unit) :
  runs (manualLogin p url) t r -> within 1 0 1 1 0 t.
Proof.
  intros H.
  apply manualLogin_runs in H
    as [(s & _ & -> & _) | (id & again & key & viewer & rest & _ & -> & Hrest)];
    unfold announceManual; try tally.
  destruct viewer as [u|v].
  - destruct Hrest as (platform & userInput & afterRun & Hafter & ->).
    apply afterUserInput_within in Hafter.
    unfold within, manualOpening, manualPrompt, announceManual in *. rewrite !count_app.
    cbn [count isExtraction isBrowserAction isPrompt isNavigation isCredentialLookup
         Nat.add].
    repeat split; lia.
  - destruct Hrest as [-> _]. unfold manualOpening, announceManual. tally.
Qed.

(** X20.  A run of the orchestrator is bounded: it asks for at most four
    analyses of the page (at the start, after the click, after the
    automatic login and after the manual step), requests at most four
    browser actions, reads at most one line from the operator,
    navigates at most twice and looks the credentials up at most
    once. *)
Theorem authenticate_bounded (url domain : string) (t : list obs) (r : result unit) :
  runs (authenticateToWebsite url domain) t r ->
  count isExtraction t <= 4
  /\ count isBrowserAction t <= 4
  /\ count isPrompt t <= 1
  /\ count isNavigation t <= 2
  /\ count isCredentialLookup t <= 1.
Proof.
  intros H. change (within 4 4 1 2 1 t).
  destruct (authenticate_runs url domain t r H)
    as [(v & -> & ->)
       |[(p & v & -> & ->)
        |[(p & firstRun & first & Hfirst & Hreq & -> & ->)
         |(p & firstRun & first & c & clickRun & second & fallbackRun
           & Hfirst & Hreq & Hclick & Hfall & ->)]]]; try tally.
  - apply analysis_within in Hfirst. unfold within in *.
    cbn [count isExtraction isBrowserAction isPrompt isNavigation isCredentialLookup
         Nat.add].
    rewrite !count_app.
    cbn [count isExtraction isBrowserAction isPrompt isNavigation isCredentialLookup
         Nat.add].
    repeat split; lia.
  - apply fallbackPaths_runs in Hfall
      as (autofillRun & succeeded & manualRun & Hauto & -> & Hmanual).
    assert (Hm : within 1 0 1 1 0 manualRun).
    { destruct succeeded; [destruct Hmanual as [-> _]; tally|].
      exact (manual_within _ _ _ _ Hmanual). }
    apply analysis_within in Hfirst. apply click_within in Hclick.
    apply autofill_within in Hauto.
    unfold within in *.
    cbn [count isExtraction isBrowserAction isPrompt isNavigation isCredentialLookup
         Nat.add].
    rewrite !count_app.
    cbn [count isExtraction isBrowserAction isPrompt isNavigation isCredentialLookup
         Nat.add].
    rewrite !count_app.
    repeat split; lia.
Qed.

(** ** Authentication orchestrator: the click on the login control *)

Lemma count_none (f : obs -> bool) (l : list obs) :
  (forall o, In o l -> f o = false) -> count f l = 0.
Proof.
  induction l as [|o l IH]; intros H; [reflexivity|]. simpl.
  rewrite (H o (or_introl eq_refl)). apply IH. intros o' Ho'. apply H. now right.
Qed.

(** Neither the analyzer nor the fallback paths announce a click. *)
Lemma analysis_announces_no_click (p : Page) (t : list obs) (r : result AuthAnalysis) :
  runs (analyzeAuthenticationState p) t r ->
  forall o, In o t -> isClickAnnouncement o = false.
Proof.
  intros H o Hin. apply not_true_is_false. intros Hc.
  not_there (fun o => isClickAnnouncement o = true) H Hin.
Qed.

Lemma fallback_announces_no_click (p : Page) (url : string) (c : option Credentials)
    (a : AuthAnalysis) (t : list obs) (r : result unit) :
  runs (fallbackPaths p url c a) t r ->
  forall o, In o t -> isClickAnnouncement o = false.
Proof.
  intros H o Hin. apply not_true_is_false. intros Hc.
  not_there (fun o => isClickAnnouncement o = true) H Hin.
Qed.

(** The browser actions of the fallback paths are the steps of the
    automatic login. *)
Lemma fallback_actions (p : Page) (url : string) (c : option Credentials)
    (a : AuthAnalysis) (t : list obs) (r : result unit) :
  runs (fallbackPaths p url c a) t r ->
  forall instruction answer,
    In (o_stagehand_act instruction answer) t ->
    exists cr, c = Some cr
               /\ In instruction [typeUsername cr; typePassword cr; clickSignIn].
Proof.
  intros H instruction answer Hin.
  apply fallbackPaths_runs in H
    as (autofillRun & succeeded & manualRun & Hauto & -> & Hmanual).
  apply in_app_or in Hin as [Hin|Hin].
  - apply attemptAutofill_runs in Hauto
      as [(_ & -> & _) | (cr & -> & _ & Hcases)]; [destruct Hin|].
    exists cr. split; [reflexivity|].
    destruct Hcases
      as [(v & -> & _)
         |[(v & -> & _)
          |[(v & -> & _) | (w & lastRun & last & Hlast & -> & _)]]];
      unfold autofillFailed, autofillVerdict in Hin;
      try (destruct (requiresAuth last));
      in_cases Hin;
      try (not_there (fun o => isBrowserAction o = true) Hlast Hin);
      inversion Hin; subst; simpl; auto.
  - destruct succeeded; [destruct Hmanual as [-> _]; destruct Hin|].
    not_there (fun o => isBrowserAction o = true) Hmanual Hin.
Qed.

(** C8, amended.  When the first analysis asks for a login and names a
    login control, the orchestrator looks up the credentials and then
    attempts the click on that control, exactly once: the run holds one
    announcement of a click, the click follows it, and every other
    browser action of the run is a step of the automatic login.  If the
    click fails the orchestrator writes a line to the console and goes
    on to the fallback paths with the analysis that it has; if the click
    succeeds it waits for the page, runs the analyzer again and goes on
    to the fallback paths with the new analysis.  In both cases the
    orchestrator returns what the fallback paths return. *)
Theorem login_click_once (url domain : string) (t : list obs) (r : result unit)
    (p : Page) (firstRun rest : list obs) (first : AuthAnalysis) (button : string) :
  runs (authenticateToWebsite url domain) t r ->
  t = o_context_awaitActivePage 10000 (Returned p)
      :: o_page_goto p url (Returned tt) :: (firstRun ++ rest)%list ->
  runs (analyzeAuthenticationState p) firstRun (Ok first) ->
  requiresAuth first = true ->
  loginButton first = Some button ->
  button <> "" ->
  count isClickAnnouncement t = 1
  /\ exists credentials click rest',
       rest = o_logAuthenticationAnalysis first domain
              :: o_lookupCredentialsIn1Password domain credentials
              :: o_console_log_credentials credentials
              :: o_console_log ("Clicking login button: " ++ dquote ++ button ++ dquote)
              :: o_stagehand_act button click :: rest'
       /\ (forall instruction answer,
             In (o_stagehand_act instruction answer) (firstRun ++ rest')%list ->
             exists c, credentials = Some c
                       /\ In instruction [typeUsername c; typePassword c; clickSignIn])
       /\ match click with
          | Threw v =>
              exists rest'',
                rest' = o_console_log ("Failed to click login button: "
                                       ++ message_of (FromCallee v)) :: rest''
                /\ runs (fallbackPaths p url credentials first) rest'' r
          | Returned _ =>
              exists wait secondRun second rest'',
                rest' = o_page_waitForLoadState p 5000 wait
                        :: (secondRun ++ rest'')%list
                /\ runs (analyzeAuthenticationState p) secondRun (Ok second)
                /\ runs (fallbackPaths p url credentials second) rest'' r
          end.
Proof.
  intros H E Hfirst Hreq Hbutton Hne.
  destruct (login_click_structure url domain t r p firstRun rest first button
              H E Hfirst Hreq Hbutton Hne)
    as (credentials & click & rest' & Erest & Hclick).
  assert (Hquiet : (forall o, In o rest' -> isClickAnnouncement o = false)
                   /\ forall instruction answer,
                        In (o_stagehand_act instruction answer) rest' ->
                        exists c, credentials = Some c
                                  /\ In instruction
                                       [typeUsername c; typePassword c; clickSignIn]).
  { destruct click as [u|v].
    - destruct Hclick as (wait & secondRun & second & rest'' & -> & Hsecond & Hfall).
      split.
      + intros o Hin. in_cases Hin; [now subst o| |].
        * exact (analysis_announces_no_click p secondRun _ Hsecond o Hin).
        * exact (fallback_announces_no_click p url _ _ rest'' r Hfall o Hin).
      + intros instruction answer Hin. in_cases Hin.
        * not_there (fun o => isBrowserAction o = true) Hsecond Hin.
        * exact (fallback_actions p url _ _ rest'' r Hfall instruction answer Hin).
    - destruct Hclick as (rest'' & -> & Hfall).
      split.
      + intros o Hin. in_cases Hin; [now subst o|].
        exact (fallback_announces_no_click p url _ _ rest'' r Hfall o Hin).
      + intros instruction answer Hin. in_cases Hin.
        exact (fallback_actions p url _ _ rest'' r Hfall instruction answer Hin). }
  destruct Hquiet as [Hannounce Hacts].
  split.
  - rewrite E, Erest. cbn [count isClickAnnouncement]. rewrite count_app.
    rewrite (count_none isClickAnnouncement firstRun
               (analysis_announces_no_click p firstRun _ Hfirst)).
    cbn [count isClickAnnouncement].
    rewrite (count_none isClickAnnouncement rest' Hannounce).
    reflexivity.
  - exists credentials, click, rest'. split; [exact Erest|]. split; [|exact Hclick].
    intros instruction answer Hin. apply in_app_or in Hin as [Hin|Hin].
    + not_there (fun o => isBrowserAction o = true) Hfirst Hin.
    + exact (Hacts instruction answer Hin).
Qed.

(** ** Sample runs of the orchestrator *)

Lemma authenticate_early_failures_witness :
  @nil obs = []
  /\ @Throw unit (Error "Unable to locate an active browser page for authentication.")
     = Throw (Error "Unable to locate an active browser page for authentication.").
Proof.
  destruct (authenticate_early_failures sampleUrl sampleDomain
              [o_context_awaitActivePage 10000 (Threw (OtherValue "timeout"))]
              (Throw (Error "Unable to locate an active browser page for authentication.")))
    as (_ & H & _).
  - vm_compute. reflexivity.
  - apply (H (OtherValue "timeout") []). reflexivity.
Defined.

Lemma credentials_written_to_console_witness :
  sampleDomain = sampleDomain
  /\ exists pre post,
       sampleAutomaticRun
       = (pre ++ o_lookupCredentialsIn1Password sampleDomain (Some sampleCredentials)
              :: o_console_log_credentials (Some sampleCredentials) :: post)%list.
Proof.
  apply (credentials_written_to_console sampleUrl sampleDomain sampleAutomaticRun (Ok tt)).
  - vm_compute. reflexivity.
  - simpl. auto 10.
Defined.

Lemma browser_actions_known_witness :
  In (announceClick (typePassword sampleCredentials)) sampleAutomaticRun
  \/ exists c,
       In (o_lookupCredentialsIn1Password sampleDomain (Some c)) sampleAutomaticRun
       /\ In announceAutofill sampleAutomaticRun
       /\ (typePassword sampleCredentials = typeUsername c
           \/ (typePassword sampleCredentials = typePassword c
               /\ In (o_stagehand_act (typeUsername c) (Returned tt)) sampleAutomaticRun)
           \/ (typePassword sampleCredentials = clickSignIn
               /\ In (o_stagehand_act (typeUsername c) (Returned tt)) sampleAutomaticRun
               /\ In (o_stagehand_act (typePassword c) (Returned tt)) sampleAutomaticRun)).
Proof.
  apply (browser_actions_known sampleUrl sampleDomain sampleAutomaticRun (Ok tt)
           (typePassword sampleCredentials) (Returned tt)).
  - vm_compute. reflexivity.
  - simpl. auto 15.
Defined.

Lemma failed_extraction_no_browser_action_witness :
  existsb isBrowserAction sampleHeuristicRun = false.
Proof.
  apply not_true_is_false. intros Hex.
  apply existsb_exists in Hex as (o & Ho & Hb).
  destruct o; try discriminate Hb.
  apply (failed_extraction_no_browser_action sampleUrl sampleDomain sampleHeuristicRun
           (Throw (Error "No active Browserbase session"))) in Ho.
  - exact Ho.
  - vm_compute. reflexivity.
  - intros a Hin. unfold sampleHeuristicRun, sampleOpening, announceManual in Hin.
    cbn [List.app] in Hin. in_cases Hin.
Defined.

Lemma automatic_login_returns_witness :
  @Ok unit tt = Ok tt
  /\ (exists pre,
         sampleAutomaticRun = (pre ++ [o_console_log "Automatic login successful!"])%list)
  /\ existsb isManualFallback sampleAutomaticRun = false.
Proof.
  apply (automatic_login_returns sampleUrl sampleDomain sampleAutomaticRun (Ok tt)).
  - vm_compute. reflexivity.
  - simpl. auto 20.
Defined.

Lemma manual_step_failures_witness :
  @nil obs = []
  /\ @Throw unit (Error "No active Browserbase session")
     = Throw (Error "No active Browserbase session").
Proof.
  destruct (manual_step_failures sampleUrl sampleDomain sampleHeuristicRun
              (Throw (Error "No active Browserbase session"))) as (H & _).
  - vm_compute. reflexivity.
  - apply (H (removelast sampleHeuristicRun) None []).
    + reflexivity.
    + reflexivity.
    + now left.
Defined.

Lemma authenticate_bounded_witness :
  count isExtraction sampleSkippedRun <= 4
  /\ count isBrowserAction sampleSkippedRun <= 4
  /\ count isPrompt sampleSkippedRun <= 1
  /\ count isNavigation sampleSkippedRun <= 2
  /\ count isCredentialLookup sampleSkippedRun <= 1.
Proof.
  apply (authenticate_bounded sampleUrl sampleDomain sampleSkippedRun (Ok tt)).
  vm_compute. reflexivity.
Defined.

Lemma viewer_command_witness :
  exists pre id debuggerFullscreenUrl platform post,
    sampleSkippedRun
    = (pre ++ [o_sessions_debug id (Returned debuggerFullscreenUrl);
               o_process_platform platform;
               o_child_process_exec "xdg-open https://viewer.example/s1"] ++ post)%list
    /\ "xdg-open https://viewer.example/s1" = opener platform ++ " " ++ debuggerFullscreenUrl
    /\ (forall c, ~ In (o_child_process_exec c) pre)
    /\ (forall c, ~ In (o_child_process_exec c) post).
Proof.
  apply (viewer_command sampleUrl sampleDomain sampleSkippedRun (Ok tt)
           "xdg-open https://viewer.example/s1").
  - vm_compute. reflexivity.
  - vm_compute. auto 30.
Defined.

Lemma login_click_once_witness :
  count isClickAnnouncement sampleSkippedRun = 1
  /\ exists credentials click rest',
       (sampleBeforeClick ++ sampleFailedClick :: sampleManualStep
        ++ o_stdin_once_data sampleSkipLine :: sampleAfterSkip)%list
       = o_logAuthenticationAnalysis needsLogin sampleDomain
         :: o_lookupCredentialsIn1Password sampleDomain credentials
         :: o_console_log_credentials credentials
         :: o_console_log ("Clicking login button: " ++ dquote ++ sampleButton ++ dquote)
         :: o_stagehand_act sampleButton click :: rest'
       /\ (forall instruction answer,
             In (o_stagehand_act instruction answer) (sampleFirstRun ++ rest')%list ->
             exists c, credentials = Some c
                       /\ In instruction [typeUsername c; typePassword c; clickSignIn])
       /\ match click with
          | Threw v =>
              exists rest'',
                rest' = o_console_log ("Failed to click login button: "
                                       ++ message_of (FromCallee v)) :: rest''
                /\ runs (fallbackPaths samplePage sampleUrl credentials needsLogin) rest''
                     (Ok tt)
          | Returned _ =>
              exists wait secondRun second rest'',
                rest' = o_page_waitForLoadState samplePage 5000 wait
                        :: (secondRun ++ rest'')%list
                /\ runs (analyzeAuthenticationState samplePage) secondRun (Ok second)
                /\ runs (fallbackPaths samplePage sampleUrl credentials second) rest''
                     (Ok tt)
          end.
Proof.
  apply (login_click_once sampleUrl sampleDomain sampleSkippedRun (Ok tt) samplePage
           sampleFirstRun
           (sampleBeforeClick ++ sampleFailedClick :: sampleManualStep
            ++ o_stdin_once_data sampleSkipLine :: sampleAfterSkip)%list
           needsLogin sampleButton).
  - vm_compute. reflexivity.
  - reflexivity.
  - vm_compute. reflexivity.
  - reflexivity.
  - reflexivity.
  - discriminate.
Defined.

(** ** The other code: runs *)

Lemma made_andThen (A B : Type) (p : Node.prog A) (f : A -> Node.prog B) :
  forall t r,
    Node.made (Node.andThen p f) t r <->
    exists t1 a t2, t = (t1 ++ t2)%list /\ Node.made p t1 a /\ Node.made (f a) t2 r.
Proof.
  induction p as [a|X c k IH]; intros t r; cbn [Node.andThen Node.made].
  - split.
    + intros H. exists [], a, t. auto.
    + intros (t1 & a' & t2 & -> & [-> ->] & H). exact H.
  - split.
    + intros (x & t' & -> & H). apply IH in H as (t1 & a & t2 & -> & Hp & Hf).
      exists (Node.note c x :: t1), a, t2. repeat split; eauto.
    + intros (t1 & a & t2 & -> & (x & t' & -> & Hp) & Hf).
      exists x, (t' ++ t2)%list. split; [reflexivity|]. apply IH. eauto 6.
Qed.

Lemma made_ret (S A : Type) (a : A) (s : S) t r :
  Node.made (Node.ret a s) t r <-> t = [] /\ r = (Node.Normal a, s).
Proof. reflexivity. Qed.

Lemma made_throw (S A : Type) (e : exn) (s : S) t (r : Node.completion A * S) :
  Node.made (Node.throw e s) t r <-> t = [] /\ r = (Node.Thrown e, s).
Proof. reflexivity. Qed.

Lemma made_get (S : Type) (s : S) t r :
  Node.made (Node.get s) t r <-> t = [] /\ r = (Node.Normal s, s).
Proof. reflexivity. Qed.

Lemma made_put (S : Type) (s s' : S) t r :
  Node.made (Node.put s' s) t r <-> t = [] /\ r = (Node.Normal tt, s').
Proof. reflexivity. Qed.

Lemma made_perform (S X : Type) (c : Node.op X) (s : S) t r :
  Node.made (Node.perform c s) t r <->
  exists x, t = [Node.note c x] /\ r = (Node.Normal x, s).
Proof.
  cbn [Node.perform Node.made]. split.
  - intros (x & t' & -> & -> & ->). eauto.
  - intros (x & -> & ->). exists x, []. auto.
Qed.

Lemma made_await (S X : Type) (c : Node.op (outcome X)) (s : S) t r :
  Node.made (Node.await c s) t r <->
  exists a, t = [Node.note c a]
            /\ r = (match a with
                    | Returned x => Node.Normal x
                    | Threw v => Node.Thrown (FromCallee v)
                    end, s).
Proof.
  cbn [Node.await Node.made]. split.
  - intros (a & t' & -> & H). exists a. destruct a; destruct H as [-> ->]; auto.
  - intros (a & -> & ->). exists a, []. split; [reflexivity|]. destruct a; split; reflexivity.
Qed.

Lemma made_exit (S A : Type) (code : nat) (s : S) t (r : Node.completion A * S) :
  Node.made (Node.exit code s) t r <->
  t = [Node.e_process_exit code] /\ r = (Node.Exited code, s).
Proof.
  cbn [Node.exit Node.made Node.note]. split.
  - intros (x & t' & -> & -> & ->). auto.
  - intros (-> & ->). exists tt, []. auto.
Qed.

Lemma made_bind (S A B : Type) (m : Node.M S A) (f : A -> Node.M S B) (s : S) t r :
  Node.made (Node.bind m f s) t r <->
  exists t1 t2 c s1,
    t = (t1 ++ t2)%list /\ Node.made (m s) t1 (c, s1)
    /\ match c with
       | Node.Normal a => Node.made (f a s1) t2 r
       | Node.Thrown e => t2 = [] /\ r = (Node.Thrown e, s1)
       | Node.Exited n => t2 = [] /\ r = (Node.Exited n, s1)
       end.
Proof.
  unfold Node.bind. rewrite made_andThen. split.
  - intros (t1 & [c s1] & t2 & -> & Hm & Hk). exists t1, t2, c, s1.
    split; [reflexivity|]. split; [exact Hm|]. destruct c; exact Hk.
  - intros (t1 & t2 & c & s1 & -> & Hm & Hk). exists t1, (c, s1), t2.
    split; [reflexivity|]. split; [exact Hm|]. destruct c; exact Hk.
Qed.

Lemma made_try_catch (S A : Type) (m : Node.M S A) (h : exn -> Node.M S A) (s : S) t r :
  Node.made (Node.try_catch m h s) t r <->
  exists t1 t2 c s1,
    t = (t1 ++ t2)%list /\ Node.made (m s) t1 (c, s1)
    /\ match c with
       | Node.Thrown e => Node.made (h e s1) t2 r
       | _ => t2 = [] /\ r = (c, s1)
       end.
Proof.
  unfold Node.try_catch. rewrite made_andThen. split.
  - intros (t1 & [c s1] & t2 & -> & Hm & Hk). exists t1, t2, c, s1.
    split; [reflexivity|]. split; [exact Hm|]. destruct c; exact Hk.
  - intros (t1 & t2 & c & s1 & -> & Hm & Hk). exists t1, (c, s1), t2.
    split; [reflexivity|]. split; [exact Hm|]. destruct c; exact Hk.
Qed.

(** Taking a run of the other code apart: the run of the first part of
    a sequence is taken apart before the cases of its end are looked
    at. *)
Ltac made_step :=
  match goal with
  | H : Node.made (Node.ret _ _) _ _ |- _ => apply made_ret in H as [? ?]; subst
  | H : Node.made (Node.throw _ _) _ _ |- _ => apply made_throw in H as [? ?]; subst
  | H : Node.made (Node.get _) _ _ |- _ => apply made_get in H as [? ?]; subst
  | H : Node.made (Node.put _ _) _ _ |- _ => apply made_put in H as [? ?]; subst
  | H : Node.made (Node.exit _ _) _ _ |- _ => apply made_exit in H as [? ?]; subst
  | H : Node.made (Node.perform _ _) _ _ |- _ =>
      apply made_perform in H as (? & ? & ?); subst
  | H : Node.made (Node.await _ _) _ _ |- _ =>
      apply made_await in H as ([?|?] & ? & ?); subst
  | H : Node.made (Node.bind _ _ _) _ _ |- _ =>
      apply made_bind in H as (? & ? & ? & ? & ? & ? & H); subst
  | H : Node.made (Node.try_catch _ _ _) _ _ |- _ =>
      apply made_try_catch in H as (? & ? & ? & ? & ? & ? & H); subst
  | H : Node.made (Node.lift ?r _) _ _ |- _ => destruct r eqn:?; cbn [Node.lift] in H
  | H : Node.made ((if ?b then _ else _) _) _ _ |- _ =>
      first [progress cbv beta iota in H | destruct b eqn:?]
  | H : Node.made (if ?b then _ else _) _ _ |- _ =>
      first [progress cbv beta iota in H | destruct b eqn:?]
  | H : Node.made ((match ?x with _ => _ end) _) _ _ |- _ =>
      first [progress cbv beta iota in H | destruct x eqn:?]
  | H : Node.made (match ?x with _ => _ end) _ _ |- _ =>
      first [progress cbv beta iota in H | destruct x eqn:?]
  | H : _ /\ _ |- _ => destruct H; subst
  | H : (_, _) = (_, _) |- _ => inversion H; subst; clear H
  | H : match ?c with Node.Normal _ => _ | Node.Thrown _ => _ | Node.Exited _ => _ end
    |- _ => progress cbv beta iota in H
  end.

Ltac inv_made := repeat made_step; cbn [Node.note List.app] in *.


(** The executable reading agrees with the runs. *)
Lemma play_made (R : Type) (world : nat -> forall X, Node.op X -> X) (p : Node.prog R) :
  forall n, Node.made p (fst (Node.play world n p)) (snd (Node.play world n p)).
Proof.
  induction p as [a|X c k IH]; intros n; cbn [Node.play Node.made].
  - auto.
  - specialize (IH (world n X c) (S n)).
    destruct (Node.play world (S n) (k (world n X c))) as [t r].
    exists (world n X c), t. auto.
Qed.

(** ** Session manager *)

(** X21.  [getStagehandInstance] checks its settings before anything
    else, in a fixed order: the API key, then the model name, then the
    project identifier of the environment.  The first one that is
    missing or empty decides the error, and when one is missing no
    context is requested and no instance is constructed. *)
Theorem getStagehandInstance_checks (domain modelApiKey modelName : string)
    (options : option (option bool)) (t : list Node.event)
    (r : Node.completion Node.Stagehand * option Node.Stagehand) :
  Node.made (SessionManager.getStagehandInstance domain modelApiKey modelName options None)
    t r ->
  (modelApiKey = "" ->
   t = []
   /\ r = (Node.Thrown (Error "Missing API key. Set an API key in your environment."),
           None))
  /\ (modelApiKey <> "" -> modelName = "" ->
      t = []
      /\ r = (Node.Thrown (Error "Missing model name. Set a model name in your environment."),
              None))
  /\ (modelApiKey <> "" -> modelName <> "" ->
      exists browserbaseProjectId rest,
        t = Node.e_process_env "BROWSERBASE_PROJECT_ID" browserbaseProjectId :: rest
        /\ (Node.truthy browserbaseProjectId = false ->
            rest = []
            /\ r = (Node.Thrown
                      (Error "Missing BROWSERBASE_PROJECT_ID in environment variables"),
                    None))).
Proof.
  unfold SessionManager.getStagehandInstance. intros H.
  pattern t, r. match goal with |- ?P t r => set (G := P) end.
  inv_made; subst G; cbv beta.
  all: repeat match goal with
              | H : (_ =? _)%string = true |- _ => apply String.eqb_eq in H; subst
              | H : (_ =? _)%string = false |- _ => apply String.eqb_neq in H
              end.
  all: split; [intros E; try congruence; auto|].
  all: split; [intros E1 E2; try congruence; auto|].
  all: intros E1 E2; try congruence.
  all: do 2 eexists; split; [reflexivity|]; intros E; try congruence; auto.
Qed.


(** X22.  The instance is constructed at most once in a process, and a
    failed initialization is never retried.  Once [new Stagehand] has
    returned an instance, the call either returns it or throws what
    [init] threw; in both cases the instance stays in the module
    variable, and every later call, whatever its arguments, returns it
    without making any call. *)
Theorem getStagehandInstance_singleton (domain modelApiKey modelName : string)
    (options : option (option bool)) (t : list Node.event)
    (r : Node.completion Node.Stagehand * option Node.Stagehand)
    (config : Node.StagehandConfig) (instance : Node.Stagehand) :
  Node.made (SessionManager.getStagehandInstance domain modelApiKey modelName options None)
    t r ->
  In (Node.e_new_Stagehand config (Returned instance)) t ->
  snd r = Some instance
  /\ (fst r = Node.Normal instance
      \/ exists v,
           fst r = Node.Thrown (FromCallee v)
           /\ In (Node.e_stagehand_init instance (Threw v)) t)
  /\ forall domain' modelApiKey' modelName' options' t' r',
       Node.made (SessionManager.getStagehandInstance domain' modelApiKey' modelName'
                    options' (snd r)) t' r' ->
       t' = [] /\ r' = (Node.Normal instance, Some instance).
Proof.
  assert (Hlater : forall domain' modelApiKey' modelName' options' t' r',
             Node.made (SessionManager.getStagehandInstance domain' modelApiKey' modelName'
                          options' (Some instance)) t' r' ->
             t' = [] /\ r' = (Node.Normal instance, Some instance)).
  { unfold SessionManager.getStagehandInstance. intros d k m o t' r' H'.
    inv_made. auto. }
  unfold SessionManager.getStagehandInstance. intros H Hin.
  revert Hin. pattern t, r. match goal with |- ?P t r => set (G := P) end.
  inv_made; subst G; cbv beta; intros Hin; in_cases Hin.
  all: inversion Hin; subst; cbn [fst snd].
  all: split; [reflexivity|]; split; [|exact Hlater].
  all: first [left; reflexivity | right; eexists; split; [reflexivity|]; simpl; auto 10].
Qed.

(** X23.  An instance is only constructed from checked settings: the key
    and the model name given are not empty, the project identifier is
    the non-empty one of the environment, the cache directory is named
    after the domain, and a context is persisted exactly when the caller
    has not switched that off and the context manager has answered, for
    this domain, an identifier that is not empty.  When it is switched
    off the context manager is not called. *)
Theorem getStagehandInstance_config (domain modelApiKey modelName : string)
    (options : option (option bool)) (t : list Node.event)
    (r : Node.completion Node.Stagehand * option Node.Stagehand)
    (config : Node.StagehandConfig) (constructed : outcome Node.Stagehand) :
  Node.made (SessionManager.getStagehandInstance domain modelApiKey modelName options None)
    t r ->
  In (Node.e_new_Stagehand config constructed) t ->
  modelApiKey <> "" /\ modelName <> ""
  /\ exists browserbaseProjectId contextId,
       Node.truthy browserbaseProjectId = true
       /\ In (Node.e_process_env "BROWSERBASE_PROJECT_ID" browserbaseProjectId) t
       /\ config = stagehandConfig domain modelApiKey modelName browserbaseProjectId contextId
       /\ if SessionManager.persistContextOf options
          then In (Node.e_getOrCreateContext domain (Returned contextId)) t
          else contextId = None
               /\ forall d x, ~ In (Node.e_getOrCreateContext d x) t.
Proof.
  unfold SessionManager.getStagehandInstance. intros H Hin.
  revert Hin. pattern t, r. match goal with |- ?P t r => set (G := P) end.
  inv_made; subst G; cbv beta; intros Hin; in_cases Hin.
  all: inversion Hin; subst; clear Hin.
  all: repeat match goal with
              | H : (_ =? _)%string = false |- _ => apply String.eqb_neq in H
              end.
  all: split; [assumption|]; split; [assumption|].
  all: match goal with
       | H : SessionManager.persistContextOf _ = false |- _ =>
           eexists; exists None
       | _ => do 2 eexists
       end;
    (split; [eassumption|]); (split; [now left|]); (split; [reflexivity|]).
  all: try match goal with
           | H : SessionManager.persistContextOf _ = _ |- _ => rewrite H
           end.
  all: try (right; now left).
  all: split; [reflexivity|]; intros d x Hi; in_cases Hi.
Qed.

(** ** Generated server *)

(** X24.  [getOrCreateContextId] never throws, and takes the first
    identifier there is, in a fixed order.  It reads
    [BROWSERBASE_CONTEXT_ID] first: a value that is not empty is the
    answer and nothing else is consulted.  Otherwise it reads the saved
    context of the domain: a content that is not blank is the answer,
    trimmed, and it is announced on [console.error].  Only when the file
    cannot be read or is blank is a new context requested; its
    identifier is the answer, and a failed request gives no identifier
    instead of an error. *)
Theorem getOrCreateContextId_precedence (S : Type) (domain : string) (s : S)
    (t : list Node.event) (r : Node.completion (option string) * S) :
  Node.made (GeneratedServer.getOrCreateContextId domain s) t r ->
  exists fromEnv rest id,
    t = Node.e_process_env "BROWSERBASE_CONTEXT_ID" fromEnv :: rest
    /\ r = (Node.Normal id, s)
    /\ (Node.truthy fromEnv = true -> rest = [] /\ id = fromEnv)
    /\ (Node.truthy fromEnv = false ->
        exists saved later,
          rest = Node.e_fs_readFile_context domain saved :: later
          /\ (forall text, saved = Returned text -> trim text <> "" ->
              id = Some (trim text)
              /\ later = [Node.e_console_error
                            ("Using saved context from mcpkit: " ++ trim text)])
          /\ ((forall text, saved = Returned text -> trim text = "") ->
              exists created tail,
                later = Node.e_createNewContext created :: tail
                /\ id = match created with
                        | Returned x => x
                        | Threw _ => None
                        end)).
Proof.
  unfold GeneratedServer.getOrCreateContextId, GeneratedServer.getSavedContextId.
  intros H.
  pattern t, r. match goal with |- ?P t r => set (G := P) end.
  inv_made; subst G; cbv beta.
  all: do 3 eexists; split; [reflexivity|]; split; [reflexivity|].
  all: split; [intros E; try congruence; auto|].
  all: intros E; try congruence.
  all: do 2 eexists; split; [reflexivity|].
  all: cbn [Node.truthy GeneratedServer.shown] in *; try discriminate.
  all: split; [intros text Et Hne; try discriminate Et|intros Hblank].
  all: try (injection Et as <-).
  all: try (split; reflexivity).
  all: try (specialize (Hblank _ eq_refl); rewrite Hblank in *; discriminate).
  all: try (apply String.eqb_neq in Hne; rewrite Hne in *; discriminate).
  all: do 2 eexists; split; reflexivity.
Qed.

(** X25.  [performAction] asks [observe] once, for its instruction, and
    acts at most once.  It acts only on the first candidate that
    [observe] returned, and it ends as that [act] ends, so it returns
    only after an [act] has succeeded.  When [observe] returns nothing
    or an empty list it throws [Could not find element for action], with
    the instruction in quotes, and does not act. *)
Theorem performAction_first_candidate (S : Type) (instruction : string) (s : S)
    (t : list Node.event) (r : Node.completion unit * S) :
  Node.made (GeneratedServer.performAction instruction s) t r ->
  exists observed,
    (t = [Node.e_stagehand_observe instruction observed]
     \/ exists acted, t = [Node.e_stagehand_observe instruction observed; acted])
    /\ (forall a answer,
          In (Node.e_stagehand_act a answer) t ->
          fst r = settled answer
          /\ exists others, observed = Returned (Some (a :: others)))
    /\ (fst r = Node.Normal tt ->
        exists a, In (Node.e_stagehand_act a (Returned tt)) t)
    /\ (observed = Returned None \/ observed = Returned (Some []) ->
        fst r = Node.Thrown
                  (Error ("Could not find element for action: "
                          ++ dquote ++ instruction ++ dquote))).
Proof.
  unfold GeneratedServer.performAction. intros H.
  pattern t, r. match goal with |- ?P t r => set (G := P) end.
  inv_made; subst G; cbv beta; cbn [fst snd].
  all: repeat match goal with u : unit |- _ => destruct u end.
  all: eexists.
  all: (split; [first [left; reflexivity | right; eexists; reflexivity]|]).
  all: split; [intros a' answer Hin; in_cases Hin; inversion Hin; subst;
               (split; [reflexivity|eexists; reflexivity])|].
  all: split; [intros E; try discriminate E; eexists; simpl; auto|].
  all: intros [E|E]; try discriminate E; reflexivity.
Qed.

(** ** Command line *)

Section CliFacts.

Variable URL : Type.
Variable new_URL : string -> option URL.
Variable href : URL -> string.

Lemma truthy_some (x : option string) :
  Node.truthy x = true -> exists u, x = Some u /\ u <> "".
Proof.
  destruct x as [u|]; [|discriminate]. simpl. intros H. exists u. split; [reflexivity|].
  apply String.eqb_neq. now apply negb_true_iff.
Qed.

(** X26.  Every run of [main] ends the process exactly once, as its
    last call, with status 0 or 1; and with status 0 only when no call
    threw and nothing was written to [console.error]. *)
Theorem main_exits_once (args : list string) (t : list Node.event)
    (r : Node.completion unit * unit) :
  Node.made (Cli.main new_URL href args tt) t r ->
  exists code before,
    t = (before ++ [Node.e_process_exit code])%list
    /\ fst r = Node.Exited code
    /\ (forall c, ~ In (Node.e_process_exit c) before)
    /\ (code = 0 \/ code = 1)
    /\ (code = 0 ->
        forall e, In e t ->
                  thrownBy e = None /\ forall line, e <> Node.e_console_error line).
Proof.
  unfold Cli.main, Cli.dispatch, Cli.runCreate, Cli.showHelp. intros H.
  pattern t, r. match goal with |- ?P t r => set (G := P) end.
  inv_made; subst G; cbv beta; cbn [fst snd].
  all: eexists;
    match goal with |- exists b, ?t = _ /\ _ => exists (removelast t) end;
    cbn [removelast]; (split; [reflexivity|]); (split; [reflexivity|]).
  all: split; [intros c Hin; in_cases Hin; discriminate Hin|].
  all: split; [first [left; reflexivity | right; reflexivity]|].
  all: intros E; try discriminate E.
  all: intros e Hin; in_cases Hin; subst e; (split; [reflexivity|]); intros line; discriminate.
Qed.

(** X27.  When a call made by [main] throws, be it a command or the
    prompt, [main] stops there: its next two calls, which are its last,
    write [Error:] and the message of what was thrown to
    [console.error] and end the process with status 1. *)
Theorem main_reports_failure (args : list string) (t : list Node.event)
    (r : Node.completion unit * unit) (e : Node.event) (v : thrown) :
  Node.made (Cli.main new_URL href args tt) t r ->
  In e t -> thrownBy e = Some v ->
  exists before,
    t = (before ++ [e; Node.e_console_error ("Error: " ++ message_of (FromCallee v));
                    Node.e_process_exit 1])%list
    /\ fst r = Node.Exited 1.
Proof.
  unfold Cli.main, Cli.dispatch, Cli.runCreate, Cli.showHelp. intros H Hin Hv.
  revert Hin. pattern t, r. match goal with |- ?P t r => set (G := P) end.
  inv_made; subst G; cbv beta; cbn [fst snd]; intros Hin; in_cases Hin; subst e.
  all: try discriminate Hv.
  all: injection Hv as ->.
  all: match goal with
       | |- exists b, ?t = _ /\ _ => exists (removelast (removelast (removelast t)))
       end; cbn [removelast]; split; reflexivity.
Qed.

(** X28.  Status 1 has four causes and no other.  A call threw, and
    was reported.  Or [create] was given (as its argument, or at the
    prompt) an input that [normalizeUrl] refuses: the error of
    [normalizeUrl] is reported and no command has run.  Or [create] had
    no URL argument and the prompt gave none: the run is the banner, the
    prompt and [URL is required].  Or the command is not a known one:
    the run is the two lines about it and nothing else. *)
Theorem main_failure_causes (args : list string) (t : list Node.event)
    (r : Node.completion unit * unit) :
  Node.made (Cli.main new_URL href args tt) t r ->
  fst r = Node.Exited 1 ->
  (exists before e v,
     thrownBy e = Some v
     /\ t = (before ++ [e; Node.e_console_error ("Error: " ++ message_of (FromCallee v));
                       Node.e_process_exit 1])%list)
  \/ (exists before input error,
        Cli.commandOf args = "create"
        /\ (nth_error args 1 = Some input
            \/ In (Node.e_prompts_url (Returned (Some input))) t)
        /\ normalizeUrl new_URL input = Throw error
        /\ t = (before ++ [Node.e_console_error ("Error: " ++ message_of error);
                          Node.e_process_exit 1])%list
        /\ forall e, In e t -> isCommandCall e = false)
  \/ (exists answer,
        Cli.commandOf args = "create"
        /\ Node.truthy (nth_error args 1) = false
        /\ Node.truthy answer = false
        /\ t = [Node.e_console_log "MCP Server Generator";
                Node.e_prompts_url (Returned answer);
                Node.e_console_log "URL is required";
                Node.e_process_exit 1])
  \/ (~ In (Cli.commandOf args) knownCommands
      /\ t = [Node.e_console_error ("Unknown command: " ++ Cli.commandOf args);
              Node.e_console_log ("Run " ++ dquote ++ "mcpkit help" ++ dquote
                                  ++ " for usage information.");
              Node.e_process_exit 1]).
Proof.
  unfold Cli.main, Cli.dispatch, Cli.runCreate, Cli.showHelp. intros H.
  pattern t, r. match goal with |- ?P t r => set (G := P) end.
  inv_made; subst G; cbv beta; cbn [fst snd]; intros E; try discriminate E.
  all: repeat match goal with
              | H : (_ =? _)%string = true |- _ => apply String.eqb_eq in H
              | H : negb _ = true |- _ => apply negb_true_iff in H
              | H : negb _ = false |- _ => apply negb_false_iff in H
              end.
  all: change (match args with _ :: x :: _ => Some x | _ => None end)
         with (nth_error args 1) in *.
  all: try congruence.
  all: repeat match goal with
              | H : Node.truthy ?x = true |- _ =>
                  destruct x eqn:?; [|discriminate H]; cbn [Node.truthy] in H
              end.
  all: cbv iota in *.
  all: repeat match goal with
              | H : Some _ = Some _ |- _ => inversion H; subst; clear H
              end.
  all: first
         [ left;
           match goal with
           | |- exists b e v, _ /\ ?t = _ =>
               exists (removelast (removelast (removelast t)))
           end; cbn [removelast]; do 2 eexists; (split; [|reflexivity]); reflexivity
         | right; left;
           match goal with
           | |- exists b i e, _ /\ _ /\ _ /\ ?t = _ /\ _ =>
               exists (removelast (removelast t))
           end; cbn [removelast]; do 2 eexists;
           (split; [assumption|]); (split; [|split; [eassumption|]]);
           [|split; [reflexivity|]];
           [first [left; reflexivity | right; simpl; now auto]
           |intros ev Hin; in_cases Hin; subst ev; reflexivity]
         | right; right; left; eexists;
           (split; [assumption|]); (split; [assumption|]); (split; [|reflexivity]);
           assumption
         | right; right; right; (split; [|reflexivity]);
           intros Hin; unfold knownCommands in Hin; in_cases Hin;
           rewrite <- Hin in *;
           match goal with
           | H : _ = false |- _ => vm_compute in H; discriminate H
           end ].
Qed.

(** X29.  [createMCPServer] is only called for the command [create],
    and with the [href] of the URL that [normalizeUrl] made of the
    second argument or, when there is none, of the value from the
    prompt; the input is not empty, and [skipAuth] says whether
    [--skip-auth] is among the arguments.  It is then the only command
    that the run calls. *)
Theorem createMCPServer_argument (args : list string) (t : list Node.event)
    (r : Node.completion unit * unit) (target : string) (skipAuth : bool)
    (answer : outcome unit) :
  Node.made (Cli.main new_URL href args tt) t r ->
  In (Node.e_createMCPServer target skipAuth answer) t ->
  Cli.commandOf args = "create"
  /\ skipAuth = existsb (String.eqb "--skip-auth") args
  /\ (exists input url,
        input <> ""
        /\ (nth_error args 1 = Some input
            \/ Node.truthy (nth_error args 1) = false
               /\ In (Node.e_prompts_url (Returned (Some input))) t)
        /\ normalizeUrl new_URL input = Ok url
        /\ target = href url)
  /\ forall e, In e t -> isCommandCall e = true ->
                e = Node.e_createMCPServer target skipAuth answer.
Proof.
  unfold Cli.main, Cli.dispatch, Cli.runCreate, Cli.showHelp. intros H Hin.
  revert Hin. pattern t, r. match goal with |- ?P t r => set (G := P) end.
  inv_made; subst G; cbv beta; cbn [fst snd]; intros Hin; in_cases Hin.
  all: inversion Hin; subst; clear Hin.
  all: repeat match goal with
              | H : (_ =? _)%string = true |- _ => apply String.eqb_eq in H
              | H : negb _ = true |- _ => apply negb_true_iff in H
              | H : negb _ = false |- _ => apply negb_false_iff in H
              end.
  all: change (match args with _ :: x :: _ => Some x | _ => None end)
         with (nth_error args 1) in *.
  all: split; [assumption|]; split; [reflexivity|].
  all: split; [|intros ev Hin Hc; in_cases Hin; subst ev; first [reflexivity|discriminate Hc]].
  all: repeat match goal with
              | H : Node.truthy ?x = true |- _ =>
                  apply truthy_some in H as (? & ? & ?)
              end.
  all: repeat match goal with
              | H : _ = Some _ |- _ => rewrite H in *
              end; subst; cbv iota in *.
  all: do 2 eexists; (split; [eassumption|]); (split; [|split; [eassumption|reflexivity]]).
  all: first [left; congruence | right; (split; [assumption|]); simpl; now auto].
Qed.

Lemma lowerChar_lowerChar (c : ascii) : lowerChar (lowerChar c) = lowerChar c.
Proof. destruct c as [[] [] [] [] [] [] [] []]; vm_compute; reflexivity. Qed.

Lemma toLowerCase_toLowerCase (s : string) : toLowerCase (toLowerCase s) = toLowerCase s.
Proof.
  induction s as [|c s IH]; [reflexivity|]. simpl. now rewrite lowerChar_lowerChar, IH.
Qed.

Lemma commandOf_lower (a : string) (rest : list string) :
  Cli.commandOf (toLowerCase a :: rest) = Cli.commandOf (a :: rest).
Proof. unfold Cli.commandOf. now rewrite toLowerCase_toLowerCase. Qed.

Lemma skip_auth_not_create (a : string) :
  toLowerCase a = "create" -> ("--skip-auth" =? a)%string = false.
Proof.
  intros E. apply String.eqb_neq. intros <-. discriminate E.
Qed.

(** X30.  The command word is not case-sensitive: [main] does the same
    with the first argument as with the first argument in lower case,
    whatever the other arguments are. *)
Theorem main_command_case (a : string) (rest : list string) :
  Cli.main new_URL href (a :: rest) = Cli.main new_URL href (toLowerCase a :: rest).
Proof.
  unfold Cli.main. rewrite commandOf_lower.
  replace (Cli.dispatch new_URL href (Cli.commandOf (a :: rest)) (toLowerCase a :: rest))
    with (Cli.dispatch new_URL href (Cli.commandOf (a :: rest)) (a :: rest)); [reflexivity|].
  unfold Cli.dispatch. cbn [nth_error existsb].
  destruct (Cli.commandOf (a :: rest) =? "secrets")%string; [reflexivity|].
  destruct (Cli.commandOf (a :: rest) =? "create")%string eqn:Ec; [|reflexivity].
  apply String.eqb_eq in Ec. unfold Cli.commandOf in Ec.
  destruct (toLowerCase a =? "")%string; [discriminate Ec|].
  rewrite (skip_auth_not_create a Ec).
  rewrite (skip_auth_not_create (toLowerCase a)); [reflexivity|].
  now rewrite toLowerCase_toLowerCase.
Qed.

End CliFacts.

(** ** Sample runs of the other code *)

Lemma getStagehandInstance_checks_witness :
  exists browserbaseProjectId rest,
    fst sampleNoProject
    = Node.e_process_env "BROWSERBASE_PROJECT_ID" browserbaseProjectId :: rest
    /\ (Node.truthy browserbaseProjectId = false ->
        rest = []
        /\ snd sampleNoProject
           = (Node.Thrown (Error "Missing BROWSERBASE_PROJECT_ID in environment variables"),
              None)).
Proof.
  destruct (@getStagehandInstance_checks "example.com" "key" "google/gemini-2.5-flash" None
              (fst sampleNoProject) (snd sampleNoProject)) as (_ & _ & H).
  - apply play_made.
  - apply H; discriminate.
Defined.

Lemma getStagehandInstance_singleton_witness :
  snd (snd sampleBrokenSession) = Some (Node.stagehand_handle 1)
  /\ (fst (snd sampleBrokenSession) = Node.Normal (Node.stagehand_handle 1)
      \/ exists v,
           fst (snd sampleBrokenSession) = Node.Thrown (FromCallee v)
           /\ In (Node.e_stagehand_init (Node.stagehand_handle 1) (Threw v))
                (fst sampleBrokenSession))
  /\ forall domain' modelApiKey' modelName' options' t' r',
       Node.made (SessionManager.getStagehandInstance domain' modelApiKey' modelName'
                    options' (snd (snd sampleBrokenSession))) t' r' ->
       t' = []
       /\ r' = (Node.Normal (Node.stagehand_handle 1), Some (Node.stagehand_handle 1)).
Proof.
  apply (@getStagehandInstance_singleton "example.com" "key" "google/gemini-2.5-flash"
           (Some (Some false)) (fst sampleBrokenSession) (snd sampleBrokenSession)
           (stagehandConfig "example.com" "key" "google/gemini-2.5-flash"
              (Some "project-1") None)).
  - apply play_made.
  - vm_compute. auto.
Defined.

Lemma getStagehandInstance_config_witness :
  "key" <> "" /\ "google/gemini-2.5-flash" <> ""
  /\ exists browserbaseProjectId contextId,
       Node.truthy browserbaseProjectId = true
       /\ In (Node.e_process_env "BROWSERBASE_PROJECT_ID" browserbaseProjectId)
            (fst sampleSession)
       /\ stagehandConfig "example.com" "key" "google/gemini-2.5-flash"
            (Some "project-1") (Some "context-of-example.com")
          = stagehandConfig "example.com" "key" "google/gemini-2.5-flash"
              browserbaseProjectId contextId
       /\ In (Node.e_getOrCreateContext "example.com" (Returned contextId))
            (fst sampleSession).
Proof.
  apply (@getStagehandInstance_config "example.com" "key" "google/gemini-2.5-flash" None
           (fst sampleSession) (snd sampleSession)
           (stagehandConfig "example.com" "key" "google/gemini-2.5-flash"
              (Some "project-1") (Some "context-of-example.com"))
           (Returned (Node.stagehand_handle 2))).
  - apply play_made.
  - vm_compute. auto.
Defined.

Lemma getOrCreateContextId_precedence_witness :
  fst (snd sampleSavedContext) = Node.Normal (Some "saved-example.com").
Proof.
  destruct (@getOrCreateContextId_precedence unit "example.com" tt
              (fst sampleSavedContext) (snd sampleSavedContext))
    as (fromEnv & rest & id & Et & Er & _ & H).
  - apply play_made.
  - rewrite Er. simpl. f_equal.
    injection Et as <- <-.
    destruct (H eq_refl) as (saved & later & E & Hsaved & _).
    injection E as <- <-.
    now destruct (Hsaved _ eq_refl) as [-> _].
Defined.

Lemma performAction_first_candidate_witness :
  exists observed,
    (fst sampleAction = [Node.e_stagehand_observe "Click the search box" observed]
     \/ exists acted,
          fst sampleAction
          = [Node.e_stagehand_observe "Click the search box" observed; acted])
    /\ (forall a answer,
          In (Node.e_stagehand_act a answer) (fst sampleAction) ->
          fst (snd sampleAction) = settled answer
          /\ exists others, observed = Returned (Some (a :: others)))
    /\ (fst (snd sampleAction) = Node.Normal tt ->
        exists a, In (Node.e_stagehand_act a (Returned tt)) (fst sampleAction))
    /\ (observed = Returned None \/ observed = Returned (Some []) ->
        fst (snd sampleAction)
        = Node.Thrown (Error ("Could not find element for action: "
                              ++ dquote ++ "Click the search box" ++ dquote))).
Proof.
  apply (@performAction_first_candidate unit "Click the search box" tt
           (fst sampleAction) (snd sampleAction)).
  apply play_made.
Defined.

Lemma main_exits_once_witness :
  exists code before,
    fst sampleCreate = (before ++ [Node.e_process_exit code])%list
    /\ fst (snd sampleCreate) = Node.Exited code
    /\ (forall c, ~ In (Node.e_process_exit c) before)
    /\ (code = 0 \/ code = 1)
    /\ (code = 0 ->
        forall e, In e (fst sampleCreate) ->
                  thrownBy e = None /\ forall line, e <> Node.e_console_error line).
Proof.
  apply (@main_exits_once RefURL.t RefURL.parse RefURL.href ["CREATE"; "example.com"; "--skip-auth"]
           (fst sampleCreate) (snd sampleCreate)).
  apply play_made.
Defined.

Lemma main_reports_failure_witness :
  exists before,
    fst sampleFailedCreate
    = (before
       ++ [Node.e_createMCPServer "https://example.com" false
             (Threw (ErrorObject "Could not start the browser"));
           Node.e_console_error
             ("Error: " ++ message_of (FromCallee (ErrorObject "Could not start the browser")));
           Node.e_process_exit 1])%list
    /\ fst (snd sampleFailedCreate) = Node.Exited 1.
Proof.
  apply (@main_reports_failure RefURL.t RefURL.parse RefURL.href ["create"; "example.com"]
           (fst sampleFailedCreate) (snd sampleFailedCreate)
           (Node.e_createMCPServer "https://example.com" false
              (Threw (ErrorObject "Could not start the browser")))
           (ErrorObject "Could not start the browser")).
  - apply play_made.
  - vm_compute. auto.
  - reflexivity.
Defined.

Lemma main_failure_causes_witness :
  exists before input error,
    normalizeUrl RefURL.parse input = Throw error
    /\ fst sampleRefusedUrl
       = (before ++ [Node.e_console_error ("Error: " ++ message_of error);
                     Node.e_process_exit 1])%list.
Proof.
  destruct (@main_failure_causes RefURL.t RefURL.parse RefURL.href ["create"]
              (fst sampleRefusedUrl) (snd sampleRefusedUrl))
    as [(before & e & v & Hv & E)|[(before & input & error & _ & _ & Hn & E & _)|[H|H]]].
  - apply play_made.
  - reflexivity.
  - exfalso.
    assert (Hl : List.length before = 1).
    { apply (f_equal (@List.length Node.event)) in E. rewrite length_app in E.
      change (List.length (fst sampleRefusedUrl)) with 4 in E. simpl in E. lia. }
    destruct before as [|e0 [|e1 before]]; try discriminate Hl.
    vm_compute in E. injection E as _ <-. discriminate Hv.
  - exists before, input, error. auto.
  - exfalso. destruct H as (answer & _ & _ & _ & H). vm_compute in H. discriminate H.
  - exfalso. destruct H as (_ & H). discriminate H.
Defined.

Lemma createMCPServer_argument_witness :
  Cli.commandOf ["CREATE"; "example.com"; "--skip-auth"] = "create"
  /\ true = existsb (String.eqb "--skip-auth") ["CREATE"; "example.com"; "--skip-auth"]
  /\ (exists input url,
        input <> ""
        /\ (nth_error ["CREATE"; "example.com"; "--skip-auth"] 1 = Some input
            \/ Node.truthy (nth_error ["CREATE"; "example.com"; "--skip-auth"] 1) = false
               /\ In (Node.e_prompts_url (Returned (Some input))) (fst sampleCreate))
        /\ normalizeUrl RefURL.parse input = Ok url
        /\ "https://example.com" = RefURL.href url)
  /\ forall e, In e (fst sampleCreate) -> isCommandCall e = true ->
               e = Node.e_createMCPServer "https://example.com" true (Returned tt).
Proof.
  apply (@createMCPServer_argument RefURL.t RefURL.parse RefURL.href
           ["CREATE"; "example.com"; "--skip-auth"] (fst sampleCreate) (snd sampleCreate)
           "https://example.com" true (Returned tt)).
  - apply play_made.
  - vm_compute. auto.
Defined.
